(** * LIC: the leakage measurement engine of [LIC.py]

    A shallow embedding of class [LIC] (attacker lifecycle, mini-batch
    training loop, batched evaluation, leakage amplification and multi-trial
    amortization) together with the properties its specification states.

    The Python object and the interpreter state it mutates (the store of
    [nn.Module] objects, the random generator, the output stream) are one
    record threaded through a state-and-exception monad.  Everything that
    [LIC.py] imports (torch, the attacker class, utils.text, utils.losses)
    is an explicit parameter, gathered in [Backend]. *)

From Stdlib Require Import ZArith List Sorting.Permutation.
From Stdlib Require Import Floats.SpecFloat.
From stdpp Require Import gmap strings list fin_maps.

Set Default Proof Using "Type".

(** ** Python exceptions and the state-and-exception monad *)

Inductive PyExn :=
| ValueError (msg : string)
| KeyError (key : string)
| AttributeError (name : string)
| IndexError (msg : string)
| RuntimeError (msg : string)
| ZeroDivisionError.

Inductive Result (A : Type) :=
| Ok (a : A)
| Err (e : PyExn).
Arguments Ok {A} a.
Arguments Err {A} e.

(** A raised exception keeps every mutation made before it. *)
Definition Py (St A : Type) : Type := St -> Result A * St.

Definition py_ret {St A} (a : A) : Py St A := fun s => (Ok a, s).

Definition py_bind {St A B} (m : Py St A) (k : A -> Py St B) : Py St B :=
  fun s => match m s with
           | (Ok a, s') => k a s'
           | (Err e, s') => (Err e, s')
           end.

Definition raise {St A} (e : PyExn) : Py St A := fun s => (Err e, s).

Definition lift_result {St A} (r : Result A) : Py St A := fun s => (r, s).

Definition gets {St A} (f : St -> A) : Py St A := fun s => (Ok (f s), s).

Definition modify {St} (f : St -> St) : Py St unit := fun s => (Ok tt, f s).

Declare Scope py_scope.
Delimit Scope py_scope with py.
Notation "x <- m ;; k" := (py_bind m (fun x => k))
  (at level 100, m at next level, right associativity) : py_scope.
Notation "m ;;; k" := (py_bind m (fun _ => k))
  (at level 100, right associativity) : py_scope.
Open Scope py_scope.

(** The spec's error kinds: every exception [LIC.py] raises over a bad
    configuration value is a [ValueError] (metric, aggregation method) or the
    [KeyError] of a failed registry lookup (loss identifier). *)
Definition is_configuration_error (e : PyExn) : bool :=
  match e with
  | ValueError _ | KeyError _ => true
  | _ => false
  end.

(** ** Scalars

    Tensor elements are an abstract type with the operations the code uses;
    [binary32] below instantiates it with IEEE single precision. *)

Class Arith (R : Type) := {
  fof_Z : Z -> R;
  fadd : R -> R -> R;
  fsub : R -> R -> R;
  fmul : R -> R -> R;
  fdiv : R -> R -> R;
  fsqrt : R -> R;
  feqb : R -> R -> bool;
  fltb : R -> R -> bool;
  fis_nan : R -> bool
}.

Definition binary32 : Type := spec_float.

#[export] Instance binary32_arith : Arith binary32 := {|
  fof_Z z := binary_normalize 24 128 z 0 false;
  fadd := SFadd 24 128;
  fsub := SFsub 24 128;
  fmul := SFmul 24 128;
  fdiv := SFdiv 24 128;
  fsqrt := SFsqrt 24 128;
  feqb := SFeqb;
  fltb := SFltb;
  fis_nan x := match x with S754_nan => true | _ => false end
|}.

(** ** Python and torch primitives *)

Section Primitives.
Context {R : Type} `{Arith R}.

(** [math.ceil(a / b)] on non-negative [a]; exact below 2^53. *)
Definition ceil_div (a b : Z) : Result Z :=
  if decide (b = 0)%Z then Err ZeroDivisionError
  else Ok (- ((- a) / b))%Z.

(** [t[start:stop]] for [0 <= start <= stop]. *)
Definition py_slice {A} (t : list A) (start stop : nat) : list A :=
  take (stop - start) (drop start t).

(** [t[perm]] with an index tensor. *)
Fixpoint index_select {A} (t : list A) (perm : list nat) : Result (list A) :=
  match perm with
  | [] => Ok []
  | i :: rest =>
      match t !! i, index_select t rest with
      | Some a, Ok r => Ok (a :: r)
      | None, _ => Err (IndexError "index out of range in self")
      | _, Err e => Err e
      end
  end.

(** The width of a two-dimensional tensor, read off its first row.  A
    tensor without rows does not record its width in this representation. *)
Definition row_width {A} (t : list (list A)) : option nat :=
  match t with
  | [] => None
  | r :: _ => Some (length r)
  end.

(** Broadcasting along the last axis: a source row fits a target row of
    width [w] when it has [w] entries, or one entry, which is then
    repeated. *)
Definition broadcast_row {A} (w : nat) (row : list A) : Result (list A) :=
  if decide (length row = w) then Ok row
  else match row with
       | [a] => Ok (replicate w a)
       | _ => Err (RuntimeError "shape mismatch in slice assignment")
       end.

Fixpoint broadcast_rows {A} (w : nat) (rows : list (list A))
  : Result (list (list A)) :=
  match rows with
  | [] => Ok []
  | r :: rest =>
      match broadcast_row w r, broadcast_rows w rest with
      | Ok r', Ok rest' => Ok (r' :: rest')
      | Err e, _ => Err e
      | _, Err e => Err e
      end
  end.

(** The rows of the source brought to the width of the target; the width
    of the source is not checked against a target without rows. *)
Definition broadcast_to {A} (w : option nat) (src : list (list A))
  : Result (list (list A)) :=
  match w with
  | Some w => broadcast_rows w src
  | None => Ok src
  end.

(** [t[start:stop] = src] on a two-dimensional tensor: the source is
    broadcast to the shape of the target slice.  Its rows must be as wide as
    the rows of [t], or of width one; it must have as many rows as the
    slice, or one row, which is then repeated. *)
Definition slice_assign {A} (t : list (list A)) (start stop : nat)
    (src : list (list A)) : Result (list (list A)) :=
  let k := length (py_slice t start stop) in
  match broadcast_to (row_width t) src with
  | Err e => Err e
  | Ok rows =>
      if decide (length rows = k) then
        Ok (take start t ++ rows ++ drop (start + k) t)
      else match rows with
           | [a] => Ok (take start t ++ replicate k a ++ drop (start + k) t)
           | _ => Err (RuntimeError "shape mismatch in slice assignment")
           end
  end.

(** [t[i] = v] on a one-dimensional tensor. *)
Definition index_assign {A} (t : list A) (i : nat) (v : A) : Result (list A) :=
  if decide (i < length t) then Ok (<[i:=v]> t)
  else Err (IndexError "index out of bounds").

Definition torch_zeros (n : nat) : list R := replicate n (fof_Z 0).

Definition zeros_like (y : list (list R)) : list (list R) :=
  map (map (fun _ => fof_Z 0)) y.

Definition torch_sum (t : list R) : R := foldl fadd (fof_Z 0) t.

(** [torch.mean]: the sum divided by the number of elements. *)
Definition torch_mean (t : list R) : R :=
  fdiv (torch_sum t) (fof_Z (Z.of_nat (length t))).

Definition sq_dev (m v : R) : R := fmul (fsub v m) (fsub v m).

(** [torch.std] with its default [correction=1]: the documented formula
    sqrt( sum (x_i - mean)^2 / max(0, N - 1) ). *)
Definition torch_std (t : list R) : R :=
  fsqrt (fdiv (torch_sum (map (sq_dev (torch_mean t)) t))
              (fof_Z (Z.max 0 (Z.of_nat (length t) - 1)))).

Definition fleb (a b : R) : bool := negb (fltb b a).

Fixpoint insert_sorted (a : R) (l : list R) : list R :=
  match l with
  | [] => [a]
  | b :: l' => if fleb a b then a :: l else b :: insert_sorted a l'
  end.

Definition sort_asc (l : list R) : list R := foldr insert_sorted [] l.

(** [torch.median] of a one-dimensional tensor: NaN as soon as one element
    is NaN, otherwise the lower of the two middle elements; NaN (here 0/0)
    for an empty tensor. *)
Definition torch_median (t : list R) : R :=
  match t with
  | [] => fdiv (fof_Z 0) (fof_Z 0)
  | v0 :: _ =>
      match List.find fis_nan t with
      | Some nan => nan
      | None => nth ((length t - 1) / 2) (sort_asc t) v0
      end
  end.

Definition fhalf : R := fdiv (fof_Z 1) (fof_Z 2).

(** [(y_pred > 0.5)] followed by the cast back to float. *)
Definition threshold_tensor (t : list (list R)) : list (list R) :=
  map (map (fun v => if fltb fhalf v then fof_Z 1 else fof_Z 0)) t.

Definition Metric : Type := list (list R) -> list (list R) -> R.

(** [lambda y_pred, y: (y_pred == y).float().mean()] *)
Definition accuracy_metric : Metric := fun y_pred y =>
  torch_mean (concat (zip_with (zip_with
    (fun a b => if feqb a b then fof_Z 1 else fof_Z 0)) y_pred y)).

(** [lambda y_pred, y: ((y_pred - y) ** 2).float().mean()] *)
Definition mse_metric : Metric := fun y_pred y =>
  torch_mean (concat (zip_with (zip_with
    (fun a b => fmul (fsub a b) (fsub a b))) y_pred y)).
End Primitives.

(** ** The imported collaborators *)

Definition loc : Type := positive.

(** The values of [self.loss_functions]. *)
Inductive Loss := MSELoss | CrossEntropyLoss | BCELoss.

(** What [LIC.py] imports and does not define: random permutations, the
    attacker network (its forward pass, which is given the [training] flag
    of the module, and one optimisation step made of [zero_grad], forward,
    criterion, [backward] and [optimizer.step]), the Adam optimiser with its
    step-decay schedule, [utils.losses] and [utils.text] ([maskWords] is the
    call with [mode="gender"], [equalize_vocab] the call with
    [similarity_threshold=0.5]).  Token tensors are lists of rows of token
    ids, label tensors lists of rows of scalars; device placement and dtype
    casts leave both unchanged. *)
Record Backend (R : Type) := {
  Rng : Type;
  Net : Type;
  Opt : Type;
  Captions : Type;
  Vocab : Type;
  CapProc : Type;
  randperm : nat -> Rng -> list nat * Rng;
  forward : Net -> bool -> list (list Z) -> Rng -> Result (list (list R)) * Rng;
  Adam : Net -> R -> Opt;
  StepLR : Opt -> Z -> R -> Opt;
  train_step : Loss -> Net -> Opt -> list (list Z) -> list (list R) -> Rng ->
               Result (Net * Opt * R) * Rng;
  scheduler_step : Opt -> Opt;
  ModifiedBCELoss : list (list R) -> list (list R) -> R;
  CaptionProcessor : list string -> list string -> string -> string ->
                     option string -> Result CapProc;
  maskWords : CapProc -> Captions -> Captions;
  equalize_vocab : CapProc -> Captions -> Captions -> Captions * Captions;
  build_vocab : CapProc -> Captions -> Vocab;
  vocab_len : Vocab -> nat;
  tokens_to_numbers : CapProc -> Vocab -> Captions -> list (list Z)
}.
Arguments Rng {R} _.
Arguments Net {R} _.
Arguments Opt {R} _.
Arguments Captions {R} _.
Arguments Vocab {R} _.
Arguments CapProc {R} _.
Arguments randperm {R} _ _ _.
Arguments forward {R} _ _ _ _ _.
Arguments Adam {R} _ _ _.
Arguments StepLR {R} _ _ _ _.
Arguments train_step {R} _ _ _ _ _ _ _.
Arguments scheduler_step {R} _ _.
Arguments ModifiedBCELoss {R} _ _ _.
Arguments CaptionProcessor {R} _ _ _ _ _ _.
Arguments maskWords {R} _ _ _.
Arguments equalize_vocab {R} _ _ _ _.
Arguments build_vocab {R} _ _ _.
Arguments vocab_len {R} _ _.
Arguments tokens_to_numbers {R} _ _ _ _.

(** ** The object and the interpreter state *)

Section Model.
Context {R : Type} `{Arith R} (B : Backend R).

(** An [nn.Module] object in the store: its parameters (with the
    architecture they belong to) and its [training] flag. *)
Record Module := { net : Net B; training : bool }.

(** Lines written to standard output, and two ghost events that record the
    calls into the attacker network. *)
Inductive Event :=
| PrintLambda (lambda_d lambda_m : R)
| PrintTrainingActivated (attacker_mode : string)
| PrintEpochLoss (epoch : Z) (avg_loss : R)
| PrintTrainingCompleted
| PrintVocabLen (model_vocab human_vocab : nat)
| PrintTrial (i : nat)
| PrintTrialVal (i : nat) (v : R)
| OptimizerStep (model : loc) (x_batch : list (list Z)) (y_batch : list (list R))
| ForwardPass (model : loc) (x_batch : list (list Z)).

(** The attributes of a [LIC] object ([model_params] and [train_params]
    spelled out by key, as the constructor's docstring prescribes them),
    then the store, the random generator and the output. *)
Record State := {
  attacker_class : gmap string Z -> Rng B -> Result (Net B) * Rng B;
  attacker_params : gmap string Z;
  learning_rate : R;
  loss_function : string;
  epochs : Z;
  batch_size : Z;
  model_attacker_trained : bool;
  threshold : bool;
  device : string;
  eval_metric : @Metric R;
  capProcessor : CapProc B;
  vocab_size : option nat;
  attacker_D : option loc;
  attacker_M : option loc;
  heap : gmap loc Module;
  rng : Rng B;
  trace : list Event
}.

Definition set_attacker_params (v : gmap string Z) (s : State) : State :=
  {| attacker_class := attacker_class s; attacker_params := v;
     learning_rate := learning_rate s; loss_function := loss_function s;
     epochs := epochs s; batch_size := batch_size s;
     model_attacker_trained := model_attacker_trained s;
     threshold := threshold s; device := device s;
     eval_metric := eval_metric s; capProcessor := capProcessor s;
     vocab_size := vocab_size s; attacker_D := attacker_D s;
     attacker_M := attacker_M s; heap := heap s; rng := rng s;
     trace := trace s |}.

Definition set_vocab_size (v : option nat) (s : State) : State :=
  {| attacker_class := attacker_class s; attacker_params := attacker_params s;
     learning_rate := learning_rate s; loss_function := loss_function s;
     epochs := epochs s; batch_size := batch_size s;
     model_attacker_trained := model_attacker_trained s;
     threshold := threshold s; device := device s;
     eval_metric := eval_metric s; capProcessor := capProcessor s;
     vocab_size := v; attacker_D := attacker_D s;
     attacker_M := attacker_M s; heap := heap s; rng := rng s;
     trace := trace s |}.

Definition set_attacker_D (v : option loc) (s : State) : State :=
  {| attacker_class := attacker_class s; attacker_params := attacker_params s;
     learning_rate := learning_rate s; loss_function := loss_function s;
     epochs := epochs s; batch_size := batch_size s;
     model_attacker_trained := model_attacker_trained s;
     threshold := threshold s; device := device s;
     eval_metric := eval_metric s; capProcessor := capProcessor s;
     vocab_size := vocab_size s; attacker_D := v;
     attacker_M := attacker_M s; heap := heap s; rng := rng s;
     trace := trace s |}.

Definition set_attacker_M (v : option loc) (s : State) : State :=
  {| attacker_class := attacker_class s; attacker_params := attacker_params s;
     learning_rate := learning_rate s; loss_function := loss_function s;
     epochs := epochs s; batch_size := batch_size s;
     model_attacker_trained := model_attacker_trained s;
     threshold := threshold s; device := device s;
     eval_metric := eval_metric s; capProcessor := capProcessor s;
     vocab_size := vocab_size s; attacker_D := attacker_D s;
     attacker_M := v; heap := heap s; rng := rng s;
     trace := trace s |}.

Definition set_heap (v : gmap loc Module) (s : State) : State :=
  {| attacker_class := attacker_class s; attacker_params := attacker_params s;
     learning_rate := learning_rate s; loss_function := loss_function s;
     epochs := epochs s; batch_size := batch_size s;
     model_attacker_trained := model_attacker_trained s;
     threshold := threshold s; device := device s;
     eval_metric := eval_metric s; capProcessor := capProcessor s;
     vocab_size := vocab_size s; attacker_D := attacker_D s;
     attacker_M := attacker_M s; heap := v; rng := rng s;
     trace := trace s |}.

Definition set_rng (v : Rng B) (s : State) : State :=
  {| attacker_class := attacker_class s; attacker_params := attacker_params s;
     learning_rate := learning_rate s; loss_function := loss_function s;
     epochs := epochs s; batch_size := batch_size s;
     model_attacker_trained := model_attacker_trained s;
     threshold := threshold s; device := device s;
     eval_metric := eval_metric s; capProcessor := capProcessor s;
     vocab_size := vocab_size s; attacker_D := attacker_D s;
     attacker_M := attacker_M s; heap := heap s; rng := v;
     trace := trace s |}.

Definition set_trace (v : list Event) (s : State) : State :=
  {| attacker_class := attacker_class s; attacker_params := attacker_params s;
     learning_rate := learning_rate s; loss_function := loss_function s;
     epochs := epochs s; batch_size := batch_size s;
     model_attacker_trained := model_attacker_trained s;
     threshold := threshold s; device := device s;
     eval_metric := eval_metric s; capProcessor := capProcessor s;
     vocab_size := vocab_size s; attacker_D := attacker_D s;
     attacker_M := attacker_M s; heap := heap s; rng := rng s;
     trace := v |}.

(** *** Store and output primitives *)

Definition emit (e : Event) : Py State unit :=
  modify (fun s => set_trace (trace s ++ [e]) s).

(** Run a library call that draws from the random generator. *)
Definition with_rng {A} (f : Rng B -> Result A * Rng B) : Py State A :=
  fun s => let '(r, g) := f (rng s) in (r, set_rng g s).

(** Dereference a module; references held by the object are never
    dangling, so the failure branch is not reachable from [LIC]'s methods. *)
Definition deref (l : loc) : Py State Module :=
  fun s => match heap s !! l with
           | Some m => (Ok m, s)
           | None => (Err (RuntimeError "invalid module reference"), s)
           end.

Definition store (l : loc) (m : Module) : Py State unit :=
  modify (fun s => set_heap (<[l:=m]> (heap s)) s).

Definition alloc (m : Module) : Py State loc :=
  fun s => let l := fresh (dom (heap s)) in
           (Ok l, set_heap (<[l:=m]> (heap s)) s).

(** [copy.deepcopy(obj)]: a new object with a copy of every parameter. *)
Definition deepcopy (l : loc) : Py State loc :=
  m <- deref l ;; alloc m.

(** [model.train()] and [model.eval()] *)
Definition set_training (l : loc) (b : bool) : Py State unit :=
  m <- deref l ;; store l {| net := net m; training := b |}.

(** [getattr(self, "attacker_" + attacker_mode)] *)
Definition getattr_attacker (attacker_mode : string) : Py State loc :=
  fun s =>
    let slot := if decide (attacker_mode = "D") then attacker_D s
                else if decide (attacker_mode = "M") then attacker_M s
                else None in
    match slot with
    | Some l => (Ok l, s)
    | None => (Err (AttributeError ("attacker_" +:+ attacker_mode)), s)
    end.

(** [self.loss_functions] and [self.eval_functions], set by [__init__]
    and never reassigned. *)
Definition loss_functions : gmap string Loss :=
  <["mse" := MSELoss]> (<["cross-entropy" := CrossEntropyLoss]>
    (<["bce" := BCELoss]> ∅)).

Definition eval_functions : gmap string (@Metric R) :=
  <["accuracy" := accuracy_metric]> (<["mse" := mse_metric]>
    (<["bce" := ModifiedBCELoss B]> ∅)).


(** *** [LIC.defineModel] *)

Definition defineModel : Py State unit :=
  model_class <- gets attacker_class ;;
  model_params <- gets attacker_params ;;
  vocab <- (fun s => match vocab_size s with
                     | Some v => (Ok v, s)
                     | None => (Err (AttributeError "vocab_size"), s)
                     end) ;;
  let model_params := <["vocab_size" := Z.of_nat vocab]> model_params in
  modify (set_attacker_params model_params) ;;;
  n <- with_rng (model_class model_params) ;;
  d <- alloc {| net := n; training := true |} ;;
  modify (set_attacker_D (Some d)) ;;;
  d' <- getattr_attacker "D" ;;
  m <- deepcopy d' ;;
  modify (set_attacker_M (Some m)).

(** *** [LIC.train] *)

(** One iteration of the batch loop: [zero_grad], forward, criterion,
    [backward], [optimizer.step()], which writes the parameters of [model]
    in place. *)
Definition optimizer_step (model : loc) (criterion : Loss) (opt : Opt B)
    (x_batch : list (list Z)) (y_batch : list (list R)) : Py State (Opt B * R) :=
  m <- deref model ;;
  r <- with_rng (train_step B criterion (net m) opt x_batch y_batch) ;;
  let '(n', opt', loss) := r in
  store model {| net := n'; training := training m |} ;;;
  emit (OptimizerStep model x_batch y_batch) ;;;
  py_ret (opt', loss).

(** [for _ in range(batches)], with [start] and [running_loss] threaded. *)
Fixpoint batch_loop (model : loc) (criterion : Loss)
    (x : list (list Z)) (y : list (list R)) (bs : nat)
    (n : nat) (start : nat) (opt : Opt B) (running_loss : R)
    : Py State (Opt B * R) :=
  match n with
  | O => py_ret (opt, running_loss)
  | S n' =>
      let x_batch := py_slice x start (start + bs) in
      let y_batch := py_slice y start (start + bs) in
      r <- optimizer_step model criterion opt x_batch y_batch ;;
      batch_loop model criterion x y bs n' (start + bs) (fst r)
                 (fadd running_loss (snd r))
  end.

(** The body of the epoch loop. *)
Definition train_epoch (model : loc) (criterion : Loss) (batches : Z)
    (epoch : Z) (x : list (list Z)) (y : list (list R)) (opt : Opt B)
    : Py State (list (list Z) * list (list R) * Opt B) :=
  perm <- with_rng (fun g => let '(p, g') := randperm B (length x) g in (Ok p, g')) ;;
  x <- lift_result (index_select x perm) ;;
  y <- lift_result (index_select y perm) ;;
  bs <- gets batch_size ;;
  r <- batch_loop model criterion x y (Z.to_nat bs) (Z.to_nat batches) 0 opt (fof_Z 0) ;;
  let opt := scheduler_step B (fst r) in
  (if decide (epoch mod 5 = 0)%Z then
     if decide (batches = 0)%Z then raise ZeroDivisionError
     else emit (PrintEpochLoss epoch (fdiv (snd r) (fof_Z batches)))
   else py_ret tt) ;;;
  py_ret (x, y, opt).

(** [for epoch in range(1, epochs + 1)] *)
Fixpoint epoch_loop (model : loc) (criterion : Loss) (batches : Z)
    (n : nat) (epoch : Z) (x : list (list Z)) (y : list (list R)) (opt : Opt B)
    : Py State unit :=
  match n with
  | O => py_ret tt
  | S n' =>
      r <- train_epoch model criterion batches epoch x y opt ;;
      let '(x', y', opt') := r in
      epoch_loop model criterion batches n' (epoch + 1)%Z x' y' opt'
  end.

Definition train (x : list (list Z)) (y : list (list R)) (attacker_mode : string)
    : Py State unit :=
  defineModel ;;;
  model <- getattr_attacker attacker_mode ;;
  set_training model true ;;;
  name <- gets loss_function ;;
  criterion <- (match loss_functions !! name with
                | Some c => py_ret c
                | None => raise (KeyError name)
                end) ;;
  m <- deref model ;;
  lr <- gets learning_rate ;;
  let optimizer := Adam B (net m) lr in
  let scheduler := StepLR B optimizer 10 (fdiv (fof_Z 1) (fof_Z 10)) in
  bs <- gets batch_size ;;
  batches <- lift_result (ceil_div (Z.of_nat (length x)) bs) ;;
  emit (PrintTrainingActivated attacker_mode) ;;;
  ep <- gets epochs ;;
  epoch_loop model criterion batches (Z.to_nat ep) 1 x y scheduler ;;;
  emit PrintTrainingCompleted.

(** *** [LIC.calcLambda] *)

(** [for batch_num in range(batches)], with [start] and [y_pred] threaded. *)
Fixpoint eval_loop (model : loc) (x : list (list Z)) (bs : nat)
    (n : nat) (start : nat) (y_pred : list (list R)) : Py State (list (list R)) :=
  match n with
  | O => py_ret y_pred
  | S n' =>
      let x_batch := py_slice x start (start + bs) in
      m <- deref model ;;
      out <- with_rng (forward B (net m) (training m) x_batch) ;;
      emit (ForwardPass model x_batch) ;;;
      y_pred' <- lift_result (slice_assign y_pred start (start + bs) out) ;;
      eval_loop model x bs n' (start + bs) y_pred'
  end.

Definition calcLambda (model : loc) (x : list (list Z)) (y : list (list R))
    : Py State R :=
  set_training model false ;;;
  let y_pred := zeros_like y in
  bs <- gets batch_size ;;
  batches <- lift_result (ceil_div (Z.of_nat (length x)) bs) ;;
  y_pred <- eval_loop model x (Z.to_nat bs) (Z.to_nat batches) 0 y_pred ;;
  th <- gets threshold ;;
  let y_pred := if th then threshold_tensor y_pred else y_pred in
  metric <- gets eval_metric ;;
  py_ret (metric y_pred y).

(** *** [LIC.calcLeak] *)

Definition calcLeak (feat : list (list R)) (data pred : list (list Z))
    (normalized : bool) : Py State R :=
  train data feat "D" ;;;
  d <- getattr_attacker "D" ;;
  lambda_d <- calcLambda d data feat ;;
  train pred feat "M" ;;;
  m <- getattr_attacker "M" ;;
  lambda_m <- calcLambda m pred feat ;;
  emit (PrintLambda lambda_d lambda_m) ;;;
  let leakage_amp := fsub lambda_m lambda_d in
  py_ret (if normalized then fdiv leakage_amp (fadd lambda_m lambda_d)
          else leakage_amp).

(** *** [LIC.initEvalMetric] and [LIC.__init__] *)

(** The [eval_metric] argument: a callable, a string, or any other object. *)
Inductive MetricArg :=
| MetricCallable (f : @Metric R)
| MetricStr (name : string)
| MetricOther.

Definition initEvalMetric (metric : MetricArg) : Result (@Metric R) :=
  match metric with
  | MetricCallable f => Ok f
  | MetricStr name =>
      match eval_functions !! name with
      | Some f => Ok f
      | None => Err (ValueError ("Metric " +:+ name +:+ " not available."))
      end
  | MetricOther => Err (ValueError "Invalid Metric Given.")
  end.

(** The interpreter state a constructor call starts from. *)
Record Interp := { i_heap : gmap loc Module; i_rng : Rng B; i_trace : list Event }.

Definition LIC_init
    (model_class : gmap string Z -> Rng B -> Result (Net B) * Rng B)
    (model_init_params : gmap string Z)
    (lr : R) (loss : string) (n_epochs bsize : Z)
    (gender_words obj_words : list string) (gender_token obj_token : string)
    (metric : MetricArg) (thresh : bool) (glove_path : option string)
    (dev : string) (w : Interp) : Result State :=
  match initEvalMetric metric with
  | Err e => Err e
  | Ok f =>
      match CaptionProcessor B gender_words obj_words gender_token obj_token
                             glove_path with
      | Err e => Err e
      | Ok cp =>
          Ok {| attacker_class := model_class;
                attacker_params := model_init_params;
                learning_rate := lr; loss_function := loss;
                epochs := n_epochs; batch_size := bsize;
                model_attacker_trained := false;
                threshold := thresh; device := dev;
                eval_metric := f; capProcessor := cp;
                vocab_size := None; attacker_D := None; attacker_M := None;
                heap := i_heap w; rng := i_rng w; trace := i_trace w |}
      end
  end.

(** *** [LIC.captionPreprocess] and [LIC.getAmortizedLeakage] *)

Definition captionPreprocess (model_captions human_captions : Captions B)
    : Py State (list (list Z) * list (list Z)) :=
  cp <- gets capProcessor ;;
  let model_captions := maskWords B cp model_captions in
  let human_captions := maskWords B cp human_captions in
  let '(human_captions, model_captions) :=
    equalize_vocab B cp human_captions model_captions in
  let model_vocab := build_vocab B cp model_captions in
  let human_vocab := build_vocab B cp human_captions in
  emit (PrintVocabLen (vocab_len B model_vocab) (vocab_len B human_vocab)) ;;;
  modify (set_vocab_size
            (Some (Nat.max (vocab_len B model_vocab) (vocab_len B human_vocab)))) ;;;
  let model_cap := tokens_to_numbers B cp model_vocab model_captions in
  let human_cap := tokens_to_numbers B cp human_vocab human_captions in
  py_ret (model_cap, human_cap).

(** The returned dictionary. *)
Inductive AmortizedResult :=
| MeanResult (Mean std : R) (num_trials : nat)
| MedianResult (Median std : R) (num_trials : nat).

Definition result_std (r : AmortizedResult) : R :=
  match r with MeanResult _ s _ | MedianResult _ s _ => s end.

Definition result_num_trials (r : AmortizedResult) : nat :=
  match r with MeanResult _ _ n | MedianResult _ _ n => n end.

(** [for i in range(num_trials)], with [vals] threaded. *)
Fixpoint trial_loop (feat : list (list R)) (data pred : list (list Z))
    (normalized : bool) (n : nat) (i : nat) (vals : list R) : Py State (list R) :=
  match n with
  | O => py_ret vals
  | S n' =>
      emit (PrintTrial i) ;;;
      v <- calcLeak feat data pred normalized ;;
      vals' <- lift_result (index_assign vals i v) ;;
      emit (PrintTrialVal i v) ;;;
      trial_loop feat data pred normalized n' (S i) vals'
  end.

(** The statements after the trial loop. *)
Definition aggregate (vals : list R) (num_trials : nat) (method : string)
    : Result AmortizedResult :=
  if decide (method = "mean") then
    Ok (MeanResult (torch_mean vals) (torch_std vals) num_trials)
  else if decide (method = "median") then
    Ok (MedianResult (torch_median vals) (torch_std vals) num_trials)
  else Err (ValueError "Invalid Method given for Amortization.").

Definition getAmortizedLeakage (feat : list (list R)) (data pred : Captions B)
    (num_trials : nat) (method : string) (normalized : bool)
    : Py State AmortizedResult :=
  p <- captionPreprocess pred data ;;
  let '(pred, data) := p in
  let vals := torch_zeros num_trials in
  vals <- trial_loop feat data pred normalized num_trials 0 vals ;;
  lift_result (aggregate vals num_trials method).

End Model.

Arguments net {R B} _.
Arguments training {R B} _.
Arguments attacker_class {R B} _.
Arguments attacker_params {R B} _.
Arguments learning_rate {R B} _.
Arguments loss_function {R B} _.
Arguments epochs {R B} _.
Arguments batch_size {R B} _.
Arguments model_attacker_trained {R B} _.
Arguments threshold {R B} _.
Arguments device {R B} _.
Arguments eval_metric {R B} _.
Arguments capProcessor {R B} _.
Arguments vocab_size {R B} _.
Arguments attacker_D {R B} _.
Arguments attacker_M {R B} _.
Arguments heap {R B} _.
Arguments rng {R B} _.
Arguments trace {R B} _.

(** ** Notions used by the statements *)

Section Notions.
Context {R : Type} `{Arith R} (B : Backend R).

(** The slices [t[start : start+bs]], [t[start+bs : start+2*bs]], ... taken
    by [n] iterations of a batch loop. *)
Fixpoint slices_from {A} (t : list A) (bs n start : nat) : list (list A) :=
  match n with
  | O => []
  | S n' => py_slice t start (start + bs) :: slices_from t bs n' (start + bs)
  end.

(** The input batches of the optimisation steps recorded in a trace. *)
Definition optimizer_step_batches (tr : list (@Event R)) : list (list (list Z)) :=
  omap (fun e => match e with
                 | OptimizerStep _ x_batch _ => Some x_batch
                 | _ => None
                 end) tr.

(** The input batches of the forward passes recorded in a trace. *)
Definition forward_batches (tr : list (@Event R)) : list (list (list Z)) :=
  omap (fun e => match e with
                 | ForwardPass _ x_batch => Some x_batch
                 | _ => None
                 end) tr.

(** The trials of [getAmortizedLeakage] as a list of leakage samples: trial
    [i], [i+1], ... run one after the other, their values collected in
    order. *)
Fixpoint leak_samples (feat : list (list R)) (data pred : list (list Z))
    (normalized : bool) (n : nat) (i : nat) : Py (State B) (list R) :=
  match n with
  | O => py_ret []
  | S n' =>
      emit B (PrintTrial i) ;;;
      v <- calcLeak B feat data pred normalized ;;
      emit B (PrintTrialVal i v) ;;;
      vs <- leak_samples feat data pred normalized n' (S i) ;;
      py_ret (v :: vs)
  end.

(** The statistics the specification names. *)
Definition sample_mean (vs : list R) : R :=
  fdiv (torch_sum vs) (fof_Z (Z.of_nat (length vs))).

(** Sample standard deviation, with the n-1 denominator. *)
Definition sample_std (vs : list R) : R :=
  fsqrt (fdiv (torch_sum (map (fun v => fmul (fsub v (sample_mean vs))
                                             (fsub v (sample_mean vs))) vs))
              (fof_Z (Z.max 0 (Z.of_nat (length vs) - 1)))).

(** Sample median: the middle order statistic, or the mean of the two
    middle ones for an even count. *)
Definition sample_median (vs : list R) : R :=
  let s := sort_asc vs in
  let n := length vs in
  if Nat.odd n then nth (n / 2) s (fof_Z 0)
  else fdiv (fadd (nth (n / 2 - 1) s (fof_Z 0)) (nth (n / 2) s (fof_Z 0)))
            (fof_Z 2).

(** The lower median: the order statistic of rank floor((n-1)/2). *)
Definition lower_median (vs : list R) : R :=
  nth ((length vs - 1) / 2) (sort_asc vs) (fof_Z 0).

(** Following the specification's words for the attacker pair left by
    [defineModel] in [s1] when run from [s]: M is initialised independently
    of D, that is by a constructor call of its own, drawing from the random
    state that the construction of D left behind. *)
Definition independently_initialized (s s1 : State B) : Prop :=
  exists (v : nat) (d m : loc) (md mm : Module B) (g1 : Rng B),
    vocab_size s = Some v /\
    attacker_D s1 = Some d /\ attacker_M s1 = Some m /\
    heap s1 !! d = Some md /\ heap s1 !! m = Some mm /\
    attacker_class s (<["vocab_size" := Z.of_nat v]> (attacker_params s)) (rng s)
      = (Ok (net md), g1) /\
    fst (attacker_class s (<["vocab_size" := Z.of_nat v]> (attacker_params s)) g1)
      = Ok (net mm).

(** State relations used as frame conditions. *)

(** Every attribute of the object but the two attacker slots is unchanged. *)
Definition same_session (s s' : State B) : Prop :=
  attacker_class s' = attacker_class s /\
  learning_rate s' = learning_rate s /\
  loss_function s' = loss_function s /\
  epochs s' = epochs s /\
  batch_size s' = batch_size s /\
  threshold s' = threshold s /\
  eval_metric s' = eval_metric s /\
  vocab_size s' = vocab_size s.

(** The attacker slots still hold the same references. *)
Definition same_attackers (s s' : State B) : Prop :=
  attacker_D s' = attacker_D s /\ attacker_M s' = attacker_M s.

(** Only the module at [l] may have been written; nothing was allocated. *)
Definition heap_frame (l : loc) (s s' : State B) : Prop :=
  forall l', l' <> l -> heap s' !! l' = heap s !! l'.

(** The output only grows. *)
Definition trace_extends (s s' : State B) : Prop :=
  exists t, trace s' = trace s ++ t.

(** [m] relates every state to the state it leaves, whatever the outcome. *)
Definition preserves {A} (P : State B -> State B -> Prop) (m : Py (State B) A)
    : Prop :=
  forall s r s', m s = (r, s') -> P s s'.

(** What the code run on the attacker at [l] after [defineModel] may change:
    the module at [l], the generator and the output. *)
Definition frame (l : loc) (s s' : State B) : Prop :=
  same_session s s' /\ same_attackers s s' /\ heap_frame l s s' /\
  trace_extends s s'.

(** What a whole training phase or trial leaves alone. *)
Definition session (s s' : State B) : Prop :=
  same_session s s' /\ trace_extends s s'.

End Notions.

(** ** A small concrete instance, on IEEE single precision *)

(** The score that the instance's attacker predicts, tabulated by its
    parameter. *)
Definition toy_scores : list binary32 :=
  [fof_Z 0; fof_Z 1; fof_Z 0; fof_Z 5; fof_Z 0; fof_Z 17; fof_Z 0; fof_Z 37].

Definition toy_backend : Backend binary32 := {|
  Rng := nat;
  Net := nat;
  Opt := unit;
  Captions := list (list Z);
  Vocab := nat;
  CapProc := unit;
  randperm n g := (rev (seq 0 n), S g);
  forward n _ x g := (Ok (map (fun _ => [nth n toy_scores (fof_Z 0)]) x), g);
  Adam _ _ := tt;
  StepLR o _ _ := o;
  train_step _ n o _ _ g := (Ok (S n, o, fof_Z 1), g);
  scheduler_step o := o;
  ModifiedBCELoss _ _ := fof_Z 0;
  CaptionProcessor _ _ _ _ _ := Ok tt;
  maskWords _ c := c;
  equalize_vocab _ a b := (a, b);
  build_vocab _ c := length c;
  vocab_len v := v;
  tokens_to_numbers _ _ c := c
|}.

(** An attacker class whose initial parameter is drawn from the generator. *)
Definition toy_class (kwargs : gmap string Z) (g : nat) : Result nat * nat :=
  (Ok g, S g).

(** A custom metric: the first predicted score. *)
Definition first_output : @Metric binary32 := fun y_pred _ =>
  match y_pred with
  | (v :: _) :: _ => v
  | _ => fof_Z 0
  end.

Definition toy_interp : Interp toy_backend :=
  Build_Interp toy_backend ∅ 0 [].

Definition toy_construct (loss : string) (bsize : Z) (metric : MetricArg)
    : Result (State toy_backend) :=
  LIC_init toy_backend toy_class ∅ (fof_Z 1) loss 1 bsize
           ["he"] ["cat"] "<unk>" "<obj>" metric false None "cpu" toy_interp.

Definition toy_default : State toy_backend :=
  Build_State toy_backend toy_class ∅ (fof_Z 1) "bce" 1 1024 false false "cpu"
              first_output tt None None None ∅ 0 [].

(** The object built by the constructor call, as [LIC_init] returns it. *)
Definition toy_new (loss : string) (bsize : Z) : State toy_backend :=
  match toy_construct loss bsize (MetricCallable first_output) with
  | Ok s => s
  | Err _ => toy_default
  end.

Definition toy_captions : list (list Z) := [[1; 2]%Z].
Definition toy_feat : list (list binary32) := [[fof_Z 1]].

(** The object once a session has been preprocessed. *)
Definition toy_session (loss : string) (bsize : Z) : State toy_backend :=
  snd (captionPreprocess toy_backend toy_captions toy_captions (toy_new loss bsize)).

(** One leakage measurement of the instance, state by state. *)
Definition toy_s0 : State toy_backend := toy_session "bce" 1024.
Definition toy_s1 : State toy_backend :=
  snd (train toy_backend toy_captions toy_feat "D" toy_s0).
Definition toy_s2 : State toy_backend :=
  snd (calcLambda toy_backend 1%positive toy_captions toy_feat toy_s1).
Definition toy_s3 : State toy_backend :=
  snd (train toy_backend toy_captions toy_feat "M" toy_s2).
Definition toy_s4 : State toy_backend :=
  snd (calcLambda toy_backend 4%positive toy_captions toy_feat toy_s3).

(** Two trials of the instance. *)
Definition toy_samples : list binary32 := [fof_Z 4; fof_Z 20].
Definition toy_after_trials : State toy_backend :=
  snd (leak_samples toy_backend toy_feat toy_captions toy_captions false 2 0 toy_s0).
Definition toy_after_trial : State toy_backend :=
  snd (leak_samples toy_backend toy_feat toy_captions toy_captions false 1 0 toy_s0).

(** Three samples in batches of two: the pair of attackers just defined,
    then one epoch on attacker D. *)
Definition toy_x3 : list (list Z) := [[1]; [2]; [3]]%Z.
Definition toy_y3 : list (list binary32) := [[fof_Z 1]; [fof_Z 0]; [fof_Z 1]].
Definition toy_defined : State toy_backend :=
  snd (defineModel toy_backend (toy_session "bce" 2)).
Definition toy_after_epoch : State toy_backend :=
  snd (train_epoch toy_backend 1%positive BCELoss 2 1 toy_x3 toy_y3 tt toy_defined).

(** A preprocessed object configured for two epochs in batches of two, and
    the state its training on the three samples leaves. *)
Definition toy_two_epochs : State toy_backend :=
  Build_State toy_backend toy_class ∅ (fof_Z 1) "bce" 2 2 false false "cpu"
              first_output tt (Some 3) None None ∅ 0 [].
Definition toy_two_epochs_trained : State toy_backend :=
  snd (train toy_backend toy_x3 toy_y3 "D" toy_two_epochs).

(** Evaluation in batches of two against labels of width two: the attacker
    trained on one sample, then scored on the three samples. *)
Definition toy_y3w : list (list binary32) :=
  [[fof_Z 1; fof_Z 0]; [fof_Z 0; fof_Z 1]; [fof_Z 1; fof_Z 1]].
Definition toy_e0 : State toy_backend :=
  snd (train toy_backend toy_captions toy_feat "D" (toy_session "bce" 2)).
Definition toy_e1 : State toy_backend :=
  snd (calcLambda toy_backend 1%positive toy_x3 toy_y3w toy_e0).

(** A session configured with a loss identifier that is not registered. *)
Definition toy_hinge : State toy_backend := toy_session "hinge" 1024.
Definition toy_hinge_failed : State toy_backend :=
  snd (train toy_backend toy_captions toy_feat "D" toy_hinge).

(** Sessions with a batch size of zero and with a negative one, the pair
    of attackers defined. *)
Definition toy_zero : State toy_backend :=
  snd (defineModel toy_backend (toy_session "bce" 0)).
Definition toy_negative : State toy_backend :=
  snd (defineModel toy_backend (toy_session "bce" (-2))).

(** A preprocessed object configured for five epochs. *)
Definition toy_five : State toy_backend :=
  Build_State toy_backend toy_class ∅ (fof_Z 1) "bce" 5 1024 false false "cpu"
              first_output tt (Some 1) None None ∅ 0 [].

(** An attacker class whose constructor fails once the generator has been
    advanced four times, and an object using it: its first trial completes,
    its second one fails. *)
Definition toy_class_limited (kwargs : gmap string Z) (g : nat)
    : Result nat * nat :=
  if Nat.ltb g 4 then (Ok g, S g) else (Err (RuntimeError "out of memory"), g).

Definition toy_limited : State toy_backend :=
  Build_State toy_backend toy_class_limited ∅ (fof_Z 1) "bce" 1 1024 false false
              "cpu" first_output tt None None None ∅ 0 [].
Definition toy_limited_s1 : State toy_backend :=
  snd (captionPreprocess toy_backend toy_captions toy_captions toy_limited).
Definition toy_limited_s2 : State toy_backend :=
  snd (leak_samples toy_backend toy_feat toy_captions toy_captions false 1 0
         toy_limited_s1).
Definition toy_limited_s3 : State toy_backend :=
  snd (calcLeak toy_backend toy_feat toy_captions toy_captions false
         (set_trace toy_backend (trace toy_limited_s2 ++ [PrintTrial 1])
            toy_limited_s2)).

(** An object that has been used for two trials, its generator seeded
    again. *)
Definition toy_reseeded : State toy_backend := set_rng toy_backend 0 toy_after_trials.

(** ** Notions used by the further properties *)

Section MoreNotions.
Context {R : Type} `{Arith R} (B : Backend R).

(** The (input row, target row) pairs handed to the optimisation steps
    recorded in a trace, in order. *)
Definition optimizer_step_pairs (tr : list (@Event R))
    : list (list Z * list R) :=
  concat (omap (fun e => match e with
                         | OptimizerStep _ x_batch y_batch => Some (zip x_batch y_batch)
                         | _ => None
                         end) tr).

(** The elementary updates that the methods from [defineModel] to the trial
    loop make to the state: the generator, the output, the store, the two
    attacker slots, and the [vocab_size] entry of the constructor
    parameters. *)
Inductive update : State B -> State B -> Prop :=
| update_rng s g : update s (set_rng B g s)
| update_trace s t : update s (set_trace B t s)
| update_heap s h : update s (set_heap B h s)
| update_attacker_D s v : update s (set_attacker_D B v s)
| update_attacker_M s v : update s (set_attacker_M B v s)
| update_params s v :
    vocab_size s = Some v ->
    update s (set_attacker_params B
                (<["vocab_size" := Z.of_nat v]> (attacker_params s)) s).

(** A sequence of elementary updates. *)
Inductive reach : State B -> State B -> Prop :=
| reach_refl s : reach s s
| reach_step s s1 s2 : update s s1 -> reach s1 s2 -> reach s s2.

(** Two objects configured alike: same attacker class, same constructor
    parameters (but for the key "vocab_size", which [defineModel]
    overwrites), same training parameters, threshold, metric, caption
    processor and device. *)
Definition same_config (s t : State B) : Prop :=
  attacker_class s = attacker_class t /\
  delete "vocab_size" (attacker_params s) = delete "vocab_size" (attacker_params t) /\
  learning_rate s = learning_rate t /\
  loss_function s = loss_function t /\
  epochs s = epochs t /\
  batch_size s = batch_size t /\
  threshold s = threshold t /\
  eval_metric s = eval_metric t /\
  capProcessor s = capProcessor t /\
  device s = device t.

(** Configured alike, with the same vocabulary size and the random
    generator in the same state.  The store, the attacker attributes and the
    output are left free. *)
Definition same_setup (s t : State B) : Prop :=
  same_config s t /\ vocab_size s = vocab_size t /\ rng s = rng t.

(** The same setup, and the module at [l] in one store is the module at
    [l'] in the other. *)
Definition sim_at (l l' : loc) (s t : State B) : Prop :=
  same_setup s t /\ heap s !! l = heap t !! l'.

(** Run from related states, [m] and [m'] have the same outcome and leave
    related states. *)
Definition agree {A} (P : State B -> State B -> Prop) (m m' : Py (State B) A)
    : Prop :=
  forall s t, P s t -> fst (m s) = fst (m' t) /\ P (snd (m s)) (snd (m' t)).

End MoreNotions.

(** * Properties *)

(** ** Running the monad *)

Lemma py_bind_inv {St A C} (m : Py St A) (k : A -> Py St C) s r s' :
  py_bind m k s = (r, s') ->
  (exists e, m s = (Err e, s') /\ r = Err e) \/
  (exists a s1, m s = (Ok a, s1) /\ k a s1 = (r, s')).
Proof.
  unfold py_bind. destruct (m s) as [[a|e] s1]; intros Hrun.
  - right. eauto.
  - left. inversion Hrun; subst. eauto.
Qed.

Lemma py_bind_ok {St A C} (m : Py St A) (k : A -> Py St C) s c s' :
  py_bind m k s = (Ok c, s') ->
  exists a s1, m s = (Ok a, s1) /\ k a s1 = (Ok c, s').
Proof.
  intros Hrun. apply py_bind_inv in Hrun as [(e & _ & Hr)|Hok]; [discriminate|done].
Qed.

Lemma py_bind_run {St A C} (m : Py St A) (k : A -> Py St C) s a s1 :
  m s = (Ok a, s1) -> py_bind m k s = k a s1.
Proof. unfold py_bind. by intros ->. Qed.

Lemma py_bind_err {St A C} (m : Py St A) (k : A -> Py St C) s e s1 :
  m s = (Err e, s1) -> py_bind m k s = (Err e, s1).
Proof. unfold py_bind. by intros ->. Qed.

(** A run is determined by its outcome and the state it leaves. *)
Lemma run_eta {St A} (p : Result A * St) (r : Result A) :
  fst p = r -> p = (r, snd p).
Proof. destruct p as [r' s']. simpl. by intros ->. Qed.

(** ** Slicing and ceiling division *)

Section Slices.
Context {A : Type}.
Implicit Types t : list A.

Lemma py_slice_step t start bs :
  py_slice t start (start + bs) = take bs (drop start t).
Proof. unfold py_slice. f_equal. lia. Qed.

Lemma length_py_slice_step t start bs :
  length (py_slice t start (start + bs)) = Nat.min bs (length t - start).
Proof. by rewrite py_slice_step, length_take, length_drop. Qed.

Lemma length_slices_from t bs n start :
  length (slices_from t bs n start) = n.
Proof. revert start. induction n as [|n IH]; intros start; simpl; [done|]. by rewrite IH. Qed.

Lemma concat_slices_from t bs n start :
  concat (slices_from t bs n start) = take (n * bs) (drop start t).
Proof.
  revert start. induction n as [|n IH]; intros start; simpl; [done|].
  rewrite IH, py_slice_step.
  replace (drop (start + bs) t) with (drop bs (drop start t))
    by (rewrite drop_drop; done).
  apply take_take_drop.
Qed.

Lemma lookup_slices_from t bs n start i :
  i < n ->
  slices_from t bs n start !! i
    = Some (py_slice t (start + i * bs) (start + i * bs + bs)).
Proof.
  revert start i. induction n as [|n IH]; intros start i Hi; [lia|].
  destruct i as [|i]; simpl.
  - by rewrite Nat.add_0_r.
  - rewrite IH by lia. do 2 f_equal; lia.
Qed.

(** With enough iterations the slices cover the whole tensor. *)
Lemma concat_slices_cover t bs n :
  length t <= n * bs -> concat (slices_from t bs n 0) = t.
Proof.
  intros Hn. rewrite concat_slices_from. simpl. by apply take_ge.
Qed.

Lemma index_select_perm t (p q : list nat) r :
  Permutation p q -> index_select t p = Ok r ->
  exists r', index_select t q = Ok r' /\ Permutation r r'.
Proof.
  intros Hp. revert r. induction Hp as [|i p q Hp IH|i j p|p q u Hpq IH1 Hqu IH2];
    intros r; simpl.
  - intros [= <-]. eauto.
  - destruct (t !! i) as [a|]; [|done].
    destruct (index_select t p) as [rp|e] eqn:Ep; [|done].
    intros [= <-]. destruct (IH rp eq_refl) as (rq & -> & Hperm).
    eexists. split; [done|]. by constructor.
  - destruct (t !! j) as [b|]; [|done].
    destruct (t !! i) as [a|]; [|by destruct (index_select t p)].
    destruct (index_select t p) as [rp|e]; [|done].
    intros [= <-]. eexists. split; [done|]. apply perm_swap.
  - intros Hr. destruct (IH1 r Hr) as (r1 & Hr1 & Hp1).
    destruct (IH2 r1 Hr1) as (r2 & Hr2 & Hp2).
    exists r2. split; [done|]. by etrans.
Qed.

Lemma index_select_seq t k :
  index_select (drop k t) (seq 0 (length t - k)) = Ok (drop k t).
Proof.
  remember (length t - k) as n eqn:En. revert k En.
  induction n as [|n IH]; intros k En.
  - simpl. rewrite drop_ge by lia. done.
  - destruct (drop k t) as [|a l] eqn:Ed.
    { apply (f_equal length) in Ed. rewrite length_drop in Ed. simpl in Ed. lia. }
    assert (Hl : l = drop (S k) t).
    { replace (S k) with (k + 1) by lia. rewrite <- drop_drop, Ed. done. }
    simpl. specialize (IH (S k)). rewrite <- Hl in IH.
    assert (Hsel : forall q m, index_select (a :: l) (seq (S q) m) = index_select l (seq q m)).
    { intros q m. revert q. induction m as [|m IHm]; intros q; [done|].
      simpl. simpl in IHm. by rewrite IHm. }
    rewrite Hsel, IH by lia. done.
Qed.

(** Indexing with a permutation of the positions permutes the rows. *)
Lemma index_select_permutation t p r :
  Permutation p (seq 0 (length t)) -> index_select t p = Ok r -> Permutation r t.
Proof.
  intros Hp Hr. destruct (index_select_perm t p _ r Hp Hr) as (r' & Hr' & Hperm).
  pose proof (index_select_seq t 0) as Hs. rewrite drop_0, Nat.sub_0_r in Hs.
  congruence.
Qed.

End Slices.

Lemma ceil_div_bounds (a b k : Z) :
  (0 < b)%Z -> ceil_div a b = Ok k -> (a <= k * b < a + b)%Z.
Proof.
  intros Hb. unfold ceil_div. case_decide; [lia|]. intros [= <-].
  pose proof (Z.div_mod (- a) b ltac:(lia)) as Hdm.
  pose proof (Z.mod_pos_bound (- a) b Hb) as Hmod. nia.
Qed.

Lemma ceil_div_unique (a b k : Z) :
  (0 < b)%Z -> (a <= k * b < a + b)%Z -> ceil_div a b = Ok k.
Proof.
  intros Hb Hk. unfold ceil_div. case_decide; [lia|]. f_equal.
  pose proof (Z.div_mod (- a) b ltac:(lia)) as Hdm.
  pose proof (Z.mod_pos_bound (- a) b Hb) as Hmod. nia.
Qed.

(** ** Frame conditions *)

Section Frames.
Context {R : Type} `{Arith R} (B : Backend R).
Implicit Types s : State B.

#[local] Instance same_session_preorder : PreOrder (same_session B).
Proof.
  split.
  - intros s. unfold same_session. tauto.
  - intros s1 s2 s3. unfold same_session. intros Ha Hb.
    destruct Ha as (?&?&?&?&?&?&?&?), Hb as (?&?&?&?&?&?&?&?).
    repeat split; congruence.
Qed.

#[local] Instance same_attackers_preorder : PreOrder (same_attackers B).
Proof.
  split.
  - intros s. by split.
  - intros s1 s2 s3 [??] [??]. split; congruence.
Qed.

#[local] Instance heap_frame_preorder l : PreOrder (heap_frame B l).
Proof.
  split.
  - by intros s l'.
  - intros s1 s2 s3 Ha Hb l' Hne. rewrite Hb, Ha; done.
Qed.

#[local] Instance trace_extends_preorder : PreOrder (trace_extends B).
Proof.
  split.
  - intros s. exists []. by rewrite app_nil_r.
  - intros s1 s2 s3 [t1 H1] [t2 H2]. exists (t1 ++ t2).
    by rewrite H2, H1, app_assoc.
Qed.

#[local] Instance frame_preorder l : PreOrder (frame B l).
Proof.
  split.
  - intros s. refine (conj _ (conj _ (conj _ _))); reflexivity.
  - intros s1 s2 s3 (?&?&?&?) (?&?&?&?).
    refine (conj _ (conj _ (conj _ _))); by etrans.
Qed.

#[local] Instance session_preorder : PreOrder (session B).
Proof.
  split.
  - intros s. split; reflexivity.
  - intros s1 s2 s3 [??] [??]. split; by etrans.
Qed.

Lemma frame_session l s s' : frame B l s s' -> session B s s'.
Proof. intros (?&?&?&?). by split. Qed.

Lemma preserves_weaken {A} (P Q : State B -> State B -> Prop) (m : Py (State B) A) :
  (forall s s', P s s' -> Q s s') -> preserves B P m -> preserves B Q m.
Proof. intros HPQ Hm s r s' Hrun. eapply HPQ, Hm, Hrun. Qed.

Lemma preserves_bind {A C} P `{!PreOrder P}
    (m : Py (State B) A) (k : A -> Py (State B) C) :
  preserves B P m -> (forall a, preserves B P (k a)) ->
  preserves B P (py_bind m k).
Proof.
  intros Hm Hk s r s' Hrun.
  apply py_bind_inv in Hrun as [(e & Hrun & _)|(a & s1 & Hrun & Hrest)].
  - eapply Hm, Hrun.
  - etrans; [eapply Hm, Hrun | eapply Hk, Hrest].
Qed.

Lemma preserves_ret {A} P `{!Reflexive P} (a : A) : preserves B P (py_ret a).
Proof. intros s r s' [= _ <-]. reflexivity. Qed.

Lemma preserves_raise {A} P `{!Reflexive P} e : preserves B P (@raise _ A e).
Proof. intros s r s' [= _ <-]. reflexivity. Qed.

Lemma preserves_lift {A} P `{!Reflexive P} (x : Result A) :
  preserves B P (lift_result x).
Proof. intros s r s' [= _ <-]. reflexivity. Qed.

Lemma preserves_gets {A} P `{!Reflexive P} (f : State B -> A) :
  preserves B P (gets f).
Proof. intros s r s' [= _ <-]. reflexivity. Qed.

Lemma preserves_deref P `{!Reflexive P} l : preserves B P (deref B l).
Proof.
  intros s r s'. unfold deref. destruct (heap s !! l); intros [= _ <-]; reflexivity.
Qed.

Lemma preserves_getattr P `{!Reflexive P} mode :
  preserves B P (getattr_attacker B mode).
Proof.
  intros s r s'. unfold getattr_attacker.
  repeat case_match; intros [= _ <-]; reflexivity.
Qed.

(** Elementary updates. *)

Ltac frame_update :=
  unfold frame, session, same_session, same_attackers, heap_frame, trace_extends;
  simpl; repeat split; try done;
  try (exists []; by rewrite app_nil_r);
  try (eexists; reflexivity);
  try (by intros; rewrite lookup_insert_ne).

Lemma frame_set_rng l s g : frame B l s (set_rng B g s).
Proof. frame_update. Qed.

Lemma frame_set_trace l s e : frame B l s (set_trace B (trace s ++ [e]) s).
Proof. frame_update. Qed.

Lemma frame_store l s m : frame B l s (set_heap B (<[l:=m]> (heap s)) s).
Proof. frame_update. Qed.

Lemma session_set_heap s h : session B s (set_heap B h s).
Proof. frame_update. Qed.

Lemma session_set_attacker_params s v : session B s (set_attacker_params B v s).
Proof. frame_update. Qed.

Lemma session_set_attacker_D s v : session B s (set_attacker_D B v s).
Proof. frame_update. Qed.

Lemma session_set_attacker_M s v : session B s (set_attacker_M B v s).
Proof. frame_update. Qed.

Lemma preserves_emit_frame l e : preserves B (frame B l) (emit B e).
Proof. intros s r s' [= _ <-]. apply frame_set_trace. Qed.

Lemma preserves_with_rng_frame {A} l (f : Rng B -> Result A * Rng B) :
  preserves B (frame B l) (with_rng B f).
Proof.
  intros s r s'. unfold with_rng. destruct (f (rng s)) as [r0 g].
  intros [= _ <-]. apply frame_set_rng.
Qed.

Lemma preserves_store_frame l m : preserves B (frame B l) (store B l m).
Proof. intros s r s' [= _ <-]. apply frame_store. Qed.

Lemma preserves_set_training_frame l b :
  preserves B (frame B l) (set_training B l b).
Proof.
  apply preserves_bind; [apply _|apply preserves_deref, _|].
  intros m. apply preserves_store_frame.
Qed.

Lemma preserves_optimizer_step l crit opt xb yb :
  preserves B (frame B l) (optimizer_step B l crit opt xb yb).
Proof.
  unfold optimizer_step.
  apply preserves_bind; [apply _|apply preserves_deref, _|]. intros m.
  apply preserves_bind; [apply _|apply preserves_with_rng_frame|].
  intros [[n' opt'] loss].
  apply preserves_bind; [apply _|apply preserves_store_frame|]. intros _.
  apply preserves_bind; [apply _|apply preserves_emit_frame|]. intros _.
  apply preserves_ret, _.
Qed.

Lemma preserves_batch_loop l crit x y bs n start opt rl :
  preserves B (frame B l) (batch_loop B l crit x y bs n start opt rl).
Proof.
  revert start opt rl. induction n as [|n IH]; intros start opt rl; simpl.
  - apply preserves_ret, _.
  - apply preserves_bind; [apply _|apply preserves_optimizer_step|].
    intros r. apply IH.
Qed.

Lemma preserves_train_epoch l crit batches epoch x y opt :
  preserves B (frame B l) (train_epoch B l crit batches epoch x y opt).
Proof.
  unfold train_epoch.
  apply preserves_bind; [apply _|apply preserves_with_rng_frame|]. intros perm.
  apply preserves_bind; [apply _|apply preserves_lift, _|]. intros x'.
  apply preserves_bind; [apply _|apply preserves_lift, _|]. intros y'.
  apply preserves_bind; [apply _|apply preserves_gets, _|]. intros bs.
  apply preserves_bind; [apply _|apply preserves_batch_loop|]. intros r.
  apply preserves_bind; [apply _| |intros _; apply preserves_ret, _].
  repeat case_decide;
    [apply preserves_raise, _|apply preserves_emit_frame|apply preserves_ret, _].
Qed.

Lemma preserves_epoch_loop l crit batches n epoch x y opt :
  preserves B (frame B l) (epoch_loop B l crit batches n epoch x y opt).
Proof.
  revert epoch x y opt. induction n as [|n IH]; intros epoch x y opt; simpl.
  - apply preserves_ret, _.
  - apply preserves_bind; [apply _|apply preserves_train_epoch|].
    intros [[x' y'] opt']. apply IH.
Qed.

Lemma preserves_eval_loop l x bs n start y_pred :
  preserves B (frame B l) (eval_loop B l x bs n start y_pred).
Proof.
  revert start y_pred. induction n as [|n IH]; intros start y_pred; simpl.
  - apply preserves_ret, _.
  - apply preserves_bind; [apply _|apply preserves_deref, _|]. intros m.
    apply preserves_bind; [apply _|apply preserves_with_rng_frame|]. intros out.
    apply preserves_bind; [apply _|apply preserves_emit_frame|]. intros _.
    apply preserves_bind; [apply _|apply preserves_lift, _|]. intros y'.
    apply IH.
Qed.

Lemma preserves_calcLambda l x y :
  preserves B (frame B l) (calcLambda B l x y).
Proof.
  unfold calcLambda.
  apply preserves_bind; [apply _|apply preserves_set_training_frame|]. intros _.
  apply preserves_bind; [apply _|apply preserves_gets, _|]. intros bs.
  apply preserves_bind; [apply _|apply preserves_lift, _|]. intros batches.
  apply preserves_bind; [apply _|apply preserves_eval_loop|]. intros yp.
  apply preserves_bind; [apply _|apply preserves_gets, _|]. intros th.
  apply preserves_bind; [apply _|apply preserves_gets, _|]. intros metric.
  apply preserves_ret, _.
Qed.

End Frames.

(** ** The attacker lifecycle *)

Section Lifecycle.
Context {R : Type} `{Arith R} (B : Backend R).
Implicit Types s : State B.

#[local] Existing Instance session_preorder.
#[local] Existing Instance frame_preorder.

(** A successful [defineModel], step by step. *)
Lemma defineModel_run s v n0 g :
  vocab_size s = Some v ->
  attacker_class s (<["vocab_size" := Z.of_nat v]> (attacker_params s)) (rng s)
    = (Ok n0, g) ->
  let d := fresh (dom (heap s)) in
  let h1 := <[d := Build_Module B n0 true]> (heap s) in
  let m := fresh (dom h1) in
  defineModel B s =
    (Ok tt,
     set_attacker_M B (Some m)
       (set_heap B (<[m := Build_Module B n0 true]> h1)
          (set_attacker_D B (Some d)
             (set_heap B h1
                (set_rng B g
                   (set_attacker_params B
                      (<["vocab_size" := Z.of_nat v]> (attacker_params s)) s)))))).
Proof.
  intros Hv Hc. simpl.
  unfold defineModel, py_bind, gets, modify, with_rng, alloc, deepcopy,
    getattr_attacker, deref, py_bind. simpl.
  rewrite Hv. simpl. rewrite Hc. simpl.
  rewrite lookup_insert_eq. reflexivity.
Qed.

Lemma defineModel_spec s v n0 g :
  vocab_size s = Some v ->
  attacker_class s (<["vocab_size" := Z.of_nat v]> (attacker_params s)) (rng s)
    = (Ok n0, g) ->
  exists s1 d m,
    defineModel B s = (Ok tt, s1) /\
    attacker_D s1 = Some d /\ attacker_M s1 = Some m /\
    d <> m /\ (d ∉ dom (heap s)) /\ (m ∉ dom (heap s)) /\
    heap s1 !! d = Some (Build_Module B n0 true) /\
    heap s1 !! m = Some (Build_Module B n0 true) /\
    (forall l, (l ∈ dom (heap s)) -> (heap s1 !! l = heap s !! l)) /\
    session B s s1 /\ trace s1 = trace s /\ rng s1 = g /\
    attacker_params s1 = <["vocab_size" := Z.of_nat v]> (attacker_params s).
Proof.
  intros Hv Hc. pose proof (defineModel_run s v n0 g Hv Hc) as Hrun.
  simpl in Hrun.
  assert (Hd : fresh (dom (heap s)) ∉ dom (heap s)) by apply is_fresh.
  remember (fresh (dom (heap s))) as d eqn:Ed.
  remember (<[d := Build_Module B n0 true]> (heap s)) as h1 eqn:Eh1.
  assert (Hm : fresh (dom h1) ∉ dom h1) by apply is_fresh.
  remember (fresh (dom h1)) as m eqn:Em.
  assert (Hdm : d <> m).
  { intros Heq. apply Hm. rewrite <- Heq, Eh1, dom_insert_L. set_solver. }
  assert (Hm' : m ∉ dom (heap s)).
  { intros Hin. apply Hm. rewrite Eh1, dom_insert_L. set_solver. }
  eexists _, d, m. split; [exact Hrun|]. simpl.
  split; [done|]. split; [done|]. split; [done|]. split; [done|]. split; [done|].
  split. { rewrite lookup_insert_ne by done. rewrite Eh1. apply lookup_insert_eq. }
  split. { apply lookup_insert_eq. }
  split.
  { intros l Hl. rewrite Eh1, !lookup_insert_ne; [done| |]; intros <-; done. }
  split.
  { split; [unfold same_session; simpl; tauto|]. exists []. simpl. by rewrite app_nil_r. }
  done.
Qed.

Lemma preserves_defineModel : preserves B (session B) (defineModel B).
Proof.
  assert (Hrng : forall A (f : Rng B -> Result A * Rng B),
             preserves B (session B) (with_rng B f)).
  { intros A f. eapply preserves_weaken; [apply (frame_session B 1%positive)|].
    apply preserves_with_rng_frame. }
  assert (Halloc : forall m, preserves B (session B) (alloc B m)).
  { intros m s r s' [= _ <-]. apply session_set_heap. }
  unfold defineModel.
  apply preserves_bind; [apply _|apply preserves_gets, _|]. intros cls.
  apply preserves_bind; [apply _|apply preserves_gets, _|]. intros params.
  apply preserves_bind; [apply _| |].
  { intros s r s'. destruct (vocab_size s); intros [= _ <-]; reflexivity. }
  intros v.
  apply preserves_bind; [apply _| |].
  { intros s r s' [= _ <-]. apply session_set_attacker_params. }
  intros _. apply preserves_bind; [apply _|apply Hrng|]. intros n.
  apply preserves_bind; [apply _|apply Halloc|]. intros d.
  apply preserves_bind; [apply _| |].
  { intros s r s' [= _ <-]. apply session_set_attacker_D. }
  intros _. apply preserves_bind; [apply _|apply preserves_getattr, _|]. intros d'.
  apply preserves_bind; [apply _| |].
  { apply preserves_bind; [apply _|apply preserves_deref, _|]. intros m. apply Halloc. }
  intros m s r s' [= _ <-]. apply session_set_attacker_M.
Qed.

(** What [train] does once the attacker [l] has been selected. *)
Lemma preserves_train_body l x y mode :
  preserves B (frame B l)
    (set_training B l true ;;;
     name <- gets loss_function ;;
     criterion <- (match loss_functions !! name with
                   | Some c => py_ret c
                   | None => raise (KeyError name)
                   end) ;;
     m <- deref B l ;;
     lr <- gets learning_rate ;;
     bs <- gets batch_size ;;
     batches <- lift_result (ceil_div (Z.of_nat (length x)) bs) ;;
     emit B (PrintTrainingActivated mode) ;;;
     ep <- gets epochs ;;
     epoch_loop B l criterion batches (Z.to_nat ep) 1 x y
       (StepLR B (Adam B (net m) lr) 10 (fdiv (fof_Z 1) (fof_Z 10))) ;;;
     emit B PrintTrainingCompleted).
Proof.
  apply preserves_bind; [apply _|apply preserves_set_training_frame|]. intros _.
  apply preserves_bind; [apply _|apply preserves_gets, _|]. intros name.
  apply preserves_bind; [apply _| |].
  { destruct (loss_functions !! name); [apply preserves_ret, _|apply preserves_raise, _]. }
  intros crit.
  apply preserves_bind; [apply _|apply preserves_deref, _|]. intros m.
  apply preserves_bind; [apply _|apply preserves_gets, _|]. intros lr.
  apply preserves_bind; [apply _|apply preserves_gets, _|]. intros bs.
  apply preserves_bind; [apply _|apply preserves_lift, _|]. intros batches.
  apply preserves_bind; [apply _|apply preserves_emit_frame|]. intros _.
  apply preserves_bind; [apply _|apply preserves_gets, _|]. intros ep.
  apply preserves_bind; [apply _|apply preserves_epoch_loop|]. intros _.
  apply preserves_emit_frame.
Qed.

(** After [defineModel], [train] either fails to select an attacker and
    changes nothing more, or works on the selected attacker only. *)
Lemma train_frame x y mode s s1 r s' :
  defineModel B s = (Ok tt, s1) ->
  train B x y mode s = (r, s') ->
  (exists l, getattr_attacker B mode s1 = (Ok l, s1) /\ frame B l s1 s') \/
  (s' = s1 /\ r = Err (AttributeError ("attacker_" +:+ mode))).
Proof.
  intros Hdef. unfold train. rewrite (py_bind_run _ _ _ _ _ Hdef).
  intros Hrun. apply py_bind_inv in Hrun as [(e & Hget & ->)|(l & s2 & Hget & Hrest)].
  - right. unfold getattr_attacker in Hget. repeat case_match; simplify_eq; done.
  - assert (s2 = s1) as ->.
    { unfold getattr_attacker in Hget. repeat case_match; simplify_eq; done. }
    left. exists l. split; [done|].
    eapply (preserves_train_body l x y mode), Hrest.
Qed.

Lemma preserves_train x y mode : preserves B (session B) (train B x y mode).
Proof.
  intros s r s' Hrun. pose proof Hrun as Hrun'. unfold train in Hrun.
  apply py_bind_inv in Hrun as [(e & Hdef & _)|([] & s1 & Hdef & _)].
  - eapply preserves_defineModel, Hdef.
  - etrans; [eapply preserves_defineModel, Hdef|].
    destruct (train_frame _ _ _ _ _ _ _ Hdef Hrun') as [(l & _ & Hfr)|[-> _]].
    + eapply frame_session, Hfr.
    + reflexivity.
Qed.

Lemma preserves_calcLeak feat data pred normalized :
  preserves B (session B) (calcLeak B feat data pred normalized).
Proof.
  assert (Hlam : forall l x y, preserves B (session B) (calcLambda B l x y)).
  { intros l x y. eapply preserves_weaken; [apply (frame_session B l)|].
    apply preserves_calcLambda. }
  unfold calcLeak.
  apply preserves_bind; [apply _|apply preserves_train|]. intros _.
  apply preserves_bind; [apply _|apply preserves_getattr, _|]. intros d.
  apply preserves_bind; [apply _|apply Hlam|]. intros ld.
  apply preserves_bind; [apply _|apply preserves_train|]. intros _.
  apply preserves_bind; [apply _|apply preserves_getattr, _|]. intros m.
  apply preserves_bind; [apply _|apply Hlam|]. intros lm.
  apply preserves_bind; [apply _| |intros _; apply preserves_ret, _].
  eapply preserves_weaken; [apply (frame_session B 1%positive)|].
  apply preserves_emit_frame.
Qed.

End Lifecycle.

(** ** IEEE single precision: dividing by one, and the deviation of one value *)

Section Binary32.
Local Open Scope Z_scope.

Lemma div_eucl_exact a b : 0 < b -> Z.div_eucl (a * b) b = (a, 0).
Proof.
  intros Hb. pose proof (Z.div_eucl_eq (a * b) b ltac:(lia)) as Heq.
  pose proof (Z.mod_pos_bound (a * b) b Hb) as Hmod.
  unfold Z.modulo in Hmod. destruct (Z.div_eucl (a * b) b) as [q r].
  assert (Hq : q = a).
  { destruct (Z.lt_trichotomy q a) as [Hlt|[Heq'|Hgt]]; [|exact Heq'|].
    - assert (b * (q + 1) <= b * a) by (apply Z.mul_le_mono_nonneg_l; lia). lia.
    - assert (b * (a + 1) <= b * q) by (apply Z.mul_le_mono_nonneg_l; lia). lia. }
  subst q. f_equal. lia.
Qed.

(** Rounding a canonical mantissa leaves it alone. *)
Lemma round_aux_canonical s m e :
  canonical_mantissa 24 128 m e = true -> e <= 104 ->
  binary_round_aux 24 128 s (Zpos m) e loc_Exact = S754_finite s m e.
Proof.
  intros Hc He. unfold canonical_mantissa in Hc. apply Z.eqb_eq in Hc.
  unfold binary_round_aux, shr_fexp. cbn [Zdigits2 shr_record_of_loc].
  rewrite Hc, Z.sub_diag.
  cbn [shr shr_m loc_of_shr_record round_nearest_even Zdigits2 shr_record_of_loc].
  rewrite Hc, Z.sub_diag. cbn [shr shr_m].
  replace (e <=? 128 - 24) with true; [reflexivity|].
  symmetry. apply Z.leb_le. lia.
Qed.

(** Rounding a 25-bit even mantissa halves it exactly. *)
Lemma round_aux_doubled s m e :
  Zpos (digits2_pos m) = 24 -> -149 < e -> e <= 104 ->
  binary_round_aux 24 128 s (Zpos m~0) (e - 1) loc_Exact = S754_finite s m e.
Proof.
  intros Hd Hlo Hhi.
  unfold binary_round_aux, shr_fexp. cbn [Zdigits2 shr_record_of_loc digits2_pos].
  rewrite Pos2Z.inj_succ, Hd.
  replace (fexp 24 128 (Z.succ 24 + (e - 1)) - (e - 1)) with 1
    by (unfold fexp, emin; lia).
  cbn [shr SpecFloat.iter_pos shr_1 orb shr_m loc_of_shr_record round_nearest_even
       Zdigits2 shr_record_of_loc].
  rewrite Hd.
  replace (e - 1 + 1) with e by lia.
  replace (fexp 24 128 (24 + e) - e) with 0 by (unfold fexp, emin; lia).
  cbn [shr shr_m].
  replace (e <=? 128 - 24) with true; [reflexivity|].
  symmetry. apply Z.leb_le. lia.
Qed.

(** x / 1.0 = x for every finite single-precision number. *)
Lemma SFdiv_one s m e :
  valid_binary 24 128 (S754_finite s m e) = true ->
  SFdiv 24 128 (S754_finite s m e) (S754_finite false 8388608 (-23))
    = S754_finite s m e.
Proof.
  intros Hv. cbn [valid_binary] in Hv. unfold bounded in Hv.
  apply andb_prop in Hv as [Hc Hb]. apply Z.leb_le in Hb.
  change (128 - 24) with 104 in Hb.
  pose proof Hc as Hc'. unfold canonical_mantissa in Hc'. apply Z.eqb_eq in Hc'.
  unfold fexp, emin in Hc'.
  cbn [SFdiv]. unfold SFdiv_core_binary.
  cbn [Zdigits2]. change (Zpos (digits2_pos 8388608)) with 24.
  replace (xorb s false) with s by (destruct s; reflexivity).
  destruct (Z.eq_dec e (-149)) as [He|He].
  - replace (Z.min (fexp 24 128 (Zpos (digits2_pos m) + e - (24 + -23))) (e - -23))
      with e by (unfold fexp, emin; lia).
    replace (e - -23 - e) with 23 by lia.
    rewrite Z.shiftl_mul_pow2 by lia. change (2 ^ 23) with 8388608.
    rewrite div_eucl_exact by lia.
    change (new_location 8388608 0) with loc_Exact.
    apply round_aux_canonical; [exact Hc|lia].
  - assert (Hd : Zpos (digits2_pos m) = 24) by lia.
    rewrite Hd.
    replace (Z.min (fexp 24 128 (24 + e - (24 + -23))) (e - -23))
      with (e - 1) by (unfold fexp, emin; lia).
    replace (e - -23 - (e - 1)) with 24 by lia.
    rewrite Z.shiftl_mul_pow2 by lia.
    replace (Zpos m * 2 ^ 24) with (Zpos m~0 * 8388608)
      by (change (2 ^ 24) with 16777216; lia).
    rewrite div_eucl_exact by lia.
    change (new_location 8388608 0) with loc_Exact.
    apply round_aux_doubled; lia.
Qed.

Lemma SFsub_diag s m e :
  SFsub 24 128 (S754_finite s m e) (S754_finite s m e) = S754_zero false.
Proof. cbn [SFsub]. rewrite Z.sub_diag. reflexivity. Qed.

(** The [n-1] standard deviation of a single value is 0/0. *)
Lemma torch_std_singleton (v : binary32) :
  valid_binary 24 128 v = true -> torch_std [v] = S754_nan.
Proof.
  intros Hv. unfold torch_std, torch_mean, torch_sum, sq_dev.
  cbn [map foldl length Z.of_nat Pos.of_succ_nat].
  change (fof_Z 0) with (S754_zero false).
  change (fof_Z (Z.pos 1)) with (S754_finite false 8388608 (-23)).
  change (fof_Z (Z.max 0 (1 - 1))) with (S754_zero false).
  cbn [fadd fsub fmul fdiv fsqrt binary32_arith].
  destruct v as [s|s| |s m e].
  - destruct s; reflexivity.
  - destruct s; reflexivity.
  - reflexivity.
  - change (SFadd 24 128 (S754_zero false) (S754_finite s m e))
      with (S754_finite s m e).
    rewrite SFdiv_one by exact Hv. rewrite SFsub_diag. reflexivity.
Qed.

End Binary32.

(** ** The trial loop *)

Section Trials.
Context {R : Type} `{Arith R} (B : Backend R).
Implicit Types s : State B.

#[local] Existing Instance session_preorder.

(** The loop that writes [vals[i]] in place computes the list of samples. *)
Lemma trial_loop_samples feat data pred normalized n i (vals : list R) s :
  i + n <= length vals ->
  trial_loop B feat data pred normalized n i vals s =
    match leak_samples B feat data pred normalized n i s with
    | (Ok vs, s') => (Ok (take i vals ++ vs ++ drop (i + n) vals), s')
    | (Err e, s') => (Err e, s')
    end.
Proof.
  revert i vals s. induction n as [|n IH]; intros i vals s Hlen.
  - simpl. unfold py_ret. rewrite Nat.add_0_r, take_drop. done.
  - simpl. unfold py_bind, emit, modify, lift_result, index_assign, py_ret. simpl.
    destruct (calcLeak B feat data pred normalized _) as [[v|e] s1]; [|done].
    case_decide; [|lia].
    rewrite IH by (rewrite length_insert; lia).
    destruct (leak_samples B feat data pred normalized n (S i) _)
      as [[vs|e] s2]; [|done].
    do 2 f_equal.
    rewrite (take_S_r _ _ v) by (apply list_lookup_insert_eq; lia).
    rewrite take_insert_ge by lia.
    rewrite drop_insert_lt by lia.
    rewrite <- app_assoc. simpl. by replace (i + S n) with (S (i + n)) by lia.
Qed.

Lemma leak_samples_length feat data pred normalized n i s vs s' :
  leak_samples B feat data pred normalized n i s = (Ok vs, s') ->
  length vs = n.
Proof.
  revert i s vs s'. induction n as [|n IH]; intros i s vs s'; simpl.
  - by intros [= <- _].
  - intros Hrun.
    apply py_bind_ok in Hrun as (_ & s1 & _ & Hrun).
    apply py_bind_ok in Hrun as (v & s2 & _ & Hrun).
    apply py_bind_ok in Hrun as (_ & s3 & _ & Hrun).
    apply py_bind_ok in Hrun as (vs' & s4 & Hrec & Hrun).
    injection Hrun as <- _. simpl. f_equal. eapply IH, Hrec.
Qed.

Lemma preserves_leak_samples feat data pred normalized n i :
  preserves B (session B) (leak_samples B feat data pred normalized n i).
Proof.
  assert (Hemit : forall e, preserves B (session B) (emit B e)).
  { intros e. eapply preserves_weaken; [apply (frame_session B 1%positive)|].
    apply preserves_emit_frame. }
  revert i. induction n as [|n IH]; intros i; simpl.
  - apply preserves_ret, _.
  - apply preserves_bind; [apply _|apply Hemit|]. intros _.
    apply preserves_bind; [apply _|apply preserves_calcLeak|]. intros v.
    apply preserves_bind; [apply _|apply Hemit|]. intros _.
    apply preserves_bind; [apply _|apply IH|]. intros vs.
    apply preserves_ret, _.
Qed.

(** Every trial of a completed run has reported its value. *)
Lemma leak_samples_reported feat data pred normalized n i s vs s' :
  leak_samples B feat data pred normalized n i s = (Ok vs, s') ->
  forall k, k < n ->
    exists v, vs !! k = Some v /\ PrintTrialVal (i + k) v ∈ trace s'.
Proof.
  revert i s vs s'. induction n as [|n IH]; intros i s vs s' Hrun k Hk; [lia|].
  simpl in Hrun.
  apply py_bind_ok in Hrun as (_ & s1 & _ & Hrun).
  apply py_bind_ok in Hrun as (v & s2 & _ & Hrun).
  apply py_bind_ok in Hrun as ([] & s3 & Hemit & Hrun).
  apply py_bind_ok in Hrun as (vs' & s4 & Hrec & Hrun).
  injection Hrun as <- <-.
  injection Hemit as <-.
  destruct k as [|k].
  - exists v. split; [done|].
    destruct (preserves_leak_samples _ _ _ _ _ _ _ _ _ Hrec) as [_ [t Ht]].
    rewrite Ht. simpl. rewrite Nat.add_0_r.
    apply elem_of_app. left. apply elem_of_app. right. by apply list_elem_of_singleton.
  - destruct (IH _ _ _ _ Hrec k ltac:(lia)) as (v' & Hv' & Hin).
    exists v'. split; [done|]. by replace (i + S k) with (S i + k) by lia.
Qed.

Lemma captionPreprocess_total (model_captions human_captions : Captions B) s :
  exists p d s1, captionPreprocess B model_captions human_captions s = (Ok (p, d), s1).
Proof.
  unfold captionPreprocess, py_bind, gets, emit, modify, py_ret.
  destruct (equalize_vocab B _ _ _). simpl. eauto.
Qed.

(** [getAmortizedLeakage] in terms of the samples. *)
Lemma getAmortizedLeakage_samples feat data pred n method normalized s p d s1 :
  captionPreprocess B pred data s = (Ok (p, d), s1) ->
  getAmortizedLeakage B feat data pred n method normalized s =
    match leak_samples B feat d p normalized n 0 s1 with
    | (Ok vs, s2) => (aggregate vs n method, s2)
    | (Err e, s2) => (Err e, s2)
    end.
Proof.
  intros Hpre. unfold getAmortizedLeakage.
  rewrite (py_bind_run _ _ _ _ _ Hpre).
  unfold py_bind. rewrite trial_loop_samples
    by (unfold torch_zeros; rewrite length_replicate; lia).
  destruct (leak_samples B feat d p normalized n 0 s1) as [[vs|e] s2] eqn:Hs; [|done].
  unfold lift_result. do 2 f_equal.
  apply leak_samples_length in Hs.
  rewrite take_0. simpl.
  rewrite drop_ge by (unfold torch_zeros; rewrite length_replicate; lia).
  apply app_nil_r.
Qed.

End Trials.

(** * The claims *)

Section LeakageCalculator.
Context {R : Type} `{Arith R} (B : Backend R).
Implicit Types s : State B.

(** C1. One call of [calcLeak]: with [lambda_D] the score of attacker D
    after training on the reference data and [lambda_M] the score of
    attacker M after training on the generated data, the call returns
    [lambda_M - lambda_D], divided by [lambda_M + lambda_D] when
    [normalized] is set.  The division is the tensor division, so the
    equation holds whatever the denominator is. *)
Theorem C1_calcLeak_amplification
    (feat : list (list R)) (data pred : list (list Z)) (normalized : bool)
    s0 s1 s2 s3 s4 (d m : loc) (lambda_D lambda_M : R) :
  train B data feat "D" s0 = (Ok tt, s1) ->
  attacker_D s1 = Some d ->
  calcLambda B d data feat s1 = (Ok lambda_D, s2) ->
  train B pred feat "M" s2 = (Ok tt, s3) ->
  attacker_M s3 = Some m ->
  calcLambda B m pred feat s3 = (Ok lambda_M, s4) ->
  calcLeak B feat data pred normalized s0 =
    (Ok (if normalized
         then fdiv (fsub lambda_M lambda_D) (fadd lambda_M lambda_D)
         else fsub lambda_M lambda_D),
     set_trace B (trace s4 ++ [PrintLambda lambda_D lambda_M]) s4).
Proof.
  intros HtD HD HlD HtM HM HlM. unfold calcLeak.
  rewrite (py_bind_run _ _ _ _ _ HtD).
  assert (HgD : getattr_attacker B "D" s1 = (Ok d, s1)).
  { unfold getattr_attacker. case_decide; [|done]. by rewrite HD. }
  rewrite (py_bind_run _ _ _ _ _ HgD), (py_bind_run _ _ _ _ _ HlD),
    (py_bind_run _ _ _ _ _ HtM).
  assert (HgM : getattr_attacker B "M" s3 = (Ok m, s3)).
  { unfold getattr_attacker. case_decide; [done|]. case_decide; [|done].
    by rewrite HM. }
  rewrite (py_bind_run _ _ _ _ _ HgM), (py_bind_run _ _ _ _ _ HlM).
  reflexivity.
Qed.

End LeakageCalculator.

Lemma C1_calcLeak_amplification_witness :
  train toy_backend toy_captions toy_feat "D" toy_s0 = (Ok tt, toy_s1) /\
  attacker_D toy_s1 = Some 1%positive /\
  calcLambda toy_backend 1%positive toy_captions toy_feat toy_s1
    = (Ok (fof_Z 1), toy_s2) /\
  train toy_backend toy_captions toy_feat "M" toy_s2 = (Ok tt, toy_s3) /\
  attacker_M toy_s3 = Some 4%positive /\
  calcLambda toy_backend 4%positive toy_captions toy_feat toy_s3
    = (Ok (fof_Z 5), toy_s4) /\
  calcLeak toy_backend toy_feat toy_captions toy_captions true toy_s0 =
    (Ok (fdiv (fsub (fof_Z 5) (fof_Z 1)) (fadd (fof_Z 5) (fof_Z 1))),
     set_trace toy_backend
       (trace toy_s4 ++ [PrintLambda (fof_Z 1) (fof_Z 5)]) toy_s4).
Proof.
  assert (H1 : train toy_backend toy_captions toy_feat "D" toy_s0 = (Ok tt, toy_s1))
    by (unfold toy_s1; apply run_eta; vm_compute; reflexivity).
  assert (H2 : attacker_D toy_s1 = Some 1%positive) by (vm_compute; reflexivity).
  assert (H3 : calcLambda toy_backend 1%positive toy_captions toy_feat toy_s1
               = (Ok (fof_Z 1), toy_s2))
    by (unfold toy_s2; apply run_eta; vm_compute; reflexivity).
  assert (H4 : train toy_backend toy_captions toy_feat "M" toy_s2 = (Ok tt, toy_s3))
    by (unfold toy_s3; apply run_eta; vm_compute; reflexivity).
  assert (H5 : attacker_M toy_s3 = Some 4%positive) by (vm_compute; reflexivity).
  assert (H6 : calcLambda toy_backend 4%positive toy_captions toy_feat toy_s3
               = (Ok (fof_Z 5), toy_s4))
    by (unfold toy_s4; apply run_eta; vm_compute; reflexivity).
  refine (conj H1 (conj H2 (conj H3 (conj H4 (conj H5 (conj H6 _)))))).
  exact (C1_calcLeak_amplification toy_backend toy_feat toy_captions toy_captions
           true toy_s0 toy_s1 toy_s2 toy_s3 toy_s4 1%positive 4%positive
           (fof_Z 1) (fof_Z 5) H1 H2 H3 H4 H5 H6).
Defined.

Section Amortization.
Context {R : Type} `{Arith R} (B : Backend R).
Implicit Types s : State B.

Lemma length_insert_sorted (a : R) l :
  length (insert_sorted a l) = S (length l).
Proof.
  induction l as [|b l IH]; simpl; [done|].
  destruct (fleb a b); simpl; by rewrite ?IH.
Qed.

Lemma length_sort_asc (l : list R) : length (sort_asc l) = length l.
Proof.
  induction l as [|a l IH]; simpl; [done|].
  unfold sort_asc in *. simpl. by rewrite length_insert_sorted, IH.
Qed.

Lemma find_nan_none (vs : list R) :
  Forall (fun v => fis_nan v = false) vs -> List.find fis_nan vs = None.
Proof.
  induction 1 as [|v vs Hv _ IH]; simpl; [done|]. by rewrite Hv.
Qed.

Lemma find_nan_some (vs : list R) :
  Exists (fun v => fis_nan v = true) vs ->
  exists x, List.find fis_nan vs = Some x /\ fis_nan x = true.
Proof.
  induction 1 as [v vs Hv|v vs _ IH]; simpl.
  - rewrite Hv. eauto.
  - destruct (fis_nan v) eqn:Hv; eauto.
Qed.

(** Without NaN, [torch.median] is the lower median. *)
Lemma torch_median_lower (vs : list R) :
  1 <= length vs -> Forall (fun v => fis_nan v = false) vs ->
  torch_median vs = lower_median vs.
Proof.
  intros Hn Hnan. unfold torch_median, lower_median.
  destruct vs as [|v0 vs]; [simpl in Hn; lia|].
  rewrite find_nan_none by done. apply nth_indep.
  rewrite length_sort_asc.
  apply Nat.Div0.div_lt_upper_bound. simpl. lia.
Qed.

Lemma lower_median_odd (vs : list R) :
  Nat.odd (length vs) = true -> lower_median vs = sample_median vs.
Proof.
  intros Hodd. unfold lower_median, sample_median. rewrite Hodd.
  apply Nat.odd_spec in Hodd as [k Hk]. rewrite Hk. f_equal.
  replace (2 * k + 1 - 1) with (k * 2) by lia.
  rewrite Nat.div_mul by lia.
  apply (Nat.div_unique _ 2 k 1); lia.
Qed.

(** C2 (as amended). With [vs] the leakage samples of the [n] trials:
    method "mean" returns the sample mean of [vs], its sample standard
    deviation (n-1 denominator) and the trial count; method "median" returns
    the same deviation and count with [torch.median] of [vs], which is the
    lower median (rank floor((n-1)/2)) when no sample is NaN, hence the
    sample median for an odd count, and is NaN as soon as a sample is. *)
Theorem C2_amortize_statistics
    (feat : list (list R)) (data pred : Captions B) (n : nat) (normalized : bool)
    s p d s1 (vs : list R) s2 :
  captionPreprocess B pred data s = (Ok (p, d), s1) ->
  leak_samples B feat d p normalized n 0 s1 = (Ok vs, s2) ->
  length vs = n /\
  getAmortizedLeakage B feat data pred n "mean" normalized s
    = (Ok (MeanResult (sample_mean vs) (sample_std vs) n), s2) /\
  (1 <= n -> Forall (fun v => fis_nan v = false) vs ->
   getAmortizedLeakage B feat data pred n "median" normalized s
     = (Ok (MedianResult (lower_median vs) (sample_std vs) n), s2) /\
   (Nat.odd n = true -> lower_median vs = sample_median vs)) /\
  (Exists (fun v => fis_nan v = true) vs ->
   exists md,
     getAmortizedLeakage B feat data pred n "median" normalized s
       = (Ok (MedianResult md (sample_std vs) n), s2) /\
     fis_nan md = true).
Proof.
  intros Hpre Hrun. pose proof (leak_samples_length _ _ _ _ _ _ _ _ _ _ Hrun) as Hlen.
  split; [done|].
  split; [|split].
  - rewrite (getAmortizedLeakage_samples _ _ _ _ _ _ _ _ _ _ _ Hpre), Hrun.
    reflexivity.
  - intros Hn Hnan. split.
    + rewrite (getAmortizedLeakage_samples _ _ _ _ _ _ _ _ _ _ _ Hpre), Hrun.
      unfold aggregate. case_decide; [done|]. case_decide; [|done].
      rewrite torch_median_lower by (done || lia). reflexivity.
    + intros Hodd. apply lower_median_odd. by rewrite Hlen.
  - intros Hex. destruct (find_nan_some vs Hex) as (x & Hfind & Hx).
    exists x. split; [|done].
    rewrite (getAmortizedLeakage_samples _ _ _ _ _ _ _ _ _ _ _ Hpre), Hrun.
    unfold aggregate. case_decide; [done|]. case_decide; [|done].
    unfold torch_median. destruct vs as [|v0 vs']; [by inversion Hex|].
    rewrite Hfind. reflexivity.
Qed.

(** C6. An aggregation method other than "mean" and "median" never yields
    a result; once the [n] trials have run to completion the call raises
    [ValueError], a configuration error, in the state those trials left,
    each of them having reported its value. *)
Theorem C6_unknown_method_fails_after_trials
    (feat : list (list R)) (data pred : Captions B) (n : nat) (method : string)
    (normalized : bool) s :
  method <> "mean" -> method <> "median" ->
  (forall res,
     fst (getAmortizedLeakage B feat data pred n method normalized s) <> Ok res) /\
  (forall p d s1 vs s2,
     captionPreprocess B pred data s = (Ok (p, d), s1) ->
     leak_samples B feat d p normalized n 0 s1 = (Ok vs, s2) ->
     getAmortizedLeakage B feat data pred n method normalized s
       = (Err (ValueError "Invalid Method given for Amortization."), s2) /\
     is_configuration_error
       (ValueError "Invalid Method given for Amortization.") = true /\
     length vs = n /\
     forall i, i < n ->
       exists v, vs !! i = Some v /\ PrintTrialVal i v ∈ trace s2).
Proof.
  intros Hmean Hmedian.
  assert (Hagg : forall vs, aggregate vs n method
                   = Err (ValueError "Invalid Method given for Amortization.")).
  { intros vs. unfold aggregate. by repeat case_decide. }
  split.
  - intros res.
    destruct (captionPreprocess_total B pred data s) as (p & d & s1 & Hpre).
    rewrite (getAmortizedLeakage_samples _ _ _ _ _ _ _ _ _ _ _ Hpre).
    destruct (leak_samples B feat d p normalized n 0 s1) as [[vs|e] s2]; simpl.
    + by rewrite Hagg.
    + done.
  - intros p d s1 vs s2 Hpre Hrun.
    split; [|split; [done|split]].
    + rewrite (getAmortizedLeakage_samples _ _ _ _ _ _ _ _ _ _ _ Hpre), Hrun.
      by rewrite Hagg.
    + eapply leak_samples_length, Hrun.
    + intros i Hi.
      destruct (leak_samples_reported _ _ _ _ _ _ _ _ _ _ Hrun i Hi)
        as (v & Hv & Hin).
      eauto.
Qed.

End Amortization.

(** C10. With a single trial, the standard deviation that
    [getAmortizedLeakage] returns is NaN, for method "mean" as for "median":
    the n-1 denominator is zero, and so is the sum of squared deviations of
    one single-precision value from itself. *)
Theorem C10_single_trial_std_nan (B : Backend binary32)
    (feat : list (list binary32)) (data pred : Captions B) (method : string)
    (normalized : bool) (s : State B) p d s1 (v : binary32) s2 :
  captionPreprocess B pred data s = (Ok (p, d), s1) ->
  leak_samples B feat d p normalized 1 0 s1 = (Ok [v], s2) ->
  valid_binary 24 128 v = true ->
  method = "mean" \/ method = "median" ->
  exists res,
    getAmortizedLeakage B feat data pred 1 method normalized s = (Ok res, s2) /\
    result_std res = S754_nan /\
    fis_nan (result_std res) = true /\
    result_num_trials res = 1.
Proof.
  intros Hpre Hrun Hvalid Hmethod.
  rewrite (getAmortizedLeakage_samples _ _ _ _ _ _ _ _ _ _ _ Hpre), Hrun.
  unfold aggregate. destruct Hmethod as [-> | ->].
  - case_decide; [|done]. eexists. split; [reflexivity|].
    cbn [result_std result_num_trials].
    rewrite torch_std_singleton by done. done.
  - case_decide; [done|]. case_decide; [|done].
    eexists. split; [reflexivity|]. cbn [result_std result_num_trials].
    rewrite torch_std_singleton by done. done.
Qed.

Section Training.
Context {R : Type} `{Arith R} (B : Backend R).
Implicit Types s : State B.

Lemma optimizer_step_trace l crit opt xb yb s r s' :
  optimizer_step B l crit opt xb yb s = (Ok r, s') ->
  trace s' = trace s ++ [OptimizerStep l xb yb].
Proof.
  unfold optimizer_step, py_bind, deref, with_rng, store, emit, modify, py_ret.
  destruct (heap s !! l) as [m|]; [|done].
  destruct (train_step B crit (net m) opt xb yb (rng s)) as [[[[n' o'] loss]|e] g];
    [|done].
  simpl. by intros [= _ <-].
Qed.

Lemma batch_loop_trace l crit x y bs n start opt rl s r s' :
  batch_loop B l crit x y bs n start opt rl s = (Ok r, s') ->
  trace s' = trace s ++ zip_with (OptimizerStep l)
                          (slices_from x bs n start) (slices_from y bs n start).
Proof.
  revert start opt rl s. induction n as [|n IH]; intros start opt rl s; simpl.
  - intros [= _ <-]. by rewrite app_nil_r.
  - intros Hrun. apply py_bind_ok in Hrun as (r1 & s1 & Hstep & Hrest).
    apply optimizer_step_trace in Hstep. apply IH in Hrest.
    by rewrite Hrest, Hstep, <- app_assoc.
Qed.

Lemma optimizer_step_batches_steps l (x : list (list Z)) (y : list (list R))
    bs n start :
  optimizer_step_batches
    (zip_with (OptimizerStep l) (slices_from x bs n start) (slices_from y bs n start))
  = slices_from x bs n start.
Proof.
  revert start. induction n as [|n IH]; intros start; simpl; [done|].
  unfold optimizer_step_batches in *. simpl. by rewrite IH.
Qed.

Lemma train_epoch_ok l crit batches epoch x y opt s x' y' opt' s' :
  train_epoch B l crit batches epoch x y opt s = (Ok (x', y', opt'), s') ->
  index_select x (fst (randperm B (length x) (rng s))) = Ok x' /\
  optimizer_step_batches (trace s')
    = optimizer_step_batches (trace s)
      ++ slices_from x' (Z.to_nat (batch_size s)) (Z.to_nat batches) 0.
Proof.
  unfold train_epoch. intros Hrun.
  apply py_bind_ok in Hrun as (perm & s1 & Hperm & Hrun).
  unfold with_rng in Hperm.
  destruct (randperm B (length x) (rng s)) as [p g] eqn:Hp.
  injection Hperm as <- <-.
  apply py_bind_ok in Hrun as (x1 & s2 & Hx & Hrun). injection Hx as Hx <-.
  apply py_bind_ok in Hrun as (y1 & s2 & Hy & Hrun). injection Hy as Hy <-.
  apply py_bind_ok in Hrun as (bs & s2 & Hbs & Hrun). injection Hbs as <- <-.
  apply py_bind_ok in Hrun as (r & s2 & Hloop & Hrun).
  apply batch_loop_trace in Hloop. simpl in Hloop.
  apply py_bind_ok in Hrun as ([] & s3 & Hprint & Hrun).
  injection Hrun as <- <- <- <-.
  split; [done|].
  assert (Hs3 : optimizer_step_batches (trace s3) = optimizer_step_batches (trace s2)).
  { repeat case_decide.
    - discriminate.
    - injection Hprint as <-. simpl. unfold optimizer_step_batches.
      rewrite omap_app. simpl. by rewrite app_nil_r.
    - by injection Hprint as <-. }
  rewrite Hs3, Hloop. unfold optimizer_step_batches at 1. rewrite omap_app.
  f_equal. apply optimizer_step_batches_steps.
Qed.

(** One training epoch over [N] samples with batch size [bs >= 1], given
    the batch count that [train] computed: the optimisation steps of the
    epoch take that many consecutive slices of the shuffled inputs. *)
Lemma train_epoch_batches
    (model : loc) (crit : Loss) (batches epoch : Z)
    (x : list (list Z)) (y : list (list R)) (opt : Opt B)
    s x' y' opt' s' :
  (forall n g, Permutation (fst (randperm B n g)) (seq 0 n)) ->
  (0 < batch_size s)%Z ->
  ceil_div (Z.of_nat (length x)) (batch_size s) = Ok batches ->
  train_epoch B model crit batches epoch x y opt s = (Ok (x', y', opt'), s') ->
  exists bl : list (list (list Z)),
    optimizer_step_batches (trace s') = optimizer_step_batches (trace s) ++ bl /\
    Z.of_nat (length bl) = batches /\
    (Z.of_nat (length x) <= Z.of_nat (length bl) * batch_size s
       < Z.of_nat (length x) + batch_size s)%Z /\
    concat bl = x' /\
    Permutation x' x /\
    (forall i b, bl !! i = Some b ->
       (0 < Z.of_nat (length b) <= batch_size s)%Z /\
       (S i < length bl -> Z.of_nat (length b) = batch_size s)) /\
    (length x = 1023 -> batch_size s = 1024%Z ->
       exists b, bl = [b] /\ length b = 1023).
Proof.
  intros Hrand Hbs Hceil Hrun.
  apply train_epoch_ok in Hrun as [Hsel Htrace].
  pose proof (ceil_div_bounds _ _ _ Hbs Hceil) as Hbounds.
  assert (Hperm : Permutation x' x).
  { eapply index_select_permutation; [apply Hrand|exact Hsel]. }
  pose proof (Permutation_length Hperm) as Hlen.
  assert (Hb0 : (0 <= batches)%Z) by nia.
  remember (Z.to_nat (batch_size s)) as bs eqn:Ebs.
  remember (Z.to_nat batches) as n eqn:En.
  assert (Hbs' : batch_size s = Z.of_nat bs) by lia.
  assert (Hn' : batches = Z.of_nat n) by lia.
  rewrite Hbs', Hn' in Hbounds. rewrite Hbs'.
  assert (HN : length x' <= n * bs) by nia.
  assert (HN' : n = 0 \/ (n - 1) * bs < length x').
  { destruct n as [|n']; [by left|right]. simpl. rewrite Nat.sub_0_r. nia. }
  exists (slices_from x' bs n 0).
  rewrite length_slices_from.
  split; [done|]. split; [lia|]. split; [lia|].
  split; [by apply concat_slices_cover|]. split; [done|]. split.
  - intros i b Hb.
    assert (Hi : i < n).
    { apply lookup_lt_Some in Hb. by rewrite length_slices_from in Hb. }
    rewrite lookup_slices_from in Hb by done. injection Hb as <-.
    rewrite length_py_slice_step. simpl.
    destruct HN' as [->|HN']; [lia|].
    assert (i * bs <= (n - 1) * bs) by (apply Nat.mul_le_mono_r; lia).
    split; [lia|]. intros Hlast.
    assert ((i + 1) * bs <= (n - 1) * bs) by (apply Nat.mul_le_mono_r; lia).
    lia.
  - intros Hx Hb. rewrite <- Hlen in Hx.
    assert (bs = 1024) as -> by lia.
    assert (n = 1) as -> by lia.
    cbn [slices_from]. eexists. split; [reflexivity|].
    rewrite length_py_slice_step. lia.
Qed.

Lemma optimizer_step_batches_app (t1 t2 : list (@Event R)) :
  optimizer_step_batches (t1 ++ t2)
    = optimizer_step_batches t1 ++ optimizer_step_batches t2.
Proof. unfold optimizer_step_batches. by rewrite omap_app. Qed.

(** [train] up to its epoch loop, when nothing fails before it. *)
Lemma train_run (x : list (list Z)) (y : list (list R)) mode s
    (v : nat) (n0 : Net B) (g : Rng B) crit batches :
  vocab_size s = Some v ->
  attacker_class s (<["vocab_size" := Z.of_nat v]> (attacker_params s)) (rng s)
    = (Ok n0, g) ->
  mode = "D" \/ mode = "M" ->
  loss_functions !! loss_function s = Some crit ->
  ceil_div (Z.of_nat (length x)) (batch_size s) = Ok batches ->
  exists s1 l,
    defineModel B s = (Ok tt, s1) /\
    getattr_attacker B mode s1 = (Ok l, s1) /\
    heap s1 !! l = Some (Build_Module B n0 true) /\
    trace s1 = trace s /\
    same_session B s s1 /\
    train B x y mode s =
      match epoch_loop B l crit batches (Z.to_nat (epochs s)) 1 x y
              (StepLR B (Adam B n0 (learning_rate s)) 10 (fdiv (fof_Z 1) (fof_Z 10)))
              (set_trace B (trace s1 ++ [PrintTrainingActivated mode])
                 (set_heap B (<[l := Build_Module B n0 true]> (heap s1)) s1)) with
      | (Ok _, s3) => (Ok tt, set_trace B (trace s3 ++ [PrintTrainingCompleted]) s3)
      | (Err e, s3) => (Err e, s3)
      end.
Proof.
  intros Hv Hc Hmode Hloss Hceil.
  destruct (defineModel_spec B s v n0 g Hv Hc)
    as (s1 & d & m & Hdef & HD & HM & Hdm & Hd & Hm & Hhd & Hhm & _ & Hses & Htr & _).
  pose proof Hses as [Hsame _].
  destruct Hsame as (_ & Hlr & Hls & Hep & Hbsz & _).
  assert (Hsel : exists l, getattr_attacker B mode s1 = (Ok l, s1) /\
                           heap s1 !! l = Some (Build_Module B n0 true)).
  { destruct Hmode as [-> | ->].
    - exists d. unfold getattr_attacker. case_decide; [|done]. by rewrite HD.
    - exists m. unfold getattr_attacker. case_decide; [done|].
      case_decide; [|done]. by rewrite HM. }
  destruct Hsel as (l & Hget & Hl).
  exists s1, l. split; [done|]. split; [done|]. split; [done|]. split; [done|].
  split; [by destruct Hses|].
  unfold train. rewrite (py_bind_run _ _ _ _ _ Hdef), (py_bind_run _ _ _ _ _ Hget).
  unfold set_training, py_bind, deref, store, modify, gets, raise, lift_result,
    emit, py_ret.
  rewrite Hl. simpl. rewrite Hls, Hloss. simpl.
  rewrite lookup_insert_eq. simpl. rewrite Hbsz, Hceil, Hlr, Hep. simpl.
  by destruct (epoch_loop B l crit batches _ 1 x y _ _) as [[[]|e] s3].
Qed.

(** The batches of the epochs of one run of the epoch loop, epoch by
    epoch. *)
Lemma epoch_loop_batches l crit batches n epoch x y opt s s' :
  (forall n g, Permutation (fst (randperm B n g)) (seq 0 n)) ->
  (0 < batch_size s)%Z ->
  ceil_div (Z.of_nat (length x)) (batch_size s) = Ok batches ->
  epoch_loop B l crit batches n epoch x y opt s = (Ok tt, s') ->
  exists bls : list (list (list (list Z))),
    optimizer_step_batches (trace s')
      = optimizer_step_batches (trace s) ++ concat bls /\
    length bls = n /\
    Forall (fun bl =>
              Z.of_nat (length bl) = batches /\
              Permutation (concat bl) x /\
              (forall i b, bl !! i = Some b ->
                 (0 < Z.of_nat (length b) <= batch_size s)%Z /\
                 (S i < length bl -> Z.of_nat (length b) = batch_size s))) bls.
Proof.
  intros Hrand. revert epoch x y opt s.
  induction n as [|n IH]; intros epoch x y opt s Hbs Hceil Hrun.
  - injection Hrun as <-. exists []. simpl. by rewrite app_nil_r.
  - cbn [epoch_loop] in Hrun.
    apply py_bind_ok in Hrun as ([[x1 y1] opt1] & s1 & Hep & Hrun).
    pose proof (preserves_train_epoch B _ _ _ _ _ _ _ _ _ _ Hep)
      as ((_ & _ & _ & _ & Hbs1 & _) & _).
    destruct (train_epoch_batches _ _ _ _ _ _ _ _ _ _ _ _ Hrand Hbs Hceil Hep)
      as (bl & Htr & Hcount & _ & Hconcat & Hperm & Hsizes & _).
    pose proof (Permutation_length Hperm) as Hlen.
    destruct (IH (epoch + 1)%Z x1 y1 opt1 s1) as (bls & Htrs & Hn & Hall);
      [by rewrite Hbs1|by rewrite Hbs1, Hlen|done|].
    exists (bl :: bls). split; [|split].
    + cbn [concat]. by rewrite Htrs, Htr, <- app_assoc.
    + simpl. by rewrite Hn.
    + constructor.
      * split; [done|]. split; [by rewrite Hconcat|done].
      * eapply Forall_impl; [exact Hall|].
        intros bl' (Hc' & Hp' & Hs'). split; [done|].
        split; [by etrans|]. by rewrite <- Hbs1.
Qed.

(** C3. A successful call of [train] on [N] samples with batch size
    [bs >= 1] runs [epochs] epochs, and the optimisation steps of every
    epoch take exactly [ceil(N / bs)] batches (the number [k] with
    [N <= k * bs < N + bs], computed by [train] itself): consecutive slices
    of the shuffled inputs which, put end to end, are a permutation of the
    inputs, so every sample is visited once per epoch; every slice is
    non-empty and at most [bs] long, and all but the last have length [bs].
    For N = 1023 and bs = 1024 every epoch has one batch, of 1023 samples.
    [torch.randperm] is assumed to return a permutation. *)
Theorem C3_train_batches
    (x : list (list Z)) (y : list (list R)) (mode : string)
    s (v : nat) (n0 : Net B) (g : Rng B) crit s' :
  (forall n g, Permutation (fst (randperm B n g)) (seq 0 n)) ->
  vocab_size s = Some v ->
  attacker_class s (<["vocab_size" := Z.of_nat v]> (attacker_params s)) (rng s)
    = (Ok n0, g) ->
  mode = "D" \/ mode = "M" ->
  loss_functions !! loss_function s = Some crit ->
  (0 < batch_size s)%Z ->
  train B x y mode s = (Ok tt, s') ->
  exists bls : list (list (list (list Z))),
    optimizer_step_batches (trace s')
      = optimizer_step_batches (trace s) ++ concat bls /\
    length bls = Z.to_nat (epochs s) /\
    Forall (fun bl =>
              (Z.of_nat (length x) <= Z.of_nat (length bl) * batch_size s
                 < Z.of_nat (length x) + batch_size s)%Z /\
              Permutation (concat bl) x /\
              (forall i b, bl !! i = Some b ->
                 (0 < Z.of_nat (length b) <= batch_size s)%Z /\
                 (S i < length bl -> Z.of_nat (length b) = batch_size s)) /\
              (length x = 1023 -> batch_size s = 1024%Z ->
                 exists b, bl = [b] /\ length b = 1023)) bls.
Proof.
  intros Hrand Hv Hc Hmode Hloss Hbs Hrun.
  assert (Hceil : exists batches,
            ceil_div (Z.of_nat (length x)) (batch_size s) = Ok batches).
  { unfold ceil_div. case_decide; [lia|]. by eexists. }
  destruct Hceil as [batches Hceil].
  pose proof (ceil_div_bounds _ _ _ Hbs Hceil) as Hbounds.
  destruct (train_run x y mode s v n0 g crit batches Hv Hc Hmode Hloss Hceil)
    as (s1 & l & _ & _ & _ & Htr1 & Hsame & Heq).
  rewrite Heq in Hrun.
  destruct (epoch_loop B l crit batches _ 1 x y _ _) as [[[]|e] s3] eqn:Hloop;
    [|done].
  injection Hrun as <-.
  destruct Hsame as (_ & _ & _ & _ & Hbs1 & _).
  apply epoch_loop_batches in Hloop as (bls & Htr & Hn & Hall);
    [|done|simpl; by rewrite Hbs1|simpl; by rewrite Hbs1].
  simpl in Htr, Hall. rewrite Hbs1 in Hall.
  exists bls. split; [|split; [done|]].
  - simpl. rewrite !optimizer_step_batches_app in *. simpl in *.
    rewrite !app_nil_r in *. by rewrite Htr, Htr1.
  - eapply Forall_impl; [exact Hall|].
    intros bl (Hcount & Hperm & Hsizes).
    split; [by rewrite Hcount|]. split; [done|]. split; [done|].
    intros HN Hb. rewrite HN, Hb in Hbounds.
    assert (batches = 1%Z) as -> by lia.
    destruct bl as [|b [|b' bl]]; simpl in Hcount; try lia.
    exists b. split; [done|].
    apply Permutation_length in Hperm. simpl in Hperm.
    rewrite length_app in Hperm. simpl in Hperm. lia.
Qed.

(** The state that [train] leaves, relative to the pair that its call of
    [defineModel] created. *)
Lemma train_after_define x y mode s v n0 g r s' :
  vocab_size s = Some v ->
  attacker_class s (<["vocab_size" := Z.of_nat v]> (attacker_params s)) (rng s)
    = (Ok n0, g) ->
  train B x y mode s = (r, s') ->
  exists s1 d m,
    defineModel B s = (Ok tt, s1) /\ trace s1 = trace s /\
    trace_extends B s1 s' /\
    attacker_D s1 = Some d /\ attacker_M s1 = Some m /\
    attacker_D s' = Some d /\ attacker_M s' = Some m /\
    d <> m /\ (d ∉ dom (heap s)) /\ (m ∉ dom (heap s)) /\
    heap s1 !! d = Some (Build_Module B n0 true) /\
    heap s1 !! m = Some (Build_Module B n0 true) /\
    (mode = "D" -> heap s' !! m = Some (Build_Module B n0 true)) /\
    (mode = "M" -> heap s' !! d = Some (Build_Module B n0 true)) /\
    vocab_size s' = Some v /\
    attacker_params s1 = <["vocab_size" := Z.of_nat v]> (attacker_params s).
Proof.
  intros Hv Hc Hrun.
  destruct (defineModel_spec B s v n0 g Hv Hc)
    as (s1 & d & m & Hdef & HD & HM & Hdm & Hd & Hm & Hhd & Hhm & _ & Hses & Htr
        & _ & Hkw).
  exists s1, d, m.
  destruct Hses as [(_ & _ & _ & _ & _ & _ & _ & Hvoc) _].
  destruct (train_frame B _ _ _ _ _ _ _ Hdef Hrun)
    as [(l & Hget & (Hses' & [HD' HM'] & Hframe & Hext))|[-> _]].
  - destruct Hses' as (_ & _ & _ & _ & _ & _ & _ & Hvoc').
    repeat (split; [first [done|congruence]|]).
    split.
    { intros ->. unfold getattr_attacker in Hget. case_decide; [|done].
      rewrite HD in Hget. injection Hget as <-.
      rewrite Hframe by done. done. }
    split.
    { intros ->. unfold getattr_attacker in Hget. case_decide; [done|].
      case_decide; [|done]. rewrite HM in Hget. injection Hget as <-.
      rewrite Hframe by done. done. }
    split; [congruence|done].
  - repeat (split; [first [done|congruence|by exists []; rewrite app_nil_r]|]).
    done.
Qed.

(** C4. Whatever the mode (and even when the call later raises), [train]
    starts by replacing both attackers: once it returns, [attacker_D] and
    [attacker_M] refer to two distinct objects that did not exist before the
    call, both created by [defineModel] with the parameters that the
    attacker class built from the preprocessed vocabulary size, which the
    call leaves unchanged, as does every run of trials; the attacker not
    selected by the mode still has exactly these parameters. *)
Theorem C4_train_replaces_both_attackers
    (x : list (list Z)) (y : list (list R)) (mode : string)
    s (v : nat) (n0 : Net B) (g : Rng B) r s' :
  vocab_size s = Some v ->
  attacker_class s (<["vocab_size" := Z.of_nat v]> (attacker_params s)) (rng s)
    = (Ok n0, g) ->
  train B x y mode s = (r, s') ->
  exists s1 d m,
    defineModel B s = (Ok tt, s1) /\ trace s1 = trace s /\
    trace_extends B s1 s' /\
    attacker_D s' = Some d /\ attacker_M s' = Some m /\
    d <> m /\ (d ∉ dom (heap s)) /\ (m ∉ dom (heap s)) /\
    heap s1 !! d = Some (Build_Module B n0 true) /\
    heap s1 !! m = Some (Build_Module B n0 true) /\
    (mode = "D" -> heap s' !! m = Some (Build_Module B n0 true)) /\
    (mode = "M" -> heap s' !! d = Some (Build_Module B n0 true)) /\
    vocab_size s' = Some v /\
    attacker_params s1 = <["vocab_size" := Z.of_nat v]> (attacker_params s) /\
    (forall feat data pred normalized n i r2 s2,
       leak_samples B feat data pred normalized n i s = (r2, s2) ->
       vocab_size s2 = Some v).
Proof.
  intros Hv Hc Hrun.
  destruct (train_after_define _ _ _ _ _ _ _ _ _ Hv Hc Hrun)
    as (s1 & d & m & ? & ? & ? & ? & ? & ? & ? & ? & ? & ? & ? & ? & ? & ? & ? & ?).
  exists s1, d, m. repeat (split; [done|]).
  intros feat data pred normalized n i r2 s2 Htrials.
  destruct (preserves_leak_samples B _ _ _ _ _ _ _ _ _ Htrials)
    as [(_ & _ & _ & _ & _ & _ & _ & Hvoc) _].
  congruence.
Qed.

(** C5 (as amended). [defineModel] produces M as a deep copy of the freshly
    constructed D: the two objects hold the same architecture and the same
    initial parameter values, in separate storage.  An optimisation step on
    either one leaves the other unchanged, and so does a whole training
    phase. *)
Theorem C5_attacker_M_is_deep_copy s (v : nat) (n0 : Net B) (g : Rng B) :
  vocab_size s = Some v ->
  attacker_class s (<["vocab_size" := Z.of_nat v]> (attacker_params s)) (rng s)
    = (Ok n0, g) ->
  exists s1 d m,
    defineModel B s = (Ok tt, s1) /\
    attacker_D s1 = Some d /\ attacker_M s1 = Some m /\
    heap s1 !! d = Some (Build_Module B n0 true) /\
    heap s1 !! m = heap s1 !! d /\
    d <> m /\
    (forall crit opt xb yb,
       heap (snd (optimizer_step B m crit opt xb yb s1)) !! d = heap s1 !! d) /\
    (forall crit opt xb yb,
       heap (snd (optimizer_step B d crit opt xb yb s1)) !! m = heap s1 !! m) /\
    (forall x y r s', train B x y "M" s = (r, s') ->
       heap s' !! d = Some (Build_Module B n0 true)) /\
    (forall x y r s', train B x y "D" s = (r, s') ->
       heap s' !! m = Some (Build_Module B n0 true)).
Proof.
  intros Hv Hc.
  destruct (defineModel_spec B s v n0 g Hv Hc)
    as (s1 & d & m & Hdef & HD & HM & Hdm & Hd & Hm & Hhd & Hhm & _).
  exists s1, d, m.
  repeat (split; [first [done|congruence]|]).
  assert (Hstep : forall l l' crit opt xb yb, l' <> l ->
            heap (snd (optimizer_step B l crit opt xb yb s1)) !! l' = heap s1 !! l').
  { intros l l' crit opt xb yb Hne.
    destruct (optimizer_step B l crit opt xb yb s1) as [r1 s2] eqn:Hrun.
    destruct (preserves_optimizer_step B _ _ _ _ _ _ _ _ Hrun) as (_ & _ & Hfr & _).
    by apply Hfr. }
  split; [intros; by apply Hstep|]. split; [intros; by apply Hstep|].
  split.
  - intros x y r s' Hrun.
    destruct (train_after_define _ _ _ _ _ _ _ _ _ Hv Hc Hrun)
      as (s1' & d' & m' & Hdef' & _ & _ & HD' & HM' & _ & _ & _ & _ & _ & _ & _
          & _ & HmodeM & _).
    rewrite Hdef in Hdef'. injection Hdef' as <-.
    rewrite HD in HD'. injection HD' as <-. by apply HmodeM.
  - intros x y r s' Hrun.
    destruct (train_after_define _ _ _ _ _ _ _ _ _ Hv Hc Hrun)
      as (s1' & d' & m' & Hdef' & _ & _ & HD' & HM' & _ & _ & _ & _ & _ & _ & _
          & HmodeD & _).
    rewrite Hdef in Hdef'. injection Hdef' as <-.
    rewrite HM in HM'. injection HM' as <-. by apply HmodeD.
Qed.

End Training.

Section Construction.
Context {R : Type} `{Arith R} (B : Backend R).
Implicit Types s : State B.

(** C7. The metric argument is checked by the constructor itself: an
    unrecognised string or an object that is neither callable nor a string
    makes the construction fail with [ValueError], so that no object exists
    on which a later call could fail; a callable or one of "accuracy", "mse",
    "bce" is installed as [eval_metric] (the construction then succeeds as
    soon as the caption processor can be built). *)
Theorem C7_metric_validated_at_construction
    (model_class : gmap string Z -> Rng B -> Result (Net B) * Rng B)
    (model_init_params : gmap string Z) (lr : R) (loss : string)
    (n_epochs bsize : Z) (gender_words obj_words : list string)
    (gender_token obj_token : string) (thresh : bool)
    (glove_path : option string) (dev : string) (w : Interp B) :
  let construct metric :=
    LIC_init B model_class model_init_params lr loss n_epochs bsize
             gender_words obj_words gender_token obj_token metric thresh
             glove_path dev w in
  (forall name, name <> "accuracy" -> name <> "mse" -> name <> "bce" ->
     construct (MetricStr name)
       = Err (ValueError ("Metric " +:+ name +:+ " not available.")) /\
     is_configuration_error
       (ValueError ("Metric " +:+ name +:+ " not available.")) = true) /\
  (construct MetricOther = Err (ValueError "Invalid Metric Given.") /\
   is_configuration_error (ValueError "Invalid Metric Given.") = true) /\
  (forall cp,
     CaptionProcessor B gender_words obj_words gender_token obj_token glove_path
       = Ok cp ->
     (forall f, exists st,
        construct (MetricCallable f) = Ok st /\ eval_metric st = f) /\
     (exists st, construct (MetricStr "accuracy") = Ok st /\
                 eval_metric st = accuracy_metric) /\
     (exists st, construct (MetricStr "mse") = Ok st /\
                 eval_metric st = mse_metric) /\
     (exists st, construct (MetricStr "bce") = Ok st /\
                 eval_metric st = ModifiedBCELoss B)).
Proof.
  intros construct. subst construct. split; [|split].
  - intros name H1 H2 H3. split; [|done].
    unfold LIC_init, initEvalMetric, eval_functions.
    rewrite !lookup_insert_ne by done. by rewrite lookup_empty.
  - done.
  - intros cp Hcp. unfold LIC_init. split; [|split; [|split]].
    + intros f. simpl. rewrite Hcp. eauto.
    + unfold initEvalMetric, eval_functions. rewrite lookup_insert_eq.
      rewrite Hcp. eauto.
    + unfold initEvalMetric, eval_functions.
      rewrite lookup_insert_ne by done. rewrite lookup_insert_eq.
      rewrite Hcp. eauto.
    + unfold initEvalMetric, eval_functions.
      rewrite !lookup_insert_ne by done. rewrite lookup_insert_eq.
      rewrite Hcp. eauto.
Qed.

(** C8. A loss identifier outside [loss_functions] does not make the
    construction fail: the constructor never looks it up.  The first call of
    [train] raises the [KeyError] of the failed lookup, a configuration
    error, after [defineModel] and [model.train()] and before any batch: the
    call prints nothing, performs no optimisation step, and leaves the
    selected attacker with the parameters it was constructed with. *)
Theorem C8_unknown_loss_fails_lazily (loss : string) :
  loss_functions !! loss = None ->
  (forall model_class model_init_params lr n_epochs bsize gender_words obj_words
          gender_token obj_token metric thresh glove_path dev (w : Interp B) f cp,
     initEvalMetric B metric = Ok f ->
     CaptionProcessor B gender_words obj_words gender_token obj_token glove_path
       = Ok cp ->
     exists st,
       LIC_init B model_class model_init_params lr loss n_epochs bsize
                gender_words obj_words gender_token obj_token metric thresh
                glove_path dev w = Ok st /\
       loss_function st = loss) /\
  (forall s (x : list (list Z)) (y : list (list R)) (mode : string)
          (v : nat) (n0 : Net B) (g : Rng B),
     loss_function s = loss ->
     vocab_size s = Some v ->
     attacker_class s (<["vocab_size" := Z.of_nat v]> (attacker_params s)) (rng s)
       = (Ok n0, g) ->
     mode = "D" \/ mode = "M" ->
     exists s' l,
       train B x y mode s = (Err (KeyError loss), s') /\
       is_configuration_error (KeyError loss) = true /\
       getattr_attacker B mode s' = (Ok l, s') /\
       heap s' !! l = Some (Build_Module B n0 true) /\
       trace s' = trace s /\
       optimizer_step_batches (trace s') = optimizer_step_batches (trace s)).
Proof.
  intros Hloss. split.
  - intros model_class model_init_params lr n_epochs bsize gender_words obj_words
      gender_token obj_token metric thresh glove_path dev w f cp Hf Hcp.
    unfold LIC_init. rewrite Hf, Hcp. eauto.
  - intros s x y mode v n0 g Hname Hv Hc Hmode.
    destruct (defineModel_spec B s v n0 g Hv Hc)
      as (s1 & d & m & Hdef & HD & HM & Hdm & Hd & Hm & Hhd & Hhm & _ & Hses & Htr & _).
    destruct Hses as [(_ & _ & Hls & _) _].
    assert (Hsel : exists l, getattr_attacker B mode s1 = (Ok l, s1) /\
                             heap s1 !! l = Some (Build_Module B n0 true) /\
                             forall s2, attacker_D s2 = attacker_D s1 ->
                                        attacker_M s2 = attacker_M s1 ->
                                        getattr_attacker B mode s2 = (Ok l, s2)).
    { destruct Hmode as [-> | ->].
      - exists d. unfold getattr_attacker. case_decide; [|done].
        rewrite HD. repeat split; [done|]. intros s2 E _. by rewrite E.
      - exists m. unfold getattr_attacker. case_decide; [done|].
        case_decide; [|done]. rewrite HM. repeat split; [done|].
        intros s2 _ E. by rewrite E. }
    destruct Hsel as (l & Hget & Hl & Hget').
    exists (set_heap B (<[l := Build_Module B n0 true]> (heap s1)) s1), l.
    split.
    { unfold train. rewrite (py_bind_run _ _ _ _ _ Hdef), (py_bind_run _ _ _ _ _ Hget).
      unfold set_training, py_bind, deref, store, modify, gets, raise.
      rewrite Hl. simpl. rewrite Hls, Hname, Hloss. reflexivity. }
    split; [done|]. split; [by apply Hget'|].
    split; [apply lookup_insert_eq|]. simpl. by rewrite Htr.
Qed.

End Construction.

Section Evaluation.
Context {R : Type} `{Arith R} (B : Backend R).
Implicit Types s t : State B.

Lemma eval_loop_heap l x bs n start yp s :
  heap (snd (eval_loop B l x bs n start yp s)) = heap s.
Proof.
  revert start yp s. induction n as [|n IH]; intros start yp s; [done|].
  cbn [eval_loop]. unfold py_bind, deref, with_rng, emit, modify, lift_result.
  destruct (heap s !! l) as [m|]; [|done].
  destruct (forward B (net m) (training m) _ (rng s)) as [[out|e] g]; [|done].
  simpl. destruct (slice_assign yp start (start + bs) out) as [yp'|e]; [|done].
  by rewrite IH.
Qed.

(** In evaluation mode the loop is a function of the parameters. *)
Lemma eval_loop_deterministic l (x : list (list Z)) bs n :
  (forall nt xb g g',
     fst (forward B nt false xb g) = fst (forward B nt false xb g')) ->
  forall start yp s t ms mt,
    heap s !! l = Some ms -> heap t !! l = Some mt ->
    net ms = net mt -> training ms = false -> training mt = false ->
    exists evs,
      fst (eval_loop B l x bs n start yp s) = fst (eval_loop B l x bs n start yp t) /\
      trace (snd (eval_loop B l x bs n start yp s)) = trace s ++ evs /\
      trace (snd (eval_loop B l x bs n start yp t)) = trace t ++ evs /\
      forward_batches evs `prefix_of` slices_from x bs n start /\
      (forall v, fst (eval_loop B l x bs n start yp s) = Ok v ->
                 forward_batches evs = slices_from x bs n start).
Proof.
  intros Hdet. induction n as [|n IH]; intros start yp s t ms mt Hs Ht Hnet Hms Hmt.
  - exists []. simpl. rewrite !app_nil_r. repeat split; done.
  - cbn [eval_loop slices_from].
    unfold py_bind, deref, with_rng, emit, modify, lift_result.
    rewrite Hs, Ht, Hms, Hmt, Hnet.
    pose proof (Hdet (net mt) (py_slice x start (start + bs)) (rng s) (rng t)) as Hfw.
    destruct (forward B (net mt) false _ (rng s)) as [rs gs].
    destruct (forward B (net mt) false _ (rng t)) as [rt gt].
    simpl in Hfw. subst rt.
    destruct rs as [out|e].
    + simpl. destruct (slice_assign yp start (start + bs) out) as [yp'|e].
      * destruct (IH (start + bs) yp'
                    (set_trace B (trace s ++ [ForwardPass l (py_slice x start (start + bs))])
                       (set_rng B gs s))
                    (set_trace B (trace t ++ [ForwardPass l (py_slice x start (start + bs))])
                       (set_rng B gt t))
                    ms mt Hs Ht Hnet Hms Hmt)
          as (evs & Hres & Htrs & Htrt & Hpre & Hfull).
        exists (ForwardPass l (py_slice x start (start + bs)) :: evs).
        simpl in Htrs, Htrt.
        split; [done|]. split; [by rewrite Htrs, <- app_assoc|].
        split; [by rewrite Htrt, <- app_assoc|].
        split; [by apply prefix_cons|].
        intros v Hv. change (forward_batches (ForwardPass l ?b :: evs))
          with (b :: forward_batches evs). f_equal. by eapply Hfull.
      * exists [ForwardPass l (py_slice x start (start + bs))]. simpl.
        repeat split; try done.
        change (forward_batches [ForwardPass l ?b]) with [b].
        apply prefix_cons, prefix_nil.
    + exists []. simpl. rewrite !app_nil_r. repeat split; try done.
      apply prefix_nil.
Qed.

Lemma calcLambda_run l x y s ms batches :
  heap s !! l = Some ms ->
  ceil_div (Z.of_nat (length x)) (batch_size s) = Ok batches ->
  calcLambda B l x y s =
    match eval_loop B l x (Z.to_nat (batch_size s)) (Z.to_nat batches) 0
            (zeros_like y)
            (set_heap B (<[l := Build_Module B (net ms) false]> (heap s)) s) with
    | (Ok yp, s2) =>
        (Ok (eval_metric s2 (if threshold s2 then threshold_tensor yp else yp) y), s2)
    | (Err e, s2) => (Err e, s2)
    end.
Proof.
  intros Hs Hceil.
  unfold calcLambda, set_training, py_bind, deref, store, modify, gets,
    lift_result, py_ret.
  rewrite Hs. simpl. rewrite Hceil.
  by destruct (eval_loop B l x _ _ 0 (zeros_like y) _) as [[yp|e] s2].
Qed.

Lemma calcLambda_dangling l x y s :
  heap s !! l = None ->
  calcLambda B l x y s = (Err (RuntimeError "invalid module reference"), s).
Proof.
  intros Hs. unfold calcLambda, set_training, py_bind, deref. by rewrite Hs.
Qed.

Lemma calcLambda_zero_division l x y s ms e :
  heap s !! l = Some ms ->
  ceil_div (Z.of_nat (length x)) (batch_size s) = Err e ->
  calcLambda B l x y s =
    (Err e, set_heap B (<[l := Build_Module B (net ms) false]> (heap s)) s).
Proof.
  intros Hs Hceil.
  unfold calcLambda, set_training, py_bind, deref, store, modify, gets, lift_result.
  rewrite Hs. simpl. by rewrite Hceil.
Qed.

Lemma concat_length_Forall2 {X Y} (P : list X -> list Y -> Prop)
    (ls : list (list X)) (ks : list (list Y)) :
  (forall a b, P a b -> length b = length a) ->
  Forall2 P ls ks -> length (concat ks) = length (concat ls).
Proof.
  intros HP. induction 1 as [|a b ls ks Hab _ IH]; simpl; [done|].
  rewrite !length_app, IH. f_equal. by apply HP.
Qed.

(** The loop writes the outputs of the successive batches one after the
    other, from offset [start] on. *)
Lemma broadcast_row_length {X} w (row row' : list X) :
  broadcast_row w row = Ok row' -> length row' = w.
Proof.
  unfold broadcast_row. case_decide; [by intros [= <-]|].
  destruct row as [|a [|]]; try done. intros [= <-]. apply length_replicate.
Qed.

Lemma broadcast_rows_length {X} w (rows rows' : list (list X)) :
  broadcast_rows w rows = Ok rows' -> length rows' = length rows.
Proof.
  revert rows'. induction rows as [|r rows IH]; intros rows'; simpl.
  - by intros [= <-].
  - destruct (broadcast_row w r), (broadcast_rows w rows); try done.
    intros [= <-]. simpl. f_equal. by apply IH.
Qed.

Lemma broadcast_rows_width {X} w (rows rows' : list (list X)) :
  broadcast_rows w rows = Ok rows' -> Forall (fun r => length r = w) rows'.
Proof.
  revert rows'. induction rows as [|r rows IH]; intros rows'; simpl.
  - intros [= <-]. constructor.
  - destruct (broadcast_row w r) eqn:Hr, (broadcast_rows w rows); try done.
    intros [= <-]. constructor; [by eapply broadcast_row_length|by apply IH].
Qed.

Lemma broadcast_to_length {X} w (rows rows' : list (list X)) :
  broadcast_to w rows = Ok rows' -> length rows' = length rows.
Proof.
  destruct w as [w|]; simpl; [apply broadcast_rows_length|by intros [= <-]].
Qed.

(** Rows that already have the width of the target are written as they
    are. *)
Lemma broadcast_to_same {X} w (rows : list (list X)) :
  Forall (fun r => Some (length r) = w) rows -> broadcast_to w rows = Ok rows.
Proof.
  destruct w as [w|]; simpl; [|done].
  induction 1 as [|r rows Hr _ IH]; simpl; [done|].
  rewrite IH. unfold broadcast_row. injection Hr as Hr. by case_decide.
Qed.

(** A slice assignment keeps the width of the buffer. *)
Lemma slice_assign_row_width {X} (buf : list (list X)) start stop src buf' :
  slice_assign buf start stop src = Ok buf' -> row_width buf' = row_width buf.
Proof.
  unfold slice_assign.
  destruct (broadcast_to (row_width buf) src) as [rows|e] eqn:Hb; [|done].
  destruct buf as [|r0 t0].
  - unfold py_slice. rewrite drop_nil, take_nil. simpl.
    rewrite take_nil, drop_nil, !app_nil_r.
    case_decide.
    + intros [= <-]. by destruct rows.
    + destruct rows as [|a [|]]; try done. by intros [= <-].
  - simpl in Hb. apply broadcast_rows_width in Hb.
    destruct start as [|start].
    + rewrite take_0. simpl.
      case_decide as Hk.
      * intros [= <-]. destruct rows as [|r' rows]; simpl.
        -- by rewrite <- Hk.
        -- inversion Hb; subst. by f_equal.
      * destruct rows as [|a [|]]; try done. intros [= <-].
        inversion Hb; subst.
        destruct (length (py_slice (r0 :: t0) 0 stop)); simpl; [done|].
        by f_equal.
    + case_decide.
      * by intros [= <-].
      * destruct rows as [|a [|]]; try done. by intros [= <-].
Qed.

(** With one output row per input row, the buffer is filled with the
    outputs of the batches in order, each brought to the width of the
    buffer. *)
Lemma eval_loop_buffer l (x : list (list Z)) bs n (ms : Module B) :
  (forall xb g out,
     fst (forward B (net ms) false xb g) = Ok out -> length out = length xb) ->
  training ms = false ->
  forall start (yp : list (list R)) s yp' s',
    heap s !! l = Some ms ->
    length yp = length x ->
    eval_loop B l x bs n start yp s = (Ok yp', s') ->
    exists outs bufs,
      Forall2 (fun xb out => exists g, fst (forward B (net ms) false xb g) = Ok out)
              (slices_from x bs n start) outs /\
      Forall2 (fun out buf => broadcast_to (row_width yp) out = Ok buf) outs bufs /\
      yp' = take start yp ++ concat bufs ++ drop (start + length (concat bufs)) yp.
Proof.
  intros Hshape Hms. induction n as [|n IH]; intros start yp s yp' s' Hs Hlen Hrun.
  - injection Hrun as <- _. exists [], []. split; [constructor|].
    split; [constructor|].
    simpl. by rewrite Nat.add_0_r, take_drop.
  - cbn [eval_loop slices_from] in *.
    apply py_bind_ok in Hrun as (m & s1 & Hderef & Hrun).
    unfold deref in Hderef. rewrite Hs in Hderef. injection Hderef as <- <-.
    apply py_bind_ok in Hrun as (out & s2 & Hfw & Hrun).
    unfold with_rng in Hfw. rewrite Hms in Hfw.
    destruct (forward B (net ms) false (py_slice x start (start + bs)) (rng s))
      as [r g] eqn:Hf.
    injection Hfw as -> <-.
    apply py_bind_ok in Hrun as ([] & s3 & Hemit & Hrun). injection Hemit as <-.
    apply py_bind_ok in Hrun as (yp1 & s4 & Hassign & Hrun).
    injection Hassign as Hassign <-.
    assert (Hout : length out = Nat.min bs (length x - start)).
    { rewrite <- length_py_slice_step. eapply (Hshape _ (rng s)). by rewrite Hf. }
    pose proof (slice_assign_row_width _ _ _ _ _ Hassign) as Hw.
    unfold slice_assign in Hassign.
    destruct (broadcast_to (row_width yp) out) as [rows|e] eqn:Hb; [|done].
    assert (Hrows : length rows = Nat.min bs (length x - start)).
    { apply broadcast_to_length in Hb. by rewrite Hb. }
    clear Hout.
    rewrite length_py_slice_step, Hlen in Hassign.
    case_decide; [|done]. injection Hassign as <-.
    eapply IH in Hrun as (outs & bufs & Hall & Hbc & Heq); [|exact Hs|];
      [|rewrite !length_app, length_take, length_drop; lia].
    rewrite Hw in Hbc.
    exists (out :: outs), (rows :: bufs). split.
    { constructor; [|done]. exists (rng s). by rewrite Hf. }
    split; [by constructor|].
    rewrite Heq. cbn [concat]. rewrite length_app.
    destruct (decide (start + bs <= length x)) as [Hfull|Hpart].
    + assert (Hk : Nat.min bs (length x - start) = bs) by lia.
      rewrite Hk in *.
      rewrite (app_assoc (take start yp) rows).
      rewrite take_app_length' by (rewrite length_app, length_take; lia).
      rewrite drop_app_ge by (rewrite length_app, length_take; lia).
      rewrite length_app, length_take, drop_drop, <- !app_assoc.
      do 3 f_equal. f_equal. lia.
    + rewrite take_ge by (rewrite !length_app, length_take, length_drop; lia).
      rewrite (drop_ge _ (start + bs + _))
        by (rewrite !length_app, length_take, length_drop; lia).
      rewrite (drop_ge yp (start + Nat.min _ _)) by lia.
      rewrite (drop_ge yp (start + (_ + _))) by lia.
      by rewrite !app_nil_r, <- !app_assoc.
Qed.

(** The call keeps the parameters of the model it evaluates. *)
Lemma calcLambda_net l x y s :
  net <$> heap (snd (calcLambda B l x y s)) !! l = net <$> heap s !! l.
Proof.
  destruct (heap s !! l) as [ms|] eqn:Hs.
  - destruct (ceil_div (Z.of_nat (length x)) (batch_size s)) as [batches|e] eqn:Hceil.
    + rewrite (calcLambda_run l x y s ms batches) by done.
      pose proof (eval_loop_heap l x (Z.to_nat (batch_size s)) (Z.to_nat batches) 0
                    (zeros_like y)
                    (set_heap B (<[l := Build_Module B (net ms) false]> (heap s)) s))
        as Hheap.
      destruct (eval_loop B l x _ _ 0 (zeros_like y) _) as [[yp|e] s2];
        simpl in *; by rewrite Hheap, lookup_insert_eq.
    + rewrite (calcLambda_zero_division l x y s ms e) by done.
      simpl. by rewrite lookup_insert_eq.
  - rewrite calcLambda_dangling by done. simpl. by rewrite Hs.
Qed.

Lemma calcLambda_two_states (l : loc) (x : list (list Z)) (y : list (list R)) s t :
  (forall nt xb g g',
     fst (forward B nt false xb g) = fst (forward B nt false xb g')) ->
  net <$> heap s !! l = net <$> heap t !! l ->
  batch_size s = batch_size t ->
  threshold s = threshold t ->
  eval_metric s = eval_metric t ->
  exists evs,
    fst (calcLambda B l x y s) = fst (calcLambda B l x y t) /\
    trace (snd (calcLambda B l x y s)) = trace s ++ evs /\
    trace (snd (calcLambda B l x y t)) = trace t ++ evs /\
    (forall batches,
       ceil_div (Z.of_nat (length x)) (batch_size s) = Ok batches ->
       forward_batches evs
         `prefix_of` slices_from x (Z.to_nat (batch_size s)) (Z.to_nat batches) 0) /\
    (forall batches v,
       ceil_div (Z.of_nat (length x)) (batch_size s) = Ok batches ->
       fst (calcLambda B l x y s) = Ok v ->
       forward_batches evs
         = slices_from x (Z.to_nat (batch_size s)) (Z.to_nat batches) 0).
Proof.
  intros Hdet Hnet Hbs Hth Hmetric.
  destruct (heap s !! l) as [ms|] eqn:Hs, (heap t !! l) as [mt|] eqn:Ht;
    simpl in Hnet; try discriminate.
  2:{ exists []. rewrite !calcLambda_dangling by done. simpl.
      rewrite !app_nil_r. repeat split; try done.
      intros; apply prefix_nil. }
  injection Hnet as Hnet.
  destruct (ceil_div (Z.of_nat (length x)) (batch_size s)) as [batches|e] eqn:Hceil.
  2:{ exists []. rewrite (calcLambda_zero_division l x y s ms e) by done.
      rewrite (calcLambda_zero_division l x y t mt e) by (done || by rewrite <- Hbs).
      simpl. rewrite !app_nil_r. repeat split; done. }
  rewrite (calcLambda_run l x y s ms batches) by done.
  rewrite (calcLambda_run l x y t mt batches) by (done || by rewrite <- Hbs).
  rewrite <- Hbs.
  destruct (eval_loop_deterministic l x (Z.to_nat (batch_size s))
              (Z.to_nat batches) Hdet 0 (zeros_like y)
              (set_heap B (<[l := Build_Module B (net ms) false]> (heap s)) s)
              (set_heap B (<[l := Build_Module B (net mt) false]> (heap t)) t)
              (Build_Module B (net ms) false) (Build_Module B (net mt) false))
    as (evs & Hres & Htrs & Htrt & Hpre & Hfull);
    [apply lookup_insert_eq|apply lookup_insert_eq|done|done|done|].
  pose proof (preserves_eval_loop B l x (Z.to_nat (batch_size s))
                (Z.to_nat batches) 0 (zeros_like y)
                (set_heap B (<[l := Build_Module B (net ms) false]> (heap s)) s))
    as Hps.
  pose proof (preserves_eval_loop B l x (Z.to_nat (batch_size s))
                (Z.to_nat batches) 0 (zeros_like y)
                (set_heap B (<[l := Build_Module B (net mt) false]> (heap t)) t))
    as Hpt.
  destruct (eval_loop B l x _ _ 0 (zeros_like y) (set_heap B _ s)) as [rs s2].
  destruct (eval_loop B l x _ _ 0 (zeros_like y) (set_heap B _ t)) as [rt t2].
  specialize (Hps _ _ eq_refl). specialize (Hpt _ _ eq_refl).
  destruct Hps as ((_ & _ & _ & _ & _ & Hth2 & Hm2 & _) & _).
  destruct Hpt as ((_ & _ & _ & _ & _ & Hth2' & Hm2' & _) & _).
  simpl in Hres, Htrs, Htrt, Hfull, Hth2, Hm2, Hth2', Hm2'.
  subst rt. exists evs.
  assert (Hsame : forall yp,
            eval_metric s2 (if threshold s2 then threshold_tensor yp else yp) y
            = eval_metric t2 (if threshold t2 then threshold_tensor yp else yp) y).
  { intros yp. by rewrite Hth2, Hth2', Hm2, Hm2', Hth, Hmetric. }
  split; [destruct rs; simpl; by rewrite ?Hsame|].
  split; [by destruct rs|]. split; [by destruct rs|].
  split; [intros b [= <-]; exact Hpre|].
  intros b v [= <-] Hv. destruct rs as [yp|e]; [|done]. by eapply Hfull.
Qed.

(** C9. [calcLambda] visits consecutive slices of the inputs, in order and
    without shuffling, and its outcome is determined by the parameters of
    the model, the configuration (batch size, threshold flag, metric) and the
    data: from two states that agree on these, the two calls make the same
    forward passes in the same order and return the same score; and a second
    call made right after a first one returns what the first returned.
    Forward passes in evaluation mode are assumed not to depend on the random
    generator.  When every batch yields one output row per input row, the
    buffer handed to the metric is the outputs of the batches in order,
    every row broadcast to the width of the labels (a row of that width is
    written as it is, a row of width one is repeated; with any other width
    the call does not return a score). *)
Theorem C9_evaluation_deterministic
    (l : loc) (x : list (list Z)) (y : list (list R)) s t :
  (forall nt xb g g',
     fst (forward B nt false xb g) = fst (forward B nt false xb g')) ->
  net <$> heap s !! l = net <$> heap t !! l ->
  batch_size s = batch_size t ->
  threshold s = threshold t ->
  eval_metric s = eval_metric t ->
  (exists evs,
     fst (calcLambda B l x y s) = fst (calcLambda B l x y t) /\
     trace (snd (calcLambda B l x y s)) = trace s ++ evs /\
     trace (snd (calcLambda B l x y t)) = trace t ++ evs /\
     (forall batches,
        ceil_div (Z.of_nat (length x)) (batch_size s) = Ok batches ->
        forward_batches evs
          `prefix_of` slices_from x (Z.to_nat (batch_size s)) (Z.to_nat batches) 0) /\
     (forall batches v,
        ceil_div (Z.of_nat (length x)) (batch_size s) = Ok batches ->
        fst (calcLambda B l x y s) = Ok v ->
        forward_batches evs
          = slices_from x (Z.to_nat (batch_size s)) (Z.to_nat batches) 0)) /\
  fst (calcLambda B l x y (snd (calcLambda B l x y s)))
    = fst (calcLambda B l x y s) /\
  (forall ms batches v,
     heap s !! l = Some ms ->
     (forall xb g out,
        fst (forward B (net ms) false xb g) = Ok out -> length out = length xb) ->
     length y = length x ->
     (0 < batch_size s)%Z ->
     ceil_div (Z.of_nat (length x)) (batch_size s) = Ok batches ->
     fst (calcLambda B l x y s) = Ok v ->
     exists outs bufs,
       Forall2 (fun xb out => exists g, fst (forward B (net ms) false xb g) = Ok out)
               (slices_from x (Z.to_nat (batch_size s)) (Z.to_nat batches) 0) outs /\
       Forall2 (fun out buf => broadcast_to (row_width y) out = Ok buf) outs bufs /\
       (Forall (Forall (fun row => Some (length row) = row_width y)) outs ->
        bufs = outs) /\
       v = eval_metric s
             (if threshold s then threshold_tensor (concat bufs) else concat bufs) y).
Proof.
  intros Hdet Hnet Hbs Hth Hmetric. split; [|split].
  - by apply calcLambda_two_states.
  - destruct (calcLambda B l x y s) as [r s'] eqn:Hrun.
    pose proof (calcLambda_net l x y s) as Hnet'. rewrite Hrun in Hnet'.
    destruct (preserves_calcLambda B l x y _ _ _ Hrun)
      as ((_ & _ & _ & _ & Hbs' & Hth' & Hm' & _) & _).
    simpl in *.
    destruct (calcLambda_two_states l x y s' s Hdet Hnet' Hbs' Hth' Hm')
      as (_ & Hres & _).
    rewrite Hres, Hrun. done.
  - intros ms batches v Hs Hshape Hlen Hpos Hceil Hv.
    rewrite (calcLambda_run l x y s ms batches Hs Hceil) in Hv.
    pose proof (preserves_eval_loop B l x (Z.to_nat (batch_size s))
                  (Z.to_nat batches) 0 (zeros_like y)
                  (set_heap B (<[l := Build_Module B (net ms) false]> (heap s)) s))
      as Hps.
    destruct (eval_loop B l x _ _ 0 (zeros_like y) _) as [[yp|e] s2] eqn:Hloop;
      [|done].
    destruct (Hps _ _ eq_refl) as ((_ & _ & _ & _ & _ & Hth2 & Hm2 & _) & _).
    simpl in Hv, Hth2, Hm2. injection Hv as <-.
    eapply (eval_loop_buffer l x _ _ (Build_Module B (net ms) false) Hshape eq_refl)
      in Hloop as (outs & bufs & Hall & Hbc & Heq);
      [|apply lookup_insert_eq|by unfold zeros_like; rewrite length_map].
    assert (Hwy : row_width (zeros_like y) = row_width y).
    { unfold zeros_like. destruct y as [|r0 y0]; simpl; [done|].
      by rewrite length_map. }
    rewrite Hwy in Hbc.
    exists outs, bufs. split; [done|]. split; [done|]. split.
    { clear Heq Hall. induction Hbc as [|out buf outs bufs Hb _ IH]; [done|].
      intros Hsame. inversion Hsame as [|? ? Hout Hrest]; subst.
      rewrite (broadcast_to_same _ _ Hout) in Hb. injection Hb as <-.
      f_equal. by apply IH. }
    pose proof (ceil_div_bounds _ _ _ Hpos Hceil) as Hbounds.
    assert (Hcover : length (concat bufs) = length x).
    { transitivity (length (concat outs)).
      { eapply concat_length_Forall2; [|exact Hbc].
        intros a b Hab. eapply broadcast_to_length, Hab. }
      transitivity (length (concat (slices_from x (Z.to_nat (batch_size s))
                                      (Z.to_nat batches) 0))).
      - eapply concat_length_Forall2; [|exact Hall].
        intros a b [g Hg]. eapply Hshape, Hg.
      - rewrite concat_slices_cover; [done|]. nia. }
    rewrite Heq, take_0, Hcover. simpl.
    rewrite drop_ge by (unfold zeros_like; rewrite length_map; lia).
    by rewrite app_nil_r, Hth2, Hm2.
Qed.

End Evaluation.

(** * The claims on the concrete instance *)

Lemma toy_randperm_permutation n g :
  Permutation (fst (randperm toy_backend n g)) (seq 0 n).
Proof. simpl. symmetry. apply Permutation_rev. Qed.

Lemma toy_forward_deterministic nt xb g g' :
  fst (forward toy_backend nt false xb g) = fst (forward toy_backend nt false xb g').
Proof. reflexivity. Qed.

Lemma toy_preprocess :
  captionPreprocess toy_backend toy_captions toy_captions (toy_new "bce" 1024)
    = (Ok (toy_captions, toy_captions), toy_s0).
Proof. unfold toy_s0, toy_session. apply run_eta. vm_compute. reflexivity. Qed.

Lemma toy_two_trials :
  leak_samples toy_backend toy_feat toy_captions toy_captions false 2 0 toy_s0
    = (Ok toy_samples, toy_after_trials).
Proof. unfold toy_after_trials. apply run_eta. vm_compute. reflexivity. Qed.

Lemma toy_one_trial :
  leak_samples toy_backend toy_feat toy_captions toy_captions false 1 0 toy_s0
    = (Ok [fof_Z 4], toy_after_trial).
Proof. unfold toy_after_trial. apply run_eta. vm_compute. reflexivity. Qed.

(** C2, as first stated, fails on two trials: the samples are 4 and 20,
    their sample median is 12, and method "median" returns 4. *)
Lemma C2_median_counterexample :
  leak_samples toy_backend toy_feat toy_captions toy_captions false 2 0 toy_s0
    = (Ok toy_samples, toy_after_trials) /\
  sample_median toy_samples = fof_Z 12 /\
  fst (getAmortizedLeakage toy_backend toy_feat toy_captions toy_captions
         2 "median" false (toy_new "bce" 1024))
    = Ok (MedianResult (fof_Z 4) (sample_std toy_samples) 2) /\
  fst (getAmortizedLeakage toy_backend toy_feat toy_captions toy_captions
         2 "median" false (toy_new "bce" 1024))
    <> Ok (MedianResult (sample_median toy_samples) (sample_std toy_samples) 2).
Proof.
  split; [exact toy_two_trials|].
  split; [vm_compute; reflexivity|].
  split; [vm_compute; reflexivity|].
  vm_compute. intros Heq. discriminate Heq.
Qed.

Lemma C2_amortize_statistics_witness :
  captionPreprocess toy_backend toy_captions toy_captions (toy_new "bce" 1024)
    = (Ok (toy_captions, toy_captions), toy_s0) /\
  leak_samples toy_backend toy_feat toy_captions toy_captions false 2 0 toy_s0
    = (Ok toy_samples, toy_after_trials) /\
  length toy_samples = 2 /\
  getAmortizedLeakage toy_backend toy_feat toy_captions toy_captions
      2 "mean" false (toy_new "bce" 1024)
    = (Ok (MeanResult (sample_mean toy_samples) (sample_std toy_samples) 2),
       toy_after_trials) /\
  getAmortizedLeakage toy_backend toy_feat toy_captions toy_captions
      2 "median" false (toy_new "bce" 1024)
    = (Ok (MedianResult (lower_median toy_samples) (sample_std toy_samples) 2),
       toy_after_trials).
Proof.
  destruct (C2_amortize_statistics toy_backend toy_feat toy_captions toy_captions
              2 false (toy_new "bce" 1024) toy_captions toy_captions toy_s0
              toy_samples toy_after_trials toy_preprocess toy_two_trials)
    as (Hlen & Hmean & Hmedian & _).
  refine (conj toy_preprocess (conj toy_two_trials (conj Hlen (conj Hmean _)))).
  apply Hmedian; [lia|]. repeat constructor.
Defined.

Lemma C3_train_batches_witness :
  vocab_size toy_two_epochs = Some 3 /\
  attacker_class toy_two_epochs
    (<["vocab_size" := Z.of_nat 3]> (attacker_params toy_two_epochs))
    (rng toy_two_epochs) = (Ok 0, 1) /\
  loss_functions !! loss_function toy_two_epochs = Some BCELoss /\
  (0 < batch_size toy_two_epochs)%Z /\
  train toy_backend toy_x3 toy_y3 "D" toy_two_epochs
    = (Ok tt, toy_two_epochs_trained) /\
  exists bls : list (list (list (list Z))),
    optimizer_step_batches (trace toy_two_epochs_trained)
      = optimizer_step_batches (trace toy_two_epochs) ++ concat bls /\
    length bls = 2 /\
    Forall (fun bl =>
              (Z.of_nat (length toy_x3) <= Z.of_nat (length bl) * 2
                 < Z.of_nat (length toy_x3) + 2)%Z /\
              Permutation (concat bl) toy_x3 /\
              (forall i b, bl !! i = Some b ->
                 (0 < Z.of_nat (length b) <= 2)%Z /\
                 (S i < length bl -> Z.of_nat (length b) = 2%Z))) bls.
Proof.
  assert (Hv : vocab_size toy_two_epochs = Some 3) by reflexivity.
  assert (Hc : attacker_class toy_two_epochs
                 (<["vocab_size" := Z.of_nat 3]> (attacker_params toy_two_epochs))
                 (rng toy_two_epochs) = (Ok 0, 1)) by reflexivity.
  assert (Hloss : loss_functions !! loss_function toy_two_epochs = Some BCELoss)
    by (vm_compute; reflexivity).
  assert (Hbs : (0 < batch_size toy_two_epochs)%Z) by (simpl; lia).
  assert (Hrun : train toy_backend toy_x3 toy_y3 "D" toy_two_epochs
                 = (Ok tt, toy_two_epochs_trained))
    by (unfold toy_two_epochs_trained; apply run_eta; vm_compute; reflexivity).
  refine (conj Hv (conj Hc (conj Hloss (conj Hbs (conj Hrun _))))).
  destruct (C3_train_batches toy_backend toy_x3 toy_y3 "D" toy_two_epochs 3 0 1
              BCELoss toy_two_epochs_trained toy_randperm_permutation Hv Hc
              (or_introl eq_refl) Hloss Hbs Hrun)
    as (bls & Htrace & Hlen & Hall).
  exists bls. refine (conj Htrace (conj Hlen _)).
  eapply Forall_impl; [exact Hall|].
  intros bl (Hcount & Hperm & Hsizes & _).
  exact (conj Hcount (conj Hperm Hsizes)).
Defined.

Lemma C4_train_replaces_both_attackers_witness :
  vocab_size toy_s0 = Some 1 /\
  attacker_class toy_s0 (<["vocab_size" := Z.of_nat 1]> (attacker_params toy_s0))
    (rng toy_s0) = (Ok 0, 1) /\
  train toy_backend toy_captions toy_feat "D" toy_s0 = (Ok tt, toy_s1) /\
  exists d m,
    attacker_D toy_s1 = Some d /\ attacker_M toy_s1 = Some m /\ d <> m /\
    (d ∉ dom (heap toy_s0)) /\ (m ∉ dom (heap toy_s0)) /\
    heap toy_s1 !! m = Some (Build_Module toy_backend 0 true) /\
    vocab_size toy_s1 = Some 1.
Proof.
  assert (Hv : vocab_size toy_s0 = Some 1) by (vm_compute; reflexivity).
  assert (Hc : attacker_class toy_s0
                 (<["vocab_size" := Z.of_nat 1]> (attacker_params toy_s0))
                 (rng toy_s0) = (Ok 0, 1)) by (vm_compute; reflexivity).
  assert (Hrun : train toy_backend toy_captions toy_feat "D" toy_s0 = (Ok tt, toy_s1))
    by (unfold toy_s1; apply run_eta; vm_compute; reflexivity).
  refine (conj Hv (conj Hc (conj Hrun _))).
  destruct (C4_train_replaces_both_attackers toy_backend toy_captions toy_feat "D"
              toy_s0 1 0 1 (Ok tt) toy_s1 Hv Hc Hrun)
    as (s1 & d & m & _ & _ & _ & HD & HM & Hdm & Hd & Hm & _ & _ & HmodeD & _
        & Hvoc & _ & _).
  exists d, m.
  exact (conj HD (conj HM (conj Hdm (conj Hd (conj Hm
           (conj (HmodeD eq_refl) Hvoc)))))).
Defined.

(** C5, as first stated, fails: the parameters of M are those of D (here
    0), not those of a second initialisation (here 1). *)
Lemma C5_independent_initialisation_counterexample :
  ~ independently_initialized toy_backend toy_s0
      (snd (defineModel toy_backend toy_s0)).
Proof.
  assert (Hv0 : vocab_size toy_s0 = Some 1) by (vm_compute; reflexivity).
  assert (Hc0 : attacker_class toy_s0
                  (<["vocab_size" := Z.of_nat 1]> (attacker_params toy_s0))
                  (rng toy_s0) = (Ok 0, 1)) by (vm_compute; reflexivity).
  assert (Hc1 : fst (attacker_class toy_s0
                       (<["vocab_size" := Z.of_nat 1]> (attacker_params toy_s0)) 1)
                = Ok 1) by (vm_compute; reflexivity).
  destruct (defineModel_spec toy_backend toy_s0 1 0 1 Hv0 Hc0)
    as (s1 & d' & m' & Hdef & HD' & HM' & _ & _ & _ & Hhd' & Hhm' & _).
  rewrite Hdef. simpl.
  intros (v & d & m & md & mm & g1 & Hv & HD & HM & Hhd & Hhm & Hi1 & Hi2).
  rewrite Hv0 in Hv. injection Hv as <-.
  rewrite HD' in HD. injection HD as <-.
  rewrite HM' in HM. injection HM as <-.
  rewrite Hhd' in Hhd. injection Hhd as <-.
  rewrite Hhm' in Hhm. injection Hhm as <-.
  rewrite Hc0 in Hi1. injection Hi1 as <-.
  rewrite Hc1 in Hi2. discriminate Hi2.
Qed.

Lemma C5_attacker_M_is_deep_copy_witness :
  vocab_size toy_s0 = Some 1 /\
  attacker_class toy_s0 (<["vocab_size" := Z.of_nat 1]> (attacker_params toy_s0))
    (rng toy_s0) = (Ok 0, 1) /\
  exists s1 d m,
    defineModel toy_backend toy_s0 = (Ok tt, s1) /\
    attacker_D s1 = Some d /\ attacker_M s1 = Some m /\
    heap s1 !! d = Some (Build_Module toy_backend 0 true) /\
    heap s1 !! m = heap s1 !! d /\
    d <> m.
Proof.
  assert (Hv : vocab_size toy_s0 = Some 1) by (vm_compute; reflexivity).
  assert (Hc : attacker_class toy_s0
                 (<["vocab_size" := Z.of_nat 1]> (attacker_params toy_s0))
                 (rng toy_s0) = (Ok 0, 1)) by (vm_compute; reflexivity).
  refine (conj Hv (conj Hc _)).
  destruct (C5_attacker_M_is_deep_copy toy_backend toy_s0 1 0 1 Hv Hc)
    as (s1 & d & m & Hdef & HD & HM & Hhd & Hhm & Hdm & _).
  exists s1, d, m.
  exact (conj Hdef (conj HD (conj HM (conj Hhd (conj Hhm Hdm))))).
Defined.

Lemma C6_unknown_method_fails_after_trials_witness :
  "mode" <> "mean" /\ "mode" <> "median" /\
  getAmortizedLeakage toy_backend toy_feat toy_captions toy_captions
      2 "mode" false (toy_new "bce" 1024)
    = (Err (ValueError "Invalid Method given for Amortization."),
       toy_after_trials) /\
  forall i, i < 2 ->
    exists v, toy_samples !! i = Some v /\
              PrintTrialVal i v ∈ trace toy_after_trials.
Proof.
  assert (H1 : "mode" <> "mean") by discriminate.
  assert (H2 : "mode" <> "median") by discriminate.
  refine (conj H1 (conj H2 _)).
  destruct (C6_unknown_method_fails_after_trials toy_backend toy_feat toy_captions
              toy_captions 2 "mode" false (toy_new "bce" 1024) H1 H2)
    as [_ Hafter].
  destruct (Hafter toy_captions toy_captions toy_s0 toy_samples toy_after_trials
              toy_preprocess toy_two_trials)
    as (Herr & _ & _ & Hreported).
  exact (conj Herr Hreported).
Defined.

Lemma C7_metric_validated_at_construction_witness :
  toy_construct "bce" 1024 (MetricStr "foo")
    = Err (ValueError "Metric foo not available.") /\
  toy_construct "bce" 1024 MetricOther = Err (ValueError "Invalid Metric Given.") /\
  CaptionProcessor toy_backend ["he"] ["cat"] "<unk>" "<obj>" None = Ok tt /\
  exists st, toy_construct "bce" 1024 (MetricStr "accuracy") = Ok st /\
             eval_metric st = accuracy_metric.
Proof.
  destruct (C7_metric_validated_at_construction toy_backend toy_class ∅ (fof_Z 1)
              "bce" 1 1024 ["he"] ["cat"] "<unk>" "<obj>" false None "cpu"
              toy_interp)
    as (Hunknown & [Hother _] & Hknown).
  destruct (Hunknown "foo" ltac:(discriminate) ltac:(discriminate)
              ltac:(discriminate)) as [Hfoo _].
  assert (Hcp : CaptionProcessor toy_backend ["he"] ["cat"] "<unk>" "<obj>" None
                = Ok tt) by reflexivity.
  destruct (Hknown tt Hcp) as (_ & Hacc & _).
  exact (conj Hfoo (conj Hother (conj Hcp Hacc))).
Defined.

Lemma C8_unknown_loss_fails_lazily_witness :
  loss_functions !! "hinge" = None /\
  (exists st, toy_construct "hinge" 1024 (MetricCallable first_output) = Ok st /\
              loss_function st = "hinge") /\
  exists s' l,
    train toy_backend toy_captions toy_feat "D" toy_hinge
      = (Err (KeyError "hinge"), s') /\
    heap s' !! l = Some (Build_Module toy_backend 0 true) /\
    trace s' = trace toy_hinge /\
    optimizer_step_batches (trace s') = optimizer_step_batches (trace toy_hinge).
Proof.
  assert (Hloss : loss_functions !! "hinge" = None) by (vm_compute; reflexivity).
  refine (conj Hloss _).
  destruct (C8_unknown_loss_fails_lazily toy_backend "hinge" Hloss)
    as [Hinit Htrain].
  split.
  - exact (Hinit toy_class ∅ (fof_Z 1) 1%Z 1024%Z ["he"] ["cat"] "<unk>" "<obj>"
             (MetricCallable first_output) false None "cpu" toy_interp
             first_output tt eq_refl eq_refl).
  - destruct (Htrain toy_hinge toy_captions toy_feat "D" 1 0 1
                ltac:(vm_compute; reflexivity) ltac:(vm_compute; reflexivity)
                ltac:(vm_compute; reflexivity) (or_introl eq_refl))
      as (s' & l & Hrun & _ & _ & Hl & Htr & Hsteps).
    exists s', l. exact (conj Hrun (conj Hl (conj Htr Hsteps))).
Defined.

Lemma C9_evaluation_deterministic_witness :
  net <$> heap toy_e0 !! 1%positive = net <$> heap toy_e1 !! 1%positive /\
  batch_size toy_e0 = batch_size toy_e1 /\
  threshold toy_e0 = threshold toy_e1 /\
  eval_metric toy_e0 = eval_metric toy_e1 /\
  length toy_y3w = length toy_x3 /\
  (0 < batch_size toy_e0)%Z /\
  ceil_div (Z.of_nat (length toy_x3)) (batch_size toy_e0) = Ok 2%Z /\
  fst (calcLambda toy_backend 1%positive toy_x3 toy_y3w toy_e0) = Ok (fof_Z 1) /\
  fst (calcLambda toy_backend 1%positive toy_x3 toy_y3w toy_e0)
    = fst (calcLambda toy_backend 1%positive toy_x3 toy_y3w toy_e1) /\
  fst (calcLambda toy_backend 1%positive toy_x3 toy_y3w
         (snd (calcLambda toy_backend 1%positive toy_x3 toy_y3w toy_e0)))
    = fst (calcLambda toy_backend 1%positive toy_x3 toy_y3w toy_e0) /\
  exists ms outs bufs,
    heap toy_e0 !! 1%positive = Some ms /\
    Forall2 (fun xb out =>
               exists g, fst (forward toy_backend (net ms) false xb g) = Ok out)
            (slices_from toy_x3 2 2 0) outs /\
    Forall2 (fun out buf => broadcast_to (row_width toy_y3w) out = Ok buf)
            outs bufs /\
    fof_Z 1 = eval_metric toy_e0
                (if threshold toy_e0 then threshold_tensor (concat bufs)
                 else concat bufs) toy_y3w.
Proof.
  assert (Hnet : net <$> heap toy_e0 !! 1%positive = net <$> heap toy_e1 !! 1%positive)
    by (vm_compute; reflexivity).
  assert (Hbs : batch_size toy_e0 = batch_size toy_e1) by (vm_compute; reflexivity).
  assert (Hth : threshold toy_e0 = threshold toy_e1) by (vm_compute; reflexivity).
  assert (Hm : eval_metric toy_e0 = eval_metric toy_e1) by (vm_compute; reflexivity).
  assert (Hlen : length toy_y3w = length toy_x3) by reflexivity.
  assert (Hpos : (0 < batch_size toy_e0)%Z) by (vm_compute; reflexivity).
  assert (Hceil : ceil_div (Z.of_nat (length toy_x3)) (batch_size toy_e0) = Ok 2%Z)
    by (vm_compute; reflexivity).
  assert (Hv : fst (calcLambda toy_backend 1%positive toy_x3 toy_y3w toy_e0)
               = Ok (fof_Z 1)) by (vm_compute; reflexivity).
  refine (conj Hnet (conj Hbs (conj Hth (conj Hm (conj Hlen (conj Hpos
            (conj Hceil (conj Hv _)))))))).
  destruct (C9_evaluation_deterministic toy_backend 1%positive toy_x3 toy_y3w
              toy_e0 toy_e1 toy_forward_deterministic Hnet Hbs Hth Hm)
    as [(evs & Hres & _) [Hagain Hbuf]].
  refine (conj Hres (conj Hagain _)).
  assert (Hstored : is_Some (net <$> heap toy_e0 !! 1%positive))
    by (vm_compute; eauto).
  assert (Hex : exists ms, heap toy_e0 !! 1%positive = Some ms).
  { destruct (heap toy_e0 !! 1%positive) as [ms|]; [by exists ms|].
    destruct Hstored as [? Hnone]. discriminate Hnone. }
  destruct Hex as [ms Hms].
  assert (Hshape : forall xb g out,
            fst (forward toy_backend (net ms) false xb g) = Ok out ->
            length out = length xb).
  { intros xb g out Hf. cbn [forward toy_backend fst] in Hf.
    injection Hf as <-. apply length_map. }
  destruct (Hbuf ms 2%Z (fof_Z 1) Hms Hshape Hlen Hpos Hceil Hv)
    as (outs & bufs & Hall & Hbc & _ & Hval).
  exists ms, outs, bufs. exact (conj Hms (conj Hall (conj Hbc Hval))).
Defined.

Lemma C10_single_trial_std_nan_witness :
  leak_samples toy_backend toy_feat toy_captions toy_captions false 1 0 toy_s0
    = (Ok [fof_Z 4], toy_after_trial) /\
  valid_binary 24 128 (fof_Z 4) = true /\
  exists res,
    getAmortizedLeakage toy_backend toy_feat toy_captions toy_captions
        1 "mean" false (toy_new "bce" 1024) = (Ok res, toy_after_trial) /\
    result_std res = S754_nan /\
    fis_nan (result_std res) = true /\
    result_num_trials res = 1.
Proof.
  assert (Hvalid : valid_binary 24 128 (fof_Z 4) = true) by (vm_compute; reflexivity).
  refine (conj toy_one_trial (conj Hvalid _)).
  exact (C10_single_trial_std_nan toy_backend toy_feat toy_captions toy_captions
           "mean" false (toy_new "bce" 1024) toy_captions toy_captions toy_s0
           (fof_Z 4) toy_after_trial toy_preprocess toy_one_trial Hvalid
           (or_introl eq_refl)).
Defined.

(** * Further properties of the code *)

Section TrainingRuns.
Context {R : Type} `{Arith R} (B : Backend R).
Implicit Types s : State B.

Lemma zip_py_slice {X Y} (x : list X) (y : list Y) a b :
  zip (py_slice x a b) (py_slice y a b) = py_slice (zip x y) a b.
Proof. unfold py_slice. by rewrite zip_with_drop, zip_with_take. Qed.

Lemma optimizer_step_pairs_app (t1 t2 : list (@Event R)) :
  optimizer_step_pairs (t1 ++ t2)
    = optimizer_step_pairs t1 ++ optimizer_step_pairs t2.
Proof. unfold optimizer_step_pairs. by rewrite omap_app, concat_app. Qed.

Lemma optimizer_step_pairs_steps l (x : list (list Z)) (y : list (list R))
    bs n start :
  optimizer_step_pairs
    (zip_with (OptimizerStep l) (slices_from x bs n start) (slices_from y bs n start))
  = concat (slices_from (zip x y) bs n start).
Proof.
  revert start. induction n as [|n IH]; intros start; [done|].
  cbn [slices_from zip_with]. unfold optimizer_step_pairs in *.
  cbn [omap concat]. simpl. rewrite zip_py_slice. f_equal. apply IH.
Qed.

Lemma index_select_zip {X Y} (x : list X) (y : list Y) p x' y' :
  index_select x p = Ok x' -> index_select y p = Ok y' ->
  index_select (zip x y) p = Ok (zip x' y').
Proof.
  revert x' y'. induction p as [|i p IH]; intros x' y'; simpl.
  - by intros [= <-] [= <-].
  - rewrite lookup_zip_with.
    destruct (x !! i) as [a|]; [|done]. destruct (y !! i) as [b|]; [|done].
    destruct (index_select x p) as [xr|]; [|done].
    destruct (index_select y p) as [yr|]; [|done].
    intros [= <-] [= <-]. simpl. by rewrite (IH xr yr).
Qed.

Lemma index_select_bound {X} (t : list X) p r :
  index_select t p = Ok r -> Forall (fun i => i < length t) p.
Proof.
  revert r. induction p as [|i p IH]; intros r; simpl; [constructor|].
  destruct (t !! i) as [a|] eqn:Hi; [|done].
  destruct (index_select t p) as [rp|]; [|done]. intros _.
  constructor; [by eapply lookup_lt_Some|by eapply IH].
Qed.

Lemma index_select_length {X} (t : list X) p r :
  index_select t p = Ok r -> length r = length p.
Proof.
  revert r. induction p as [|i p IH]; intros r; simpl; [by intros [= <-]|].
  destruct (t !! i) as [a|]; [|done].
  destruct (index_select t p) as [rp|]; [|done]. intros [= <-].
  simpl. f_equal. by apply IH.
Qed.

(** Indexing a tensor by a permutation of [0, n) needs at least [n] rows. *)
Lemma index_select_perm_bound {X} (t : list X) p n r :
  Permutation p (seq 0 n) -> index_select t p = Ok r -> n <= length t.
Proof.
  intros Hp Hr. destruct n as [|n]; [lia|].
  apply index_select_bound in Hr. rewrite Forall_forall in Hr.
  specialize (Hr n). cut (n < length t); [lia|]. apply Hr.
  rewrite Hp. apply elem_of_seq. lia.
Qed.

(** What a successful epoch appends to the output. *)
Lemma train_epoch_trace l crit batches epoch x y opt s x' y' opt' s' :
  train_epoch B l crit batches epoch x y opt s = (Ok (x', y', opt'), s') ->
  index_select x (fst (randperm B (length x) (rng s))) = Ok x' /\
  index_select y (fst (randperm B (length x) (rng s))) = Ok y' /\
  exists tail,
    trace s' = trace s
               ++ zip_with (OptimizerStep l)
                    (slices_from x' (Z.to_nat (batch_size s)) (Z.to_nat batches) 0)
                    (slices_from y' (Z.to_nat (batch_size s)) (Z.to_nat batches) 0)
               ++ tail /\
    optimizer_step_batches tail = [] /\ optimizer_step_pairs tail = [].
Proof.
  unfold train_epoch. intros Hrun.
  apply py_bind_ok in Hrun as (perm & s1 & Hperm & Hrun).
  unfold with_rng in Hperm.
  destruct (randperm B (length x) (rng s)) as [p g] eqn:Hp.
  injection Hperm as <- <-.
  apply py_bind_ok in Hrun as (x1 & s2 & Hx & Hrun). injection Hx as Hx <-.
  apply py_bind_ok in Hrun as (y1 & s2 & Hy & Hrun). injection Hy as Hy <-.
  apply py_bind_ok in Hrun as (bs & s2 & Hbs & Hrun). injection Hbs as <- <-.
  apply py_bind_ok in Hrun as (r & s2 & Hloop & Hrun).
  apply batch_loop_trace in Hloop. simpl in Hloop.
  apply py_bind_ok in Hrun as ([] & s3 & Hprint & Hrun).
  injection Hrun as <- <- <- <-.
  split; [done|]. split; [done|].
  repeat case_decide.
  - discriminate.
  - injection Hprint as <-. eexists [_]. simpl. rewrite Hloop, <- app_assoc.
    by split.
  - injection Hprint as <-. exists []. rewrite Hloop, app_nil_r. by split.
Qed.

Lemma concat_replicate_perm {X} (l k : list X) n :
  Permutation l k -> Permutation (concat (replicate n l)) (concat (replicate n k)).
Proof.
  intros Hlk. induction n as [|n IH]; simpl; [done|]. by apply Permutation_app.
Qed.

(** One epoch, pairs included. *)
Lemma train_epoch_pairs l crit batches epoch x y opt s x' y' opt' s' :
  (forall n g, Permutation (fst (randperm B n g)) (seq 0 n)) ->
  (0 < batch_size s)%Z ->
  ceil_div (Z.of_nat (length x)) (batch_size s) = Ok batches ->
  train_epoch B l crit batches epoch x y opt s = (Ok (x', y', opt'), s') ->
  length x' = length x /\ length y' = length x /\ length x <= length y /\
  Permutation (zip x' y') (zip x y) /\
  optimizer_step_pairs (trace s') = optimizer_step_pairs (trace s) ++ zip x' y' /\
  length (optimizer_step_batches (trace s'))
    = length (optimizer_step_batches (trace s)) + Z.to_nat batches.
Proof.
  intros Hrand Hbs Hceil Hrun.
  apply train_epoch_trace in Hrun as (Hx & Hy & tail & Htr & Htb & Htp).
  pose proof (Hrand (length x) (rng s)) as Hperm.
  pose proof (index_select_length _ _ _ Hx) as Hlx.
  pose proof (index_select_length _ _ _ Hy) as Hly.
  pose proof (Permutation_length Hperm) as Hlp. rewrite length_seq in Hlp.
  pose proof (index_select_perm_bound _ _ _ _ Hperm Hy) as Hle.
  pose proof (ceil_div_bounds _ _ _ Hbs Hceil) as Hbounds.
  split; [lia|]. split; [lia|]. split; [done|].
  split.
  { eapply index_select_permutation; [|by apply index_select_zip].
    rewrite length_zip_with. by replace (length x `min` length y) with (length x) by lia. }
  split.
  - rewrite Htr, !optimizer_step_pairs_app, Htp, app_nil_r.
    f_equal. rewrite optimizer_step_pairs_steps.
    apply concat_slices_cover. rewrite length_zip_with. nia.
  - rewrite Htr. unfold optimizer_step_batches in *. rewrite !omap_app, Htb, app_nil_r.
    fold (optimizer_step_batches
            (zip_with (OptimizerStep l)
               (slices_from x' (Z.to_nat (batch_size s)) (Z.to_nat batches) 0)
               (slices_from y' (Z.to_nat (batch_size s)) (Z.to_nat batches) 0))).
    rewrite optimizer_step_batches_steps, length_app, length_slices_from. done.
Qed.

(** All the epochs of a successful run. *)
Lemma epoch_loop_pairs l crit batches n epoch x y opt s s' :
  (forall n g, Permutation (fst (randperm B n g)) (seq 0 n)) ->
  (0 < batch_size s)%Z ->
  ceil_div (Z.of_nat (length x)) (batch_size s) = Ok batches ->
  epoch_loop B l crit batches n epoch x y opt s = (Ok tt, s') ->
  exists pl,
    optimizer_step_pairs (trace s') = optimizer_step_pairs (trace s) ++ pl /\
    Permutation pl (concat (replicate n (zip x y))) /\
    length (optimizer_step_batches (trace s'))
      = length (optimizer_step_batches (trace s)) + n * Z.to_nat batches.
Proof.
  intros Hrand. revert epoch x y opt s.
  induction n as [|n IH]; intros epoch x y opt s Hbs Hceil Hrun.
  - injection Hrun as <-. exists []. rewrite app_nil_r. simpl. by split; [|split; [|lia]].
  - cbn [epoch_loop] in Hrun.
    apply py_bind_ok in Hrun as ([[x1 y1] opt1] & s1 & Hep & Hrun).
    pose proof (preserves_train_epoch B _ _ _ _ _ _ _ _ _ _ Hep)
      as ((_ & _ & _ & _ & Hbs1 & _) & _).
    destruct (train_epoch_pairs _ _ _ _ _ _ _ _ _ _ _ _ Hrand Hbs Hceil Hep)
      as (Hlx & Hly & Hle & Hperm & Hpairs & Hcount).
    destruct (IH (epoch + 1)%Z x1 y1 opt1 s1) as (pl & Hpl & Hplperm & Hcnt);
      [by rewrite Hbs1|by rewrite Hbs1, Hlx|done|].
    exists (zip x1 y1 ++ pl). split; [by rewrite Hpl, Hpairs, <- app_assoc|].
    split.
    + simpl. apply Permutation_app; [done|].
      etrans; [exact Hplperm|]. by apply concat_replicate_perm.
    + rewrite Hcnt, Hcount. lia.
Qed.

(** X1. In one training epoch the inputs and the targets are shuffled by the
    same permutation and cut at the same offsets: the (input row, target
    row) pairs handed to the optimisation steps of the epoch are, in some
    order, exactly the pairs (x[i], y[i]) for i < N; targets beyond row N-1
    are never used. *)
Theorem X1_epoch_keeps_pairs_aligned
    (model : loc) (crit : Loss) (batches epoch : Z)
    (x : list (list Z)) (y : list (list R)) (opt : Opt B)
    s x' y' opt' s' :
  (forall n g, Permutation (fst (randperm B n g)) (seq 0 n)) ->
  (0 < batch_size s)%Z ->
  ceil_div (Z.of_nat (length x)) (batch_size s) = Ok batches ->
  train_epoch B model crit batches epoch x y opt s = (Ok (x', y', opt'), s') ->
  exists pl,
    optimizer_step_pairs (trace s') = optimizer_step_pairs (trace s) ++ pl /\
    Permutation pl (zip x (take (length x) y)) /\
    length pl = length x /\
    length x <= length y.
Proof.
  intros Hrand Hbs Hceil Hrun.
  destruct (train_epoch_pairs _ _ _ _ _ _ _ _ _ _ _ _ Hrand Hbs Hceil Hrun)
    as (Hlx & Hly & Hle & Hperm & Hpairs & _).
  exists (zip x' y'). split; [done|]. split; [|split; [|done]].
  - rewrite zip_with_take_r by lia. done.
  - rewrite length_zip_with. lia.
Qed.

(** X2. A successful call of [train] with batch size [bs >= 1] makes
    exactly [epochs * ceil(N / bs)] optimisation steps, and over the whole
    call every pair (x[i], y[i]) is handed to the optimiser exactly [epochs]
    times. *)
Theorem X2_train_steps_and_pairs
    (x : list (list Z)) (y : list (list R)) (mode : string)
    s (v : nat) (n0 : Net B) (g : Rng B) crit batches s' :
  (forall n g, Permutation (fst (randperm B n g)) (seq 0 n)) ->
  vocab_size s = Some v ->
  attacker_class s (<["vocab_size" := Z.of_nat v]> (attacker_params s)) (rng s)
    = (Ok n0, g) ->
  mode = "D" \/ mode = "M" ->
  loss_functions !! loss_function s = Some crit ->
  (0 < batch_size s)%Z ->
  ceil_div (Z.of_nat (length x)) (batch_size s) = Ok batches ->
  train B x y mode s = (Ok tt, s') ->
  exists pl,
    optimizer_step_pairs (trace s') = optimizer_step_pairs (trace s) ++ pl /\
    Permutation pl (concat (replicate (Z.to_nat (epochs s)) (zip x y))) /\
    length (optimizer_step_batches (trace s'))
      = length (optimizer_step_batches (trace s))
        + Z.to_nat (epochs s) * Z.to_nat batches /\
    (Z.of_nat (length x) <= batches * batch_size s
       < Z.of_nat (length x) + batch_size s)%Z.
Proof.
  intros Hrand Hv Hc Hmode Hloss Hbs Hceil Hrun.
  destruct (train_run B x y mode s v n0 g crit batches Hv Hc Hmode Hloss Hceil)
    as (s1 & l & _ & _ & _ & Htr1 & Hses & Heq).
  destruct Hses as (_ & _ & _ & _ & Hbs1 & _).
  rewrite Heq in Hrun.
  destruct (epoch_loop B l crit batches _ 1 x y _ _) as [[[]|e] s3] eqn:Hloop;
    [|done].
  injection Hrun as <-.
  apply epoch_loop_pairs in Hloop as (pl & Hpl & Hperm & Hcount);
    [|done|simpl; by rewrite Hbs1|simpl; by rewrite Hbs1].
  exists pl. simpl in *.
  rewrite optimizer_step_pairs_app, optimizer_step_batches_app, !app_nil_r.
  rewrite optimizer_step_pairs_app, app_nil_r, Htr1 in Hpl.
  rewrite optimizer_step_batches_app, app_nil_r, Htr1 in Hcount.
  split; [done|]. split; [done|]. split; [done|].
  by apply ceil_div_bounds.
Qed.

End TrainingRuns.

Section EdgeCases.
Context {R : Type} `{Arith R} (B : Backend R).
Implicit Types s : State B.

Lemma ceil_div_nonpos (a b k : Z) :
  (0 <= a)%Z -> (b < 0)%Z -> ceil_div a b = Ok k -> (k <= 0)%Z.
Proof.
  intros Ha Hb. unfold ceil_div. case_decide; [lia|]. intros [= <-].
  assert (0 <= - a / b)%Z; [|lia].
  replace b with (- - b)%Z by lia. rewrite Z.div_opp_opp by lia.
  apply Z.div_pos; lia.
Qed.

Lemma ceil_div_zero_dividend (b : Z) : b <> 0%Z -> ceil_div 0 b = Ok 0%Z.
Proof. intros Hb. unfold ceil_div. case_decide; [done|]. by rewrite Z.div_0_l. Qed.

Lemma index_select_err {X} (t : list X) p e :
  index_select t p = Err e -> e = IndexError "index out of range in self".
Proof.
  induction p as [|i p IH]; simpl; [done|].
  destruct (t !! i) as [a|]; [|by intros [= <-]].
  destruct (index_select t p) as [rp|e']; [done|]. intros [= <-]. by apply IH.
Qed.

Lemma index_select_total {X} (t : list X) p :
  Forall (fun i => i < length t) p -> exists r, index_select t p = Ok r.
Proof.
  induction 1 as [|i p Hi _ [r IH]]; simpl; [eauto|].
  apply lookup_lt_is_Some_2 in Hi as [a ->]. rewrite IH. eauto.
Qed.

Lemma index_select_perm_total {X} (t : list X) p :
  Permutation p (seq 0 (length t)) -> exists r, index_select t p = Ok r.
Proof.
  intros Hp. apply index_select_total. rewrite Forall_forall. intros i Hi.
  rewrite Hp in Hi. apply elem_of_seq in Hi. lia.
Qed.

(** An epoch without batches makes no optimisation step and writes no
    module, whatever its outcome. *)
Lemma train_epoch_no_batches l crit batches epoch x y opt s r s' :
  Z.to_nat batches = 0 ->
  train_epoch B l crit batches epoch x y opt s = (r, s') ->
  optimizer_step_batches (trace s') = optimizer_step_batches (trace s) /\
  heap s' = heap s.
Proof.
  intros Hn. unfold train_epoch, py_bind, with_rng, lift_result, gets, emit,
    modify, raise, py_ret.
  rewrite Hn. simpl. unfold py_ret.
  destruct (randperm B (length x) (rng s)) as [p g].
  destruct (index_select x p) as [x'|e]; [|by intros [= _ <-]].
  destruct (index_select y p) as [y'|e]; [|by intros [= _ <-]].
  repeat case_decide; intros [= _ <-]; simpl; try done.
  split; [|done]. unfold optimizer_step_batches. rewrite omap_app. simpl.
  by rewrite app_nil_r.
Qed.

Lemma epoch_loop_no_batches l crit batches n epoch x y opt s r s' :
  Z.to_nat batches = 0 ->
  epoch_loop B l crit batches n epoch x y opt s = (r, s') ->
  optimizer_step_batches (trace s') = optimizer_step_batches (trace s) /\
  heap s' = heap s.
Proof.
  intros Hn. revert epoch x y opt s.
  induction n as [|n IH]; intros epoch x y opt s Hrun.
  - by injection Hrun as _ <-.
  - cbn [epoch_loop] in Hrun.
    apply py_bind_inv in Hrun as [(e & Hep & _)|([[x1 y1] o1] & s1 & Hep & Hrun)].
    + eapply train_epoch_no_batches; done.
    + apply (train_epoch_no_batches _ _ _ _ _ _ _ _ _ _ Hn) in Hep as [Ht Hh].
      apply IH in Hrun as [Ht' Hh']. split; congruence.
Qed.

(** An epoch over an empty dataset. *)
Lemma train_epoch_empty l crit epoch (y : list (list R)) opt s :
  (forall n g, Permutation (fst (randperm B n g)) (seq 0 n)) ->
  fst (train_epoch B l crit 0 epoch [] y opt s)
    = if decide (epoch mod 5 = 0)%Z then Err ZeroDivisionError
      else Ok ([], [], scheduler_step B opt).
Proof.
  intros Hrand. unfold train_epoch, py_bind, with_rng, lift_result, gets, emit,
    modify, raise, py_ret.
  pose proof (Hrand 0 (rng s)) as Hp. simpl in *.
  destruct (randperm B 0 (rng s)) as [p g]. simpl in Hp.
  apply Permutation_nil_r in Hp as ->. simpl.
  by destruct (decide ((epoch mod 5)%Z = 0%Z)).
Qed.

Lemma epoch_loop_empty l crit n epoch (y : list (list R)) opt s :
  (forall n g, Permutation (fst (randperm B n g)) (seq 0 n)) ->
  ((forall k, k < n -> ((epoch + Z.of_nat k) mod 5 <> 0)%Z) ->
   fst (epoch_loop B l crit 0 n epoch [] y opt s) = Ok tt) /\
  ((exists k, k < n /\ ((epoch + Z.of_nat k) mod 5 = 0)%Z) ->
   fst (epoch_loop B l crit 0 n epoch [] y opt s) = Err ZeroDivisionError).
Proof.
  intros Hrand. revert epoch y opt s.
  induction n as [|n IH]; intros epoch y opt s.
  - split; [done|]. intros (k & Hk & _). lia.
  - cbn [epoch_loop]. unfold py_bind.
    pose proof (train_epoch_empty l crit epoch y opt s Hrand) as Hep.
    destruct (train_epoch B l crit 0 epoch [] y opt s) as [[[[x1 y1] o1]|e] s1].
    + simpl in Hep. case_decide as Hmod; [done|]. injection Hep as -> -> ->.
      destruct (IH (epoch + 1)%Z [] (scheduler_step B opt) s1) as [IHok IHerr].
      split.
      * intros Hall. apply IHok. intros k Hk.
        replace (epoch + 1 + Z.of_nat k)%Z with (epoch + Z.of_nat (S k))%Z by lia.
        apply Hall. lia.
      * intros (k & Hk & Hz). apply IHerr. destruct k as [|k].
        { rewrite Z.add_0_r in Hz. done. }
        exists k. split; [lia|].
        by replace (epoch + 1 + Z.of_nat k)%Z with (epoch + Z.of_nat (S k))%Z by lia.
    + simpl in Hep. case_decide as Hmod; [|done]. injection Hep as ->.
      split; [|done]. intros Hall. specialize (Hall 0 ltac:(lia)).
      by rewrite Z.add_0_r in Hall.
Qed.

(** X3. Training on an empty dataset makes no optimisation step; with
    fewer than five epochs the call completes, with five or more it raises
    [ZeroDivisionError] when the fifth epoch reports its average loss
    ([running_loss / batches] with [batches = 0]). *)
Theorem X3_train_on_empty_dataset
    (y : list (list R)) (mode : string) s (v : nat) (n0 : Net B) (g : Rng B) crit :
  (forall n g, Permutation (fst (randperm B n g)) (seq 0 n)) ->
  vocab_size s = Some v ->
  attacker_class s (<["vocab_size" := Z.of_nat v]> (attacker_params s)) (rng s)
    = (Ok n0, g) ->
  mode = "D" \/ mode = "M" ->
  loss_functions !! loss_function s = Some crit ->
  batch_size s <> 0%Z ->
  ((5 <= epochs s)%Z -> fst (train B [] y mode s) = Err ZeroDivisionError) /\
  ((epochs s < 5)%Z -> fst (train B [] y mode s) = Ok tt) /\
  optimizer_step_batches (trace (snd (train B [] y mode s)))
    = optimizer_step_batches (trace s).
Proof.
  intros Hrand Hv Hc Hmode Hloss Hbs.
  destruct (train_run B [] y mode s v n0 g crit 0 Hv Hc Hmode Hloss
              (ceil_div_zero_dividend _ Hbs))
    as (s1 & l & _ & _ & _ & Htr1 & _ & Heq).
  rewrite Heq.
  match goal with |- context [epoch_loop B l crit 0 ?n 1 [] y ?o ?st] =>
    destruct (epoch_loop_empty l crit n 1 y o st Hrand) as [Hok Herr];
    pose proof (epoch_loop_no_batches l crit 0 n 1 [] y o st) as Hquiet;
    destruct (epoch_loop B l crit 0 n 1 [] y o st) as [[[]|e] s3]
  end; simpl in *.
  - destruct (Hquiet _ _ eq_refl eq_refl) as [Hq _]. simpl in Hq.
    rewrite optimizer_step_batches_app, app_nil_r in Hq.
    split; [|split; [done|]].
    + intros He. exfalso. cut (@Ok unit tt = Err ZeroDivisionError); [done|].
      apply Herr. exists 4. split; [lia|done].
    + rewrite optimizer_step_batches_app, app_nil_r. congruence.
  - destruct (Hquiet _ _ eq_refl eq_refl) as [Hq _]. simpl in Hq.
    rewrite optimizer_step_batches_app, app_nil_r in Hq.
    split; [|split; [|congruence]].
    + intros He. apply Herr. exists 4. split; [lia|done].
    + intros He. exfalso. cut (@Err unit e = Ok tt); [done|].
      apply Hok. intros k Hk. assert (k < 4) by lia.
      destruct k as [|[|[|[|k]]]]; try done. lia.
Qed.

(** X4. With [batch_size = 0] both loops are refused before they start:
    [train] raises [ZeroDivisionError] after replacing the attackers, without
    printing anything and with the selected attacker still at its initial
    parameters; [calcLambda] raises [ZeroDivisionError] without any forward
    pass, the model already switched to evaluation mode. *)
Theorem X4_zero_batch_size
    (x : list (list Z)) (y : list (list R)) s :
  batch_size s = 0%Z ->
  (forall mode (v : nat) (n0 : Net B) (g : Rng B) crit,
     vocab_size s = Some v ->
     attacker_class s (<["vocab_size" := Z.of_nat v]> (attacker_params s)) (rng s)
       = (Ok n0, g) ->
     mode = "D" \/ mode = "M" ->
     loss_functions !! loss_function s = Some crit ->
     exists s' l,
       train B x y mode s = (Err ZeroDivisionError, s') /\
       getattr_attacker B mode s' = (Ok l, s') /\
       heap s' !! l = Some (Build_Module B n0 true) /\
       trace s' = trace s) /\
  (forall l ms,
     heap s !! l = Some ms ->
     exists s',
       calcLambda B l x y s = (Err ZeroDivisionError, s') /\
       heap s' !! l = Some (Build_Module B (net ms) false) /\
       trace s' = trace s).
Proof.
  intros Hbs. split.
  - intros mode v n0 g crit Hv Hc Hmode Hloss.
    destruct (defineModel_spec B s v n0 g Hv Hc)
      as (s1 & d & m & Hdef & HD & HM & Hdm & Hd & Hm & Hhd & Hhm & _ & Hses & Htr & _).
    destruct Hses as [(_ & _ & Hls & _ & Hbs1 & _) _].
    assert (Hsel : exists l, getattr_attacker B mode s1 = (Ok l, s1) /\
                             heap s1 !! l = Some (Build_Module B n0 true) /\
                             forall s2, attacker_D s2 = attacker_D s1 ->
                                        attacker_M s2 = attacker_M s1 ->
                                        getattr_attacker B mode s2 = (Ok l, s2)).
    { destruct Hmode as [-> | ->].
      - exists d. unfold getattr_attacker. case_decide; [|done].
        rewrite HD. repeat split; [done|]. intros s2 E _. by rewrite E.
      - exists m. unfold getattr_attacker. case_decide; [done|].
        case_decide; [|done]. rewrite HM. repeat split; [done|].
        intros s2 _ E. by rewrite E. }
    destruct Hsel as (l & Hget & Hl & Hget').
    exists (set_heap B (<[l := Build_Module B n0 true]> (heap s1)) s1), l.
    split.
    { unfold train. rewrite (py_bind_run _ _ _ _ _ Hdef), (py_bind_run _ _ _ _ _ Hget).
      unfold set_training, py_bind, deref, store, modify, gets, raise, lift_result,
        py_ret.
      rewrite Hl. simpl. rewrite Hls, Hloss. simpl. rewrite lookup_insert_eq. simpl.
      rewrite Hbs1, Hbs. reflexivity. }
    split; [by apply Hget'|]. split; [apply lookup_insert_eq|done].
  - intros l ms Hl. eexists. split.
    { apply (calcLambda_zero_division B l x y s ms ZeroDivisionError Hl).
      by rewrite Hbs. }
    simpl. split; [apply lookup_insert_eq|done].
Qed.

(** X5. A negative [batch_size] is not refused: [math.ceil] then gives a
    batch count of zero or less and both loops are skipped.  [train] makes
    no optimisation step and leaves the selected attacker at its initial
    parameters, whatever its outcome; [calcLambda] makes no forward pass and
    scores the all-zero buffer. *)
Theorem X5_negative_batch_size
    (x : list (list Z)) (y : list (list R)) s :
  (batch_size s < 0)%Z ->
  (forall mode (v : nat) (n0 : Net B) (g : Rng B) crit r s',
     vocab_size s = Some v ->
     attacker_class s (<["vocab_size" := Z.of_nat v]> (attacker_params s)) (rng s)
       = (Ok n0, g) ->
     mode = "D" \/ mode = "M" ->
     loss_functions !! loss_function s = Some crit ->
     train B x y mode s = (r, s') ->
     exists l,
       getattr_attacker B mode s' = (Ok l, s') /\
       heap s' !! l = Some (Build_Module B n0 true) /\
       optimizer_step_batches (trace s') = optimizer_step_batches (trace s)) /\
  (forall l ms,
     heap s !! l = Some ms ->
     exists s',
       calcLambda B l x y s
         = (Ok (eval_metric s (if threshold s then threshold_tensor (zeros_like y)
                               else zeros_like y) y), s') /\
       trace s' = trace s).
Proof.
  intros Hbs.
  assert (Hceil : exists batches,
            ceil_div (Z.of_nat (length x)) (batch_size s) = Ok batches /\
            Z.to_nat batches = 0).
  { unfold ceil_div. case_decide; [lia|]. eexists. split; [done|].
    pose proof (ceil_div_nonpos (Z.of_nat (length x)) (batch_size s) _
                  ltac:(lia) Hbs ltac:(unfold ceil_div; by case_decide)). lia. }
  destruct Hceil as (batches & Hceil & Hn). split.
  - intros mode v n0 g crit r s' Hv Hc Hmode Hloss Hrun.
    destruct (train_run B x y mode s v n0 g crit batches Hv Hc Hmode Hloss Hceil)
      as (s1 & l & Hdef & Hget & Hl & Htr1 & _ & Heq).
    rewrite Heq in Hrun.
    match type of Hrun with context [epoch_loop B l crit batches ?n 1 x y ?o ?st] =>
      pose proof (epoch_loop_no_batches l crit batches n 1 x y o st) as Hquiet;
      pose proof (preserves_epoch_loop B l crit batches n 1 x y o st) as Hframe;
      destruct (epoch_loop B l crit batches n 1 x y o st) as [r3 s3]
    end.
    destruct (Hquiet _ _ Hn eq_refl) as [Hq Hh]. simpl in Hq, Hh.
    destruct (Hframe _ _ eq_refl) as (_ & [HD3 HM3] & _). simpl in HD3, HM3.
    rewrite optimizer_step_batches_app, app_nil_r, Htr1 in Hq.
    exists l.
    assert (Hget3 : forall s4, attacker_D s4 = attacker_D s3 ->
                               attacker_M s4 = attacker_M s3 ->
                               getattr_attacker B mode s4 = (Ok l, s4)).
    { intros s4 E1 E2. unfold getattr_attacker in *.
      rewrite E1, E2, HD3, HM3.
      repeat case_decide; destruct (attacker_D s1), (attacker_M s1);
        simplify_eq; done. }
    destruct r3 as [[]|e]; injection Hrun as <- <-; simpl.
    + split; [by apply Hget3|]. rewrite Hh, lookup_insert_eq.
      split; [done|]. by rewrite optimizer_step_batches_app, app_nil_r.
    + split; [by apply Hget3|]. by rewrite Hh, lookup_insert_eq.
  - intros l ms Hl. rewrite (calcLambda_run B l x y s ms batches Hl Hceil), Hn.
    simpl. unfold py_ret. eexists. split; [reflexivity|done].
Qed.

(** X6. Targets with fewer rows than the inputs are detected when the
    first epoch shuffles them: [train] raises [IndexError] before any
    optimisation step. *)
Theorem X6_train_with_too_few_targets
    (x : list (list Z)) (y : list (list R)) (mode : string)
    s (v : nat) (n0 : Net B) (g : Rng B) crit batches :
  (forall n g, Permutation (fst (randperm B n g)) (seq 0 n)) ->
  vocab_size s = Some v ->
  attacker_class s (<["vocab_size" := Z.of_nat v]> (attacker_params s)) (rng s)
    = (Ok n0, g) ->
  mode = "D" \/ mode = "M" ->
  loss_functions !! loss_function s = Some crit ->
  ceil_div (Z.of_nat (length x)) (batch_size s) = Ok batches ->
  (1 <= epochs s)%Z ->
  length y < length x ->
  (exists msg, fst (train B x y mode s) = Err (IndexError msg)) /\
  optimizer_step_batches (trace (snd (train B x y mode s)))
    = optimizer_step_batches (trace s).
Proof.
  intros Hrand Hv Hc Hmode Hloss Hceil Hep Hlen.
  destruct (train_run B x y mode s v n0 g crit batches Hv Hc Hmode Hloss Hceil)
    as (s1 & l & _ & _ & _ & Htr1 & _ & Heq).
  rewrite Heq.
  destruct (Z.to_nat (epochs s)) as [|n] eqn:Hn; [lia|].
  pose proof (Hrand (length x) (rng s1)) as Hperm.
  destruct (randperm B (length x) (rng s1)) as [p g1] eqn:Hp. simpl in Hperm.
  destruct (index_select_perm_total x p Hperm) as [x' Hx].
  destruct (index_select y p) as [y'|e] eqn:Hy.
  { apply (index_select_perm_bound _ _ _ _ Hperm) in Hy. lia. }
  apply index_select_err in Hy as He. subst e.
  assert (Hloop : forall o st,
            rng st = rng s1 ->
            exists s3,
              epoch_loop B l crit batches (S n) 1 x y o st
                = (Err (IndexError "index out of range in self"), s3) /\
              trace s3 = trace st).
  { intros o st Hrng. cbn [epoch_loop].
    unfold py_bind, train_epoch, with_rng, lift_result, py_bind.
    rewrite Hrng, Hp, Hx, Hy. eauto. }
  match goal with |- context [epoch_loop B l crit batches (S n) 1 x y ?o ?st] =>
    destruct (Hloop o st eq_refl) as (s3 & -> & Htr3)
  end.
  simpl. split; [by eexists|]. rewrite Htr3. simpl.
  by rewrite optimizer_step_batches_app, app_nil_r, Htr1.
Qed.

(** X7. Before [captionPreprocess] has run there is no [vocab_size]:
    [train] and [calcLeak] raise [AttributeError] at once and leave the
    object, the constructor parameters and the store as they were. *)
Theorem X7_train_before_preprocessing
    (x : list (list Z)) (y : list (list R)) (mode : string) s :
  vocab_size s = None ->
  train B x y mode s = (Err (AttributeError "vocab_size"), s) /\
  (forall feat data pred normalized,
     calcLeak B feat data pred normalized s
       = (Err (AttributeError "vocab_size"), s)).
Proof.
  intros Hv.
  assert (Hdef : defineModel B s = (Err (AttributeError "vocab_size"), s)).
  { unfold defineModel, py_bind, gets. simpl. by rewrite Hv. }
  assert (Htrain : forall x y mode,
            train B x y mode s = (Err (AttributeError "vocab_size"), s)).
  { intros x0 y0 mode0. unfold train. by rewrite (py_bind_err _ _ _ _ _ Hdef). }
  split; [done|]. intros feat data pred normalized.
  unfold calcLeak. by rewrite (py_bind_err _ _ _ _ _ (Htrain _ _ _)).
Qed.

(** X8. A mode other than "D" and "M" is only noticed after the attackers
    have been replaced: [train] raises [AttributeError] for the attribute
    [attacker_<mode>], having installed two new attackers and printed
    nothing. *)
Theorem X8_train_with_unknown_mode
    (x : list (list Z)) (y : list (list R)) (mode : string)
    s (v : nat) (n0 : Net B) (g : Rng B) :
  vocab_size s = Some v ->
  attacker_class s (<["vocab_size" := Z.of_nat v]> (attacker_params s)) (rng s)
    = (Ok n0, g) ->
  mode <> "D" -> mode <> "M" ->
  exists s' d m,
    train B x y mode s = (Err (AttributeError ("attacker_" +:+ mode)), s') /\
    attacker_D s' = Some d /\ attacker_M s' = Some m /\
    (d ∉ dom (heap s)) /\ (m ∉ dom (heap s)) /\
    heap s' !! d = Some (Build_Module B n0 true) /\
    heap s' !! m = Some (Build_Module B n0 true) /\
    trace s' = trace s.
Proof.
  intros Hv Hc HD HM.
  destruct (defineModel_spec B s v n0 g Hv Hc)
    as (s1 & d & m & Hdef & HD1 & HM1 & _ & Hd & Hm & Hhd & Hhm & _ & _ & Htr & _).
  exists s1, d, m. split.
  - unfold train. rewrite (py_bind_run _ _ _ _ _ Hdef).
    unfold py_bind, getattr_attacker. by repeat case_decide.
  - done.
Qed.

End EdgeCases.

(** ** What the methods may touch *)

Section Footprint.
Context {R : Type} `{Arith R} (B : Backend R).
Implicit Types s : State B.

#[local] Instance reach_preorder : PreOrder (reach B).
Proof.
  split.
  - intros s. constructor.
  - intros s1 s2 s3 H12. induction H12 as [|s s1 s2 Hu _ IH]; [done|].
    intros H23. econstructor; [exact Hu|by apply IH].
Qed.

Lemma reach_update s s' : update B s s' -> reach B s s'.
Proof. intros Hu. econstructor; [exact Hu|constructor]. Qed.

(** An invariant of the elementary updates is an invariant of every
    sequence of them. *)
Lemma reach_keeps (I : State B -> Prop) s s' :
  (forall s1 s2, update B s1 s2 -> I s1 -> I s2) ->
  reach B s s' -> I s -> I s'.
Proof. intros Hu. induction 1 as [|s s1 s2 Hs _ IH]; [done|]. eauto. Qed.

Lemma reach_emit e : preserves B (reach B) (emit B e).
Proof. intros s r s' [= _ <-]. apply reach_update. constructor. Qed.

Lemma reach_with_rng {A} (f : Rng B -> Result A * Rng B) :
  preserves B (reach B) (with_rng B f).
Proof.
  intros s r s'. unfold with_rng. destruct (f (rng s)) as [r0 g].
  intros [= _ <-]. apply reach_update. constructor.
Qed.

Lemma reach_store l m : preserves B (reach B) (store B l m).
Proof. intros s r s' [= _ <-]. apply reach_update. constructor. Qed.

Lemma reach_alloc m : preserves B (reach B) (alloc B m).
Proof. intros s r s' [= _ <-]. apply reach_update. constructor. Qed.

Lemma reach_set_training l b : preserves B (reach B) (set_training B l b).
Proof.
  apply preserves_bind; [apply _|apply preserves_deref, _|].
  intros m. apply reach_store.
Qed.

Lemma reach_optimizer_step l crit opt xb yb :
  preserves B (reach B) (optimizer_step B l crit opt xb yb).
Proof.
  unfold optimizer_step.
  apply preserves_bind; [apply _|apply preserves_deref, _|]. intros m.
  apply preserves_bind; [apply _|apply reach_with_rng|].
  intros [[n' opt'] loss].
  apply preserves_bind; [apply _|apply reach_store|]. intros _.
  apply preserves_bind; [apply _|apply reach_emit|]. intros _.
  apply preserves_ret, _.
Qed.

Lemma reach_batch_loop l crit x y bs n start opt rl :
  preserves B (reach B) (batch_loop B l crit x y bs n start opt rl).
Proof.
  revert start opt rl. induction n as [|n IH]; intros start opt rl; simpl.
  - apply preserves_ret, _.
  - apply preserves_bind; [apply _|apply reach_optimizer_step|].
    intros r. apply IH.
Qed.

Lemma reach_train_epoch l crit batches epoch x y opt :
  preserves B (reach B) (train_epoch B l crit batches epoch x y opt).
Proof.
  unfold train_epoch.
  apply preserves_bind; [apply _|apply reach_with_rng|]. intros perm.
  apply preserves_bind; [apply _|apply preserves_lift, _|]. intros x'.
  apply preserves_bind; [apply _|apply preserves_lift, _|]. intros y'.
  apply preserves_bind; [apply _|apply preserves_gets, _|]. intros bs.
  apply preserves_bind; [apply _|apply reach_batch_loop|]. intros r.
  apply preserves_bind; [apply _| |intros _; apply preserves_ret, _].
  repeat case_decide;
    [apply preserves_raise, _|apply reach_emit|apply preserves_ret, _].
Qed.

Lemma reach_epoch_loop l crit batches n epoch x y opt :
  preserves B (reach B) (epoch_loop B l crit batches n epoch x y opt).
Proof.
  revert epoch x y opt. induction n as [|n IH]; intros epoch x y opt; simpl.
  - apply preserves_ret, _.
  - apply preserves_bind; [apply _|apply reach_train_epoch|].
    intros [[x' y'] opt']. apply IH.
Qed.

Lemma reach_eval_loop l x bs n start y_pred :
  preserves B (reach B) (eval_loop B l x bs n start y_pred).
Proof.
  revert start y_pred. induction n as [|n IH]; intros start y_pred; simpl.
  - apply preserves_ret, _.
  - apply preserves_bind; [apply _|apply preserves_deref, _|]. intros m.
    apply preserves_bind; [apply _|apply reach_with_rng|]. intros out.
    apply preserves_bind; [apply _|apply reach_emit|]. intros _.
    apply preserves_bind; [apply _|apply preserves_lift, _|]. intros y'.
    apply IH.
Qed.

Lemma reach_calcLambda l x y : preserves B (reach B) (calcLambda B l x y).
Proof.
  unfold calcLambda.
  apply preserves_bind; [apply _|apply reach_set_training|]. intros _.
  apply preserves_bind; [apply _|apply preserves_gets, _|]. intros bs.
  apply preserves_bind; [apply _|apply preserves_lift, _|]. intros batches.
  apply preserves_bind; [apply _|apply reach_eval_loop|]. intros yp.
  apply preserves_bind; [apply _|apply preserves_gets, _|]. intros th.
  apply preserves_bind; [apply _|apply preserves_gets, _|]. intros metric.
  apply preserves_ret, _.
Qed.

(** [defineModel] once the constructor parameters have been updated. *)
Lemma reach_defineModel_tail
    (model_class : gmap string Z -> Rng B -> Result (Net B) * Rng B)
    (model_params : gmap string Z) :
  preserves B (reach B)
    (n <- with_rng B (model_class model_params) ;;
     d <- alloc B (Build_Module B n true) ;;
     modify (set_attacker_D B (Some d)) ;;;
     d' <- getattr_attacker B "D" ;;
     m <- deepcopy B d' ;;
     modify (set_attacker_M B (Some m))).
Proof.
  apply preserves_bind; [apply _|apply reach_with_rng|]. intros n.
  apply preserves_bind; [apply _|apply reach_alloc|]. intros d.
  apply preserves_bind; [apply _| |].
  { intros s r s' [= _ <-]. apply reach_update. constructor. }
  intros _. apply preserves_bind; [apply _|apply preserves_getattr, _|]. intros d'.
  apply preserves_bind; [apply _| |].
  { apply preserves_bind; [apply _|apply preserves_deref, _|]. intros m.
    apply reach_alloc. }
  intros m s r s' [= _ <-]. apply reach_update. constructor.
Qed.

(** [defineModel] first writes [vocab_size] into the constructor
    parameters (when the attribute exists) and goes on from there. *)
Lemma defineModel_injects s r s' :
  defineModel B s = (r, s') ->
  match vocab_size s with
  | Some v =>
      reach B (set_attacker_params B
                 (<["vocab_size" := Z.of_nat v]> (attacker_params s)) s) s'
  | None => s' = s
  end.
Proof.
  unfold defineModel. unfold py_bind at 1 2 3 4. unfold gets at 1 2. simpl.
  destruct (vocab_size s) as [v|] eqn:Hv; [|by intros [= _ <-]].
  unfold modify at 1. intros Hrun.
  eapply (reach_defineModel_tail (attacker_class s)), Hrun.
Qed.

Lemma reach_defineModel : preserves B (reach B) (defineModel B).
Proof.
  intros s r s' Hrun. apply defineModel_injects in Hrun.
  destruct (vocab_size s) as [v|] eqn:Hv; [|subst; reflexivity].
  econstructor; [|exact Hrun]. by constructor.
Qed.

(** [train] after its call of [defineModel]. *)
Lemma reach_train_tail (x : list (list Z)) (y : list (list R)) mode :
  preserves B (reach B)
    (model <- getattr_attacker B mode ;;
     set_training B model true ;;;
     name <- gets loss_function ;;
     criterion <- (match loss_functions !! name with
                   | Some c => py_ret c
                   | None => raise (KeyError name)
                   end) ;;
     m <- deref B model ;;
     lr <- gets learning_rate ;;
     let optimizer := Adam B (net m) lr in
     let scheduler := StepLR B optimizer 10 (fdiv (fof_Z 1) (fof_Z 10)) in
     bs <- gets batch_size ;;
     batches <- lift_result (ceil_div (Z.of_nat (length x)) bs) ;;
     emit B (PrintTrainingActivated mode) ;;;
     ep <- gets epochs ;;
     epoch_loop B model criterion batches (Z.to_nat ep) 1 x y scheduler ;;;
     emit B PrintTrainingCompleted).
Proof.
  apply preserves_bind; [apply _|apply preserves_getattr, _|]. intros l.
  apply preserves_bind; [apply _|apply reach_set_training|]. intros _.
  apply preserves_bind; [apply _|apply preserves_gets, _|]. intros name.
  apply preserves_bind; [apply _| |].
  { destruct (loss_functions !! name); [apply preserves_ret, _|apply preserves_raise, _]. }
  intros crit.
  apply preserves_bind; [apply _|apply preserves_deref, _|]. intros m.
  apply preserves_bind; [apply _|apply preserves_gets, _|]. intros lr.
  apply preserves_bind; [apply _|apply preserves_gets, _|]. intros bs.
  apply preserves_bind; [apply _|apply preserves_lift, _|]. intros batches.
  apply preserves_bind; [apply _|apply reach_emit|]. intros _.
  apply preserves_bind; [apply _|apply preserves_gets, _|]. intros ep.
  apply preserves_bind; [apply _|apply reach_epoch_loop|]. intros _.
  apply reach_emit.
Qed.

Lemma reach_train x y mode : preserves B (reach B) (train B x y mode).
Proof.
  unfold train. apply preserves_bind; [apply _|apply reach_defineModel|].
  intros _. apply reach_train_tail.
Qed.

(** [calcLeak] after its first call of [train]. *)
Lemma reach_calcLeak_tail (feat : list (list R)) (data pred : list (list Z))
    (normalized : bool) :
  preserves B (reach B)
    (d <- getattr_attacker B "D" ;;
     lambda_d <- calcLambda B d data feat ;;
     train B pred feat "M" ;;;
     m <- getattr_attacker B "M" ;;
     lambda_m <- calcLambda B m pred feat ;;
     emit B (PrintLambda lambda_d lambda_m) ;;;
     let leakage_amp := fsub lambda_m lambda_d in
     py_ret (if normalized then fdiv leakage_amp (fadd lambda_m lambda_d)
             else leakage_amp)).
Proof.
  apply preserves_bind; [apply _|apply preserves_getattr, _|]. intros d.
  apply preserves_bind; [apply _|apply reach_calcLambda|]. intros ld.
  apply preserves_bind; [apply _|apply reach_train|]. intros _.
  apply preserves_bind; [apply _|apply preserves_getattr, _|]. intros m.
  apply preserves_bind; [apply _|apply reach_calcLambda|]. intros lm.
  apply preserves_bind; [apply _|apply reach_emit|]. intros _.
  apply preserves_ret, _.
Qed.

Lemma reach_calcLeak feat data pred normalized :
  preserves B (reach B) (calcLeak B feat data pred normalized).
Proof.
  unfold calcLeak. apply preserves_bind; [apply _|apply reach_train|].
  intros _. apply reach_calcLeak_tail.
Qed.

Lemma reach_leak_samples feat data pred normalized n i :
  preserves B (reach B) (leak_samples B feat data pred normalized n i).
Proof.
  revert i. induction n as [|n IH]; intros i; simpl.
  - apply preserves_ret, _.
  - apply preserves_bind; [apply _|apply reach_emit|]. intros _.
    apply preserves_bind; [apply _|apply reach_calcLeak|]. intros v.
    apply preserves_bind; [apply _|apply reach_emit|]. intros _.
    apply preserves_bind; [apply _|apply IH|]. intros vs.
    apply preserves_ret, _.
Qed.

(** The first trial starts by writing [vocab_size] into the constructor
    parameters; everything after is a sequence of elementary updates. *)
Lemma leak_samples_injects feat data pred normalized n i s (v : nat) r s' :
  vocab_size s = Some v ->
  leak_samples B feat data pred normalized (S n) i s = (r, s') ->
  reach B (set_attacker_params B
             (<["vocab_size" := Z.of_nat v]> (attacker_params s))
             (set_trace B (trace s ++ [PrintTrial i]) s)) s'.
Proof.
  intros Hv Hrun. cbn [leak_samples] in Hrun.
  unfold py_bind at 1 in Hrun. unfold emit at 1, modify in Hrun.
  apply py_bind_inv in Hrun as [(e & Hleak & _)|(x & s1 & Hleak & Hrest)].
  - unfold calcLeak in Hleak.
    apply py_bind_inv in Hleak as [(e' & Htrain & _)|([] & s2 & Htrain & Hrest)].
    + unfold train in Htrain.
      apply py_bind_inv in Htrain as [(e2 & Hdef & _)|([] & s3 & Hdef & Hrest)].
      * apply defineModel_injects in Hdef. simpl in Hdef. by rewrite Hv in Hdef.
      * apply defineModel_injects in Hdef. simpl in Hdef. rewrite Hv in Hdef.
        etrans; [exact Hdef|]. eapply reach_train_tail, Hrest.
    + etrans; [|eapply reach_calcLeak_tail, Hrest].
      unfold train in Htrain.
      apply py_bind_inv in Htrain as [(e2 & Hdef & _)|([] & s3 & Hdef & Hrest')].
      * apply defineModel_injects in Hdef. simpl in Hdef. by rewrite Hv in Hdef.
      * apply defineModel_injects in Hdef. simpl in Hdef. rewrite Hv in Hdef.
        etrans; [exact Hdef|]. eapply reach_train_tail, Hrest'.
  - assert (Hfirst : reach B
              (set_attacker_params B
                 (<["vocab_size" := Z.of_nat v]> (attacker_params s))
                 (set_trace B (trace s ++ [PrintTrial i]) s)) s1).
    { unfold calcLeak in Hleak.
      apply py_bind_inv in Hleak as [(e' & Htrain & _)|([] & s2 & Htrain & Hrest')].
      - unfold train in Htrain.
        apply py_bind_inv in Htrain as [(e2 & Hdef & _)|([] & s3 & Hdef & Hrest2)].
        + apply defineModel_injects in Hdef. simpl in Hdef. by rewrite Hv in Hdef.
        + apply defineModel_injects in Hdef. simpl in Hdef. rewrite Hv in Hdef.
          etrans; [exact Hdef|]. eapply reach_train_tail, Hrest2.
      - etrans; [|eapply reach_calcLeak_tail, Hrest'].
        unfold train in Htrain.
        apply py_bind_inv in Htrain as [(e2 & Hdef & _)|([] & s3 & Hdef & Hrest2)].
        + apply defineModel_injects in Hdef. simpl in Hdef. by rewrite Hv in Hdef.
        + apply defineModel_injects in Hdef. simpl in Hdef. rewrite Hv in Hdef.
          etrans; [exact Hdef|]. eapply reach_train_tail, Hrest2. }
    etrans; [exact Hfirst|].
    revert Hrest.
    apply (preserves_bind B (reach B) (emit B (PrintTrialVal i x))
             (fun _ => vs <- leak_samples B feat data pred normalized n (S i) ;;
                       py_ret (x :: vs))).
    + apply reach_emit.
    + intros _. apply preserves_bind; [apply _|apply reach_leak_samples|].
      intros vs. apply preserves_ret, _.
Qed.

End Footprint.

(** ** Whole measurements *)

Section WholeRuns.
Context {R : Type} `{Arith R} (B : Backend R).
Implicit Types s : State B.

#[local] Existing Instance frame_preorder.
#[local] Existing Instance session_preorder.




(** The trials [i .. i+a+b-1] are the trials [i .. i+a-1] followed by the
    trials [i+a .. i+a+b-1]. *)
Lemma leak_samples_app feat data pred normalized a b i s :
  leak_samples B feat data pred normalized (a + b) i s =
    match leak_samples B feat data pred normalized a i s with
    | (Ok vs1, s1) =>
        match leak_samples B feat data pred normalized b (i + a) s1 with
        | (Ok vs2, s2) => (Ok (vs1 ++ vs2), s2)
        | (Err e, s2) => (Err e, s2)
        end
    | (Err e, s1) => (Err e, s1)
    end.
Proof.
  revert i s. induction a as [|a IH]; intros i s.
  - simpl. unfold py_ret. rewrite Nat.add_0_r.
    by destruct (leak_samples B feat data pred normalized b i s) as [[vs|e] s2].
  - cbn [leak_samples Nat.add]. unfold py_bind, emit, modify, py_ret. simpl.
    destruct (calcLeak B feat data pred normalized _) as [[x|e] s1]; [|done].
    rewrite IH.
    destruct (leak_samples B feat data pred normalized a (S i) _)
      as [[vs1|e] s2]; [|done].
    replace (S i + a) with (i + S a) by lia.
    by destruct (leak_samples B feat data pred normalized b (i + S a) s2)
      as [[vs2|e] s3].
Qed.

(** X10. A trial that raises ends the whole measurement: when trial [k]
    (after [k] completed trials) fails with an exception,
    [getAmortizedLeakage] raises this exception, whatever the method (also
    an invalid one) and however many trials were asked for, in the state of
    the failure: no later trial starts, and the values of the completed
    trials are not returned. *)
Theorem X10_failed_trial_aborts_measurement
    (feat : list (list R)) (data pred : Captions B) (k n : nat)
    (method : string) (normalized : bool)
    s (p d : list (list Z)) s1 (vs : list R) s2 (e : PyExn) s3 :
  captionPreprocess B pred data s = (Ok (p, d), s1) ->
  leak_samples B feat d p normalized k 0 s1 = (Ok vs, s2) ->
  calcLeak B feat d p normalized (set_trace B (trace s2 ++ [PrintTrial k]) s2)
    = (Err e, s3) ->
  k < n ->
  getAmortizedLeakage B feat data pred n method normalized s = (Err e, s3).
Proof.
  intros Hpre Hdone Hfail Hk.
  rewrite (getAmortizedLeakage_samples B _ _ _ _ _ _ _ _ _ _ Hpre).
  replace n with (k + S (n - S k)) by lia.
  rewrite leak_samples_app, Hdone.
  cbn [leak_samples]. unfold py_bind at 1. unfold emit at 1, modify.
  simpl. unfold py_bind at 1. by rewrite Hfail.
Qed.

(** What [captionPreprocess] leaves: the vocabulary size and one more line
    of output. *)
Lemma captionPreprocess_state (model_captions human_captions : Captions B) s r s1 :
  captionPreprocess B model_captions human_captions s = (r, s1) ->
  exists (v : nat) t, s1 = set_vocab_size B (Some v) (set_trace B t s).
Proof.
  unfold captionPreprocess, py_bind, gets, emit, modify, py_ret.
  destruct (equalize_vocab B _ _ _). simpl. intros [= _ <-]. eauto.
Qed.

(** The final state of [getAmortizedLeakage] is the one the trials leave. *)
Lemma getAmortizedLeakage_final feat data pred n method normalized s p d s1 :
  captionPreprocess B pred data s = (Ok (p, d), s1) ->
  snd (getAmortizedLeakage B feat data pred n method normalized s) =
  snd (leak_samples B feat d p normalized n 0 s1).
Proof.
  intros Hpre. rewrite (getAmortizedLeakage_samples B _ _ _ _ _ _ _ _ _ _ Hpre).
  by destruct (leak_samples B feat d p normalized n 0 s1) as [[vs|e] s2].
Qed.

(** X11. The dictionary of constructor parameters that the caller passed
    in [model_params] is written to: after a call of [getAmortizedLeakage]
    with at least one trial, whatever its outcome, it is the dictionary it
    was before the call with the key "vocab_size" set to the vocabulary size
    of this call (an earlier value of the key is overwritten), and nothing
    else in it has changed.  With no trial it is untouched. *)
Theorem X11_vocab_size_written_into_params
    (feat : list (list R)) (data pred : Captions B) (n : nat)
    (method : string) (normalized : bool) s :
  (exists v : nat,
     vocab_size (snd (getAmortizedLeakage B feat data pred (S n) method normalized s))
       = Some v /\
     attacker_params
       (snd (getAmortizedLeakage B feat data pred (S n) method normalized s))
       = <["vocab_size" := Z.of_nat v]> (attacker_params s)) /\
  attacker_params (snd (getAmortizedLeakage B feat data pred 0 method normalized s))
    = attacker_params s.
Proof.
  destruct (captionPreprocess_total B pred data s) as (p & d & s1 & Hpre).
  destruct (captionPreprocess_state _ _ _ _ _ Hpre) as (v & t & Hs1).
  split.
  - exists v. rewrite (getAmortizedLeakage_final _ _ _ _ _ _ _ _ _ _ Hpre).
    destruct (leak_samples B feat d p normalized (S n) 0 s1) as [r s2] eqn:Hs.
    apply (leak_samples_injects B _ _ _ _ _ _ _ v) in Hs; [|by rewrite Hs1].
    simpl.
    eapply (reach_keeps B (fun s' =>
              vocab_size s' = Some v /\
              attacker_params s' = <["vocab_size" := Z.of_nat v]> (attacker_params s)));
      [|exact Hs|by rewrite Hs1].
    intros sa sb Hu [HIv HIp]. destruct Hu; simpl; try done.
    split; [done|]. rewrite HIv in *. simplify_eq.
    by rewrite HIp, insert_insert_eq.
  - rewrite (getAmortizedLeakage_final _ _ _ _ _ _ _ _ _ _ Hpre). simpl.
    by rewrite Hs1.
Qed.

(** X12. No method ever sets [model_attacker_trained]: after a call of
    [getAmortizedLeakage], whatever its outcome, the flag has the value it
    had before (False on an object as constructed), and the training
    parameters, the threshold, the device, the metric, the attacker class
    and the caption processor are those the object had before the call. *)
Theorem X12_configuration_is_never_written
    (feat : list (list R)) (data pred : Captions B) (n : nat)
    (method : string) (normalized : bool) s :
  let s' := snd (getAmortizedLeakage B feat data pred n method normalized s) in
  model_attacker_trained s' = model_attacker_trained s /\
  learning_rate s' = learning_rate s /\
  loss_function s' = loss_function s /\
  epochs s' = epochs s /\
  batch_size s' = batch_size s /\
  threshold s' = threshold s /\
  device s' = device s /\
  eval_metric s' = eval_metric s /\
  attacker_class s' = attacker_class s /\
  capProcessor s' = capProcessor s.
Proof.
  destruct (captionPreprocess_total B pred data s) as (p & d & s1 & Hpre).
  destruct (captionPreprocess_state _ _ _ _ _ Hpre) as (v & t & Hs1).
  cbv zeta. rewrite (getAmortizedLeakage_final _ _ _ _ _ _ _ _ _ _ Hpre).
  destruct (leak_samples B feat d p normalized n 0 s1) as [r s2] eqn:Hs.
  apply reach_leak_samples in Hs. simpl.
  eapply (reach_keeps B (fun s' =>
            model_attacker_trained s' = model_attacker_trained s /\
            learning_rate s' = learning_rate s /\
            loss_function s' = loss_function s /\
            epochs s' = epochs s /\
            batch_size s' = batch_size s /\
            threshold s' = threshold s /\
            device s' = device s /\
            eval_metric s' = eval_metric s /\
            attacker_class s' = attacker_class s /\
            capProcessor s' = capProcessor s));
    [|exact Hs|by rewrite Hs1].
  intros sa sb Hu HI. by destruct Hu.
Qed.

Lemma eval_loop_no_steps l x bs n start yp s :
  optimizer_step_batches (trace (snd (eval_loop B l x bs n start yp s)))
  = optimizer_step_batches (trace s).
Proof.
  revert start yp s. induction n as [|n IH]; intros start yp s; [done|].
  cbn [eval_loop]. unfold py_bind, deref, with_rng, emit, modify, lift_result.
  destruct (heap s !! l) as [m|]; [|done].
  destruct (forward B (net m) (training m) _ (rng s)) as [[out|e] g]; [|done].
  simpl. destruct (slice_assign yp start (start + bs) out) as [yp'|e].
  - rewrite IH. simpl. unfold optimizer_step_batches.
    by rewrite omap_app, app_nil_r.
  - simpl. unfold optimizer_step_batches. by rewrite omap_app, app_nil_r.
Qed.

(** X13. Scoring a model never changes a parameter: whatever its outcome,
    [calcLambda] leaves the parameters of every stored model as they were,
    creates and deletes no model, makes no optimisation step and leaves the
    attacker attributes alone; the only change to the store is that the
    model it was given is in evaluation mode afterwards (and stays so: the
    method does not restore the mode it found). *)
Theorem X13_scoring_changes_no_parameter
    (model : loc) (x : list (list Z)) (y : list (list R)) s :
  let s' := snd (calcLambda B model x y s) in
  (forall l, net <$> heap s' !! l = net <$> heap s !! l) /\
  (forall l, l <> model -> heap s' !! l = heap s !! l) /\
  training <$> heap s' !! model = (fun _ => false) <$> heap s !! model /\
  optimizer_step_batches (trace s') = optimizer_step_batches (trace s) /\
  attacker_D s' = attacker_D s /\ attacker_M s' = attacker_M s.
Proof.
  cbv zeta.
  destruct (calcLambda B model x y s) as [r s'] eqn:Hrun.
  destruct (preserves_calcLambda B _ _ _ _ _ _ Hrun) as (_ & [HD HM] & Hfr & _).
  pose proof (calcLambda_net B model x y s) as Hnet. rewrite Hrun in Hnet.
  simpl in *.
  split.
  { intros l. destruct (decide (l = model)) as [->|Hne]; [done|by rewrite Hfr]. }
  split; [done|].
  refine (conj _ (conj _ (conj HD HM))).
  - destruct (heap s !! model) as [ms|] eqn:Hs.
    + destruct (ceil_div (Z.of_nat (length x)) (batch_size s)) as [batches|e] eqn:Hceil.
      * rewrite (calcLambda_run B model x y s ms batches) in Hrun by done.
        pose proof (eval_loop_heap B model x (Z.to_nat (batch_size s))
                      (Z.to_nat batches) 0 (zeros_like y)
                      (set_heap B (<[model := Build_Module B (net ms) false]> (heap s)) s))
          as Hheap.
        destruct (eval_loop B model x _ _ 0 (zeros_like y) _) as [[yp|e] s2];
          injection Hrun as _ <-; simpl in Hheap; by rewrite Hheap, lookup_insert_eq.
      * rewrite (calcLambda_zero_division B model x y s ms e) in Hrun by done.
        injection Hrun as _ <-. simpl. by rewrite lookup_insert_eq.
    + rewrite calcLambda_dangling in Hrun by done. injection Hrun as _ <-.
      by rewrite Hs.
  - destruct (heap s !! model) as [ms|] eqn:Hs.
    + destruct (ceil_div (Z.of_nat (length x)) (batch_size s)) as [batches|e] eqn:Hceil.
      * rewrite (calcLambda_run B model x y s ms batches) in Hrun by done.
        pose proof (eval_loop_no_steps model x (Z.to_nat (batch_size s))
                      (Z.to_nat batches) 0 (zeros_like y)
                      (set_heap B (<[model := Build_Module B (net ms) false]> (heap s)) s))
          as Hsteps.
        destruct (eval_loop B model x _ _ 0 (zeros_like y) _) as [[yp|e] s2];
          injection Hrun as _ <-; exact Hsteps.
      * rewrite (calcLambda_zero_division B model x y s ms e) in Hrun by done.
        by injection Hrun as _ <-.
    + rewrite calcLambda_dangling in Hrun by done. by injection Hrun as _ <-.
Qed.

End WholeRuns.

(** X14. On IEEE single precision, a call of [getAmortizedLeakage] with
    [num_trials = 0] is accepted: it runs no trial (the store and the random
    generator are as before the call, no model has been constructed) and
    returns NaN for both the mean and the standard deviation, with a trial
    count of 0. *)
Theorem X14_no_trials_gives_nan (B : Backend binary32)
    (feat : list (list binary32)) (data pred : Captions B) (normalized : bool)
    (s : State B) :
  fst (getAmortizedLeakage B feat data pred 0 "mean" normalized s)
    = Ok (MeanResult S754_nan S754_nan 0) /\
  heap (snd (getAmortizedLeakage B feat data pred 0 "mean" normalized s)) = heap s /\
  rng (snd (getAmortizedLeakage B feat data pred 0 "mean" normalized s)) = rng s /\
  attacker_D (snd (getAmortizedLeakage B feat data pred 0 "mean" normalized s))
    = attacker_D s.
Proof.
  destruct (captionPreprocess_total B pred data s) as (p & d & s1 & Hpre).
  destruct (captionPreprocess_state B _ _ _ _ _ Hpre) as (v & t & Hs1).
  rewrite (getAmortizedLeakage_samples B _ _ _ _ _ _ _ _ _ _ Hpre).
  simpl. rewrite Hs1. done.
Qed.

(** ** Measurements do not depend on what earlier calls left *)

Section Independence.
Context {R : Type} `{Arith R} (B : Backend R).
Implicit Types s t : State B.

Lemma agree_bind {A C} (P : State B -> State B -> Prop)
    (m m' : Py (State B) A) (k k' : A -> Py (State B) C) :
  agree B P m m' -> (forall a, agree B P (k a) (k' a)) ->
  agree B P (py_bind m k) (py_bind m' k').
Proof.
  intros Hm Hk s t HP. destruct (Hm s t HP) as [Hr HP']. unfold py_bind.
  destruct (m s) as [[a|e] s1], (m' t) as [[a'|e'] t1]; simpl in *;
    try discriminate.
  - injection Hr as <-. by apply Hk.
  - by injection Hr as <-.
Qed.

Lemma agree_ret {A} (P : State B -> State B -> Prop) (a : A) :
  agree B P (py_ret a) (py_ret a).
Proof. by intros s t HP. Qed.

Lemma agree_raise {A} (P : State B -> State B -> Prop) e :
  agree B P (@raise _ A e) (raise e).
Proof. by intros s t HP. Qed.

Lemma agree_lift {A} (P : State B -> State B -> Prop) (x : Result A) :
  agree B P (lift_result x) (lift_result x).
Proof. by intros s t HP. Qed.

Lemma agree_gets {A} (P : State B -> State B -> Prop) (f : State B -> A) :
  (forall s t, P s t -> f s = f t) -> agree B P (gets f) (gets f).
Proof. intros Hf s t HP. unfold gets. simpl. by rewrite (Hf s t HP). Qed.

Lemma agree_deref l l' : agree B (sim_at B l l') (deref B l) (deref B l').
Proof.
  intros s t HP. pose proof HP as [_ Hh]. unfold deref. rewrite Hh.
  by destruct (heap t !! l').
Qed.

Lemma agree_with_rng {A} l l' (f : Rng B -> Result A * Rng B) :
  agree B (sim_at B l l') (with_rng B f) (with_rng B f).
Proof.
  intros s t [(Hc & Hv & Hg) Hh]. unfold with_rng. rewrite Hg.
  by destruct (f (rng t)) as [r g].
Qed.

Lemma agree_store l l' m : agree B (sim_at B l l') (store B l m) (store B l' m).
Proof.
  intros s t [Hs Hh]. unfold store, modify. simpl. split; [done|].
  split; [done|]. simpl. by rewrite !lookup_insert_eq.
Qed.

Lemma agree_emit l l' e e' : agree B (sim_at B l l') (emit B e) (emit B e').
Proof. by intros s t [Hs Hh]. Qed.

Lemma agree_set_training l l' b :
  agree B (sim_at B l l') (set_training B l b) (set_training B l' b).
Proof.
  apply agree_bind; [apply agree_deref|]. intros m. apply agree_store.
Qed.

Lemma agree_optimizer_step l l' crit opt xb yb :
  agree B (sim_at B l l') (optimizer_step B l crit opt xb yb)
    (optimizer_step B l' crit opt xb yb).
Proof.
  unfold optimizer_step.
  apply agree_bind; [apply agree_deref|]. intros m.
  apply agree_bind; [apply agree_with_rng|]. intros [[n' opt'] loss].
  apply agree_bind; [apply agree_store|]. intros _.
  apply agree_bind; [apply agree_emit|]. intros _.
  apply agree_ret.
Qed.

Lemma agree_batch_loop l l' crit x y bs n start opt rl :
  agree B (sim_at B l l') (batch_loop B l crit x y bs n start opt rl)
    (batch_loop B l' crit x y bs n start opt rl).
Proof.
  revert start opt rl. induction n as [|n IH]; intros start opt rl; simpl.
  - apply agree_ret.
  - apply agree_bind; [apply agree_optimizer_step|]. intros r. apply IH.
Qed.

Lemma sim_at_batch_size l l' s t : sim_at B l l' s t -> batch_size s = batch_size t.
Proof. by intros [[(_ & _ & _ & _ & _ & Hbs & _) _] _]. Qed.

Lemma agree_train_epoch l l' crit batches epoch x y opt :
  agree B (sim_at B l l') (train_epoch B l crit batches epoch x y opt)
    (train_epoch B l' crit batches epoch x y opt).
Proof.
  unfold train_epoch.
  apply agree_bind; [apply agree_with_rng|]. intros perm.
  apply agree_bind; [apply agree_lift|]. intros x'.
  apply agree_bind; [apply agree_lift|]. intros y'.
  apply agree_bind; [apply agree_gets, sim_at_batch_size|]. intros bs.
  apply agree_bind; [apply agree_batch_loop|]. intros r.
  apply agree_bind; [|intros _; apply agree_ret].
  repeat case_decide; [apply agree_raise|apply agree_emit|apply agree_ret].
Qed.

Lemma agree_epoch_loop l l' crit batches n epoch x y opt :
  agree B (sim_at B l l') (epoch_loop B l crit batches n epoch x y opt)
    (epoch_loop B l' crit batches n epoch x y opt).
Proof.
  revert epoch x y opt. induction n as [|n IH]; intros epoch x y opt; simpl.
  - apply agree_ret.
  - apply agree_bind; [apply agree_train_epoch|]. intros [[x' y'] opt'].
    apply IH.
Qed.

Lemma agree_eval_loop l l' x bs n start y_pred :
  agree B (sim_at B l l') (eval_loop B l x bs n start y_pred)
    (eval_loop B l' x bs n start y_pred).
Proof.
  revert start y_pred. induction n as [|n IH]; intros start y_pred; simpl.
  - apply agree_ret.
  - apply agree_bind; [apply agree_deref|]. intros m.
    apply agree_bind; [apply agree_with_rng|]. intros out.
    apply agree_bind; [apply agree_emit|]. intros _.
    apply agree_bind; [apply agree_lift|]. intros y'.
    apply IH.
Qed.

Lemma agree_calcLambda l l' x y :
  agree B (sim_at B l l') (calcLambda B l x y) (calcLambda B l' x y).
Proof.
  unfold calcLambda.
  apply agree_bind; [apply agree_set_training|]. intros _.
  apply agree_bind; [apply agree_gets, sim_at_batch_size|]. intros bs.
  apply agree_bind; [apply agree_lift|]. intros batches.
  apply agree_bind; [apply agree_eval_loop|]. intros yp.
  apply agree_bind.
  { apply agree_gets. by intros s t [[(_ & _ & _ & _ & _ & _ & Hth & _) _] _]. }
  intros th.
  apply agree_bind.
  { apply agree_gets. by intros s t [[(_ & _ & _ & _ & _ & _ & _ & Hm & _) _] _]. }
  intros metric. apply agree_ret.
Qed.

(** What [train] does once the attacker has been selected. *)
Lemma agree_train_body l l' (x : list (list Z)) (y : list (list R)) mode :
  agree B (sim_at B l l')
    (set_training B l true ;;;
     name <- gets loss_function ;;
     criterion <- (match loss_functions !! name with
                   | Some c => py_ret c
                   | None => raise (KeyError name)
                   end) ;;
     m <- deref B l ;;
     lr <- gets learning_rate ;;
     bs <- gets batch_size ;;
     batches <- lift_result (ceil_div (Z.of_nat (length x)) bs) ;;
     emit B (PrintTrainingActivated mode) ;;;
     ep <- gets epochs ;;
     epoch_loop B l criterion batches (Z.to_nat ep) 1 x y
       (StepLR B (Adam B (net m) lr) 10 (fdiv (fof_Z 1) (fof_Z 10))) ;;;
     emit B PrintTrainingCompleted)
    (set_training B l' true ;;;
     name <- gets loss_function ;;
     criterion <- (match loss_functions !! name with
                   | Some c => py_ret c
                   | None => raise (KeyError name)
                   end) ;;
     m <- deref B l' ;;
     lr <- gets learning_rate ;;
     bs <- gets batch_size ;;
     batches <- lift_result (ceil_div (Z.of_nat (length x)) bs) ;;
     emit B (PrintTrainingActivated mode) ;;;
     ep <- gets epochs ;;
     epoch_loop B l' criterion batches (Z.to_nat ep) 1 x y
       (StepLR B (Adam B (net m) lr) 10 (fdiv (fof_Z 1) (fof_Z 10))) ;;;
     emit B PrintTrainingCompleted).
Proof.
  apply agree_bind; [apply agree_set_training|]. intros _.
  apply agree_bind.
  { apply agree_gets. by intros s t [[(_ & _ & _ & Hl & _) _] _]. }
  intros name.
  apply agree_bind.
  { destruct (loss_functions !! name); [apply agree_ret|apply agree_raise]. }
  intros crit.
  apply agree_bind; [apply agree_deref|]. intros m.
  apply agree_bind.
  { apply agree_gets. by intros s t [[(_ & _ & Hlr & _) _] _]. }
  intros lr.
  apply agree_bind; [apply agree_gets, sim_at_batch_size|]. intros bs.
  apply agree_bind; [apply agree_lift|]. intros batches.
  apply agree_bind; [apply agree_emit|]. intros _.
  apply agree_bind.
  { apply agree_gets. by intros s t [[(_ & _ & _ & _ & He & _) _] _]. }
  intros ep.
  apply agree_bind; [apply agree_epoch_loop|]. intros _.
  apply agree_emit.
Qed.

(** The constructor parameters that [defineModel] passes on. *)
Lemma same_config_kwargs s t (v : nat) :
  same_config B s t ->
  <["vocab_size" := Z.of_nat v]> (attacker_params s)
  = <["vocab_size" := Z.of_nat v]> (attacker_params t).
Proof.
  intros (_ & Hp & _).
  rewrite <- (insert_delete_eq (attacker_params s)),
          <- (insert_delete_eq (attacker_params t)).
  by rewrite Hp.
Qed.

Lemma defineModel_constructor_raises s (v : nat) e g :
  vocab_size s = Some v ->
  attacker_class s (<["vocab_size" := Z.of_nat v]> (attacker_params s)) (rng s)
    = (Err e, g) ->
  defineModel B s =
    (Err e, set_rng B g
              (set_attacker_params B
                 (<["vocab_size" := Z.of_nat v]> (attacker_params s)) s)).
Proof.
  intros Hv Hc.
  unfold defineModel, py_bind, gets, modify, with_rng. simpl.
  rewrite Hv. simpl. by rewrite Hc.
Qed.

(** From the same setup, [defineModel] has the same outcome on both sides
    and, when it succeeds, leaves equal models under both attributes. *)
Lemma defineModel_sim s t :
  same_setup B s t ->
  fst (defineModel B s) = fst (defineModel B t) /\
  same_setup B (snd (defineModel B s)) (snd (defineModel B t)) /\
  (fst (defineModel B s) = Ok tt ->
   exists d m d' m',
     attacker_D (snd (defineModel B s)) = Some d /\
     attacker_M (snd (defineModel B s)) = Some m /\
     attacker_D (snd (defineModel B t)) = Some d' /\
     attacker_M (snd (defineModel B t)) = Some m' /\
     heap (snd (defineModel B s)) !! d = heap (snd (defineModel B t)) !! d' /\
     heap (snd (defineModel B s)) !! m = heap (snd (defineModel B t)) !! m').
Proof.
  intros (Hc & Hv & Hg).
  destruct (vocab_size s) as [v|] eqn:Hvs.
  - pose proof (same_config_kwargs s t v Hc) as Hkw.
    pose proof Hc as (Hcl & Hdel & Hrest).
    destruct (attacker_class s (<["vocab_size" := Z.of_nat v]> (attacker_params s))
                (rng s)) as [[n0|e] g] eqn:Hcs.
    + assert (Hct : attacker_class t
                      (<["vocab_size" := Z.of_nat v]> (attacker_params t)) (rng t)
                    = (Ok n0, g)) by (by rewrite <- Hcl, <- Hkw, <- Hg).
      destruct (defineModel_spec B s v n0 g Hvs Hcs)
        as (s1 & d & m & Hdef & HD & HM & _ & _ & _ & Hhd & Hhm & _ & Hses & _
            & Hg1 & Hp1).
      destruct (defineModel_spec B t v n0 g (eq_sym Hv) Hct)
        as (t1 & d' & m' & Hdef' & HD' & HM' & _ & _ & _ & Hhd' & Hhm' & _ & Hses'
            & _ & Hg1' & Hp1').
      rewrite Hdef, Hdef'. simpl.
      split; [done|]. split.
      * destruct Hses as [(? & ? & ? & ? & ? & ? & ? & ?) _].
        destruct Hses' as [(? & ? & ? & ? & ? & ? & ? & ?) _].
        destruct Hrest as (? & ? & ? & ? & ? & ? & ? & ?).
        assert (Hcp : capProcessor s1 = capProcessor t1 /\ device s1 = device t1).
        { pose proof (reach_defineModel B _ _ _ Hdef) as Hr.
          pose proof (reach_defineModel B _ _ _ Hdef') as Hr'.
          assert (Hl : capProcessor s1 = capProcessor s /\ device s1 = device s).
          { eapply (reach_keeps B (fun s' => capProcessor s' = capProcessor s /\
                                             device s' = device s));
              [|exact Hr|done]. intros sa sb Hu HI. by destruct Hu. }
          assert (Hr2 : capProcessor t1 = capProcessor t /\ device t1 = device t).
          { eapply (reach_keeps B (fun s' => capProcessor s' = capProcessor t /\
                                             device s' = device t));
              [|exact Hr'|done]. intros sa sb Hu HI. by destruct Hu. }
          destruct Hl, Hr2. split; congruence. }
        destruct Hcp as [Hcp Hdev].
        split; [|split; congruence].
        unfold same_config. rewrite Hp1, Hp1', Hkw.
        repeat (split; [congruence|]). done.
      * intros _. exists d, m, d', m'.
        repeat (split; [done|]). split; congruence.
    + assert (Hct : attacker_class t
                      (<["vocab_size" := Z.of_nat v]> (attacker_params t)) (rng t)
                    = (Err e, g)) by (by rewrite <- Hcl, <- Hkw, <- Hg).
      rewrite (defineModel_constructor_raises s v e g Hvs Hcs),
        (defineModel_constructor_raises t v e g (eq_sym Hv) Hct). simpl.
      split; [done|]. split; [|discriminate].
      split; [|simpl; split; congruence]. unfold same_config. simpl. rewrite Hkw.
      destruct Hrest as (? & ? & ? & ? & ? & ? & ? & ?). done.
  - assert (Hs : defineModel B s = (Err (AttributeError "vocab_size"), s)).
    { unfold defineModel, py_bind, gets. simpl. by rewrite Hvs. }
    assert (Ht : defineModel B t = (Err (AttributeError "vocab_size"), t)).
    { unfold defineModel, py_bind, gets. simpl. by rewrite <- Hv. }
    rewrite Hs, Ht. simpl.
    split; [done|]. split; [|discriminate]. split; [done|]. split; congruence.
Qed.

(** From the same setup, [train] has the same outcome on both sides and,
    when it succeeds, leaves equal models under the attribute it trained. *)
Lemma train_sim x y mode s t :
  same_setup B s t ->
  fst (train B x y mode s) = fst (train B x y mode t) /\
  same_setup B (snd (train B x y mode s)) (snd (train B x y mode t)) /\
  (fst (train B x y mode s) = Ok tt ->
   exists l l',
     getattr_attacker B mode (snd (train B x y mode s))
       = (Ok l, snd (train B x y mode s)) /\
     getattr_attacker B mode (snd (train B x y mode t))
       = (Ok l', snd (train B x y mode t)) /\
     heap (snd (train B x y mode s)) !! l = heap (snd (train B x y mode t)) !! l').
Proof.
  intros Hsim.
  destruct (defineModel_sim s t Hsim) as (Hr & Hsetup & Hpair).
  destruct (defineModel B s) as [[[]|e] s1] eqn:Hdef;
    destruct (defineModel B t) as [[[]|e'] t1] eqn:Hdef'; simpl in *;
    try discriminate.
  - destruct (Hpair eq_refl) as (d & m & d' & m' & HD & HM & HD' & HM' & Hhd & Hhm).
    unfold train.
    rewrite (py_bind_run _ _ _ _ _ Hdef), (py_bind_run _ _ _ _ _ Hdef').
    assert (Hsel : (exists l l',
                      getattr_attacker B mode s1 = (Ok l, s1) /\
                      getattr_attacker B mode t1 = (Ok l', t1) /\
                      sim_at B l l' s1 t1) \/
                   (getattr_attacker B mode s1
                      = (Err (AttributeError ("attacker_" +:+ mode)), s1) /\
                    getattr_attacker B mode t1
                      = (Err (AttributeError ("attacker_" +:+ mode)), t1))).
    { unfold getattr_attacker. case_decide.
      - left. exists d, d'. by rewrite HD, HD'.
      - case_decide.
        + left. exists m, m'. by rewrite HM, HM'.
        + by right. }
    destruct Hsel as [(l & l' & Hget & Hget' & Hat)|[Hget Hget']].
    + rewrite (py_bind_run _ _ _ _ _ Hget), (py_bind_run _ _ _ _ _ Hget').
      destruct (agree_train_body l l' x y mode s1 t1 Hat) as [Hres [Hset Hheap]].
      split; [exact Hres|]. split; [exact Hset|].
      intros _. exists l, l'.
      match goal with
      | |- context [getattr_attacker B mode (snd (?body s1))] =>
          destruct (body s1) as [r2 s2] eqn:Hbody
      end.
      match goal with
      | |- context [getattr_attacker B mode (snd (?body t1))] =>
          destruct (body t1) as [r2' t2] eqn:Hbody'
      end.
      simpl in *.
      apply (preserves_train_body B l x y mode) in Hbody.
      apply (preserves_train_body B l' x y mode) in Hbody'.
      destruct Hbody as (_ & [HD2 HM2] & _). destruct Hbody' as (_ & [HD2' HM2'] & _).
      refine (conj _ (conj _ Hheap)).
      * unfold getattr_attacker in *. rewrite HD2, HM2. 
        repeat case_decide; by destruct (attacker_D s1), (attacker_M s1);
          simplify_eq.
      * unfold getattr_attacker in *. rewrite HD2', HM2'.
        repeat case_decide; by destruct (attacker_D t1), (attacker_M t1);
          simplify_eq.
    + rewrite (py_bind_err _ _ _ _ _ Hget), (py_bind_err _ _ _ _ _ Hget'). simpl.
      split; [done|]. split; [done|]. discriminate.
  - injection Hr as <-. unfold train.
    rewrite (py_bind_err _ _ _ _ _ Hdef), (py_bind_err _ _ _ _ _ Hdef'). simpl.
    split; [done|]. split; [done|]. discriminate.
Qed.

Lemma calcLeak_sim feat data pred normalized s t :
  same_setup B s t ->
  fst (calcLeak B feat data pred normalized s)
  = fst (calcLeak B feat data pred normalized t) /\
  same_setup B (snd (calcLeak B feat data pred normalized s))
    (snd (calcLeak B feat data pred normalized t)).
Proof.
  intros Hsim. unfold calcLeak.
  destruct (train_sim data feat "D" s t Hsim) as (Hr & Hset & Hsel).
  destruct (train B data feat "D" s) as [[[]|e] s1] eqn:Htr;
    destruct (train B data feat "D" t) as [[[]|e'] t1] eqn:Htr'; simpl in *;
    try discriminate.
  2:{ injection Hr as <-.
      by rewrite (py_bind_err _ _ _ _ _ Htr), (py_bind_err _ _ _ _ _ Htr'). }
  destruct (Hsel eq_refl) as (d & d' & Hget & Hget' & Hheap).
  rewrite (py_bind_run _ _ _ _ _ Htr), (py_bind_run _ _ _ _ _ Htr'),
    (py_bind_run _ _ _ _ _ Hget), (py_bind_run _ _ _ _ _ Hget').
  destruct (agree_calcLambda d d' data feat s1 t1 (conj Hset Hheap))
    as [Hr2 [Hset2 _]].
  destruct (calcLambda B d data feat s1) as [[ld|e] s2] eqn:Hlam;
    destruct (calcLambda B d' data feat t1) as [[ld'|e'] t2] eqn:Hlam';
    simpl in *; try discriminate.
  2:{ injection Hr2 as <-.
      by rewrite (py_bind_err _ _ _ _ _ Hlam), (py_bind_err _ _ _ _ _ Hlam'). }
  injection Hr2 as <-.
  rewrite (py_bind_run _ _ _ _ _ Hlam), (py_bind_run _ _ _ _ _ Hlam').
  destruct (train_sim pred feat "M" s2 t2 Hset2) as (Hr3 & Hset3 & Hsel3).
  destruct (train B pred feat "M" s2) as [[[]|e] s3] eqn:Htr3;
    destruct (train B pred feat "M" t2) as [[[]|e'] t3] eqn:Htr3'; simpl in *;
    try discriminate.
  2:{ injection Hr3 as <-.
      by rewrite (py_bind_err _ _ _ _ _ Htr3), (py_bind_err _ _ _ _ _ Htr3'). }
  destruct (Hsel3 eq_refl) as (m & m' & HgetM & HgetM' & HheapM).
  rewrite (py_bind_run _ _ _ _ _ Htr3), (py_bind_run _ _ _ _ _ Htr3'),
    (py_bind_run _ _ _ _ _ HgetM), (py_bind_run _ _ _ _ _ HgetM').
  destruct (agree_calcLambda m m' pred feat s3 t3 (conj Hset3 HheapM))
    as [Hr4 [Hset4 _]].
  destruct (calcLambda B m pred feat s3) as [[lm|e] s4] eqn:Hlam4;
    destruct (calcLambda B m' pred feat t3) as [[lm'|e'] t4] eqn:Hlam4';
    simpl in *; try discriminate.
  2:{ injection Hr4 as <-.
      by rewrite (py_bind_err _ _ _ _ _ Hlam4), (py_bind_err _ _ _ _ _ Hlam4'). }
  injection Hr4 as <-.
  rewrite (py_bind_run _ _ _ _ _ Hlam4), (py_bind_run _ _ _ _ _ Hlam4').
  unfold py_bind, emit, modify, py_ret. simpl. done.
Qed.

Lemma leak_samples_step feat data pred normalized n i s :
  leak_samples B feat data pred normalized (S n) i s =
    match calcLeak B feat data pred normalized
            (set_trace B (trace s ++ [PrintTrial i]) s) with
    | (Ok v, s1) =>
        match leak_samples B feat data pred normalized n (S i)
                (set_trace B (trace s1 ++ [PrintTrialVal i v]) s1) with
        | (Ok vs, s2) => (Ok (v :: vs), s2)
        | (Err e, s2) => (Err e, s2)
        end
    | (Err e, s1) => (Err e, s1)
    end.
Proof.
  cbn [leak_samples]. unfold py_bind, emit, modify, py_ret. simpl.
  destruct (calcLeak B feat data pred normalized _) as [[v|e] s1]; [|done].
  by destruct (leak_samples B feat data pred normalized n (S i) _) as [[vs|e] s2].
Qed.

Lemma leak_samples_sim feat data pred normalized n i s t :
  same_setup B s t ->
  fst (leak_samples B feat data pred normalized n i s)
  = fst (leak_samples B feat data pred normalized n i t) /\
  same_setup B (snd (leak_samples B feat data pred normalized n i s))
    (snd (leak_samples B feat data pred normalized n i t)).
Proof.
  revert i s t. induction n as [|n IH]; intros i s t Hsim; [done|].
  rewrite !leak_samples_step.
  assert (Hsim' : same_setup B (set_trace B (trace s ++ [PrintTrial i]) s)
                    (set_trace B (trace t ++ [PrintTrial i]) t)) by done.
  destruct (calcLeak_sim feat data pred normalized _ _ Hsim') as [Hr Hset].
  destruct (calcLeak B feat data pred normalized
              (set_trace B (trace s ++ [PrintTrial i]) s)) as [[v|e] s1];
    destruct (calcLeak B feat data pred normalized
                (set_trace B (trace t ++ [PrintTrial i]) t)) as [[v'|e'] t1];
    simpl in Hr, Hset; try discriminate.
  2:{ by injection Hr as <-. }
  injection Hr as <-.
  assert (Hsim2 : same_setup B (set_trace B (trace s1 ++ [PrintTrialVal i v]) s1)
                    (set_trace B (trace t1 ++ [PrintTrialVal i v]) t1)) by done.
  destruct (IH (S i) _ _ Hsim2) as [Hr2 Hset2].
  destruct (leak_samples B feat data pred normalized n (S i)
              (set_trace B (trace s1 ++ [PrintTrialVal i v]) s1)) as [[vs|e] s2];
    destruct (leak_samples B feat data pred normalized n (S i)
                (set_trace B (trace t1 ++ [PrintTrialVal i v]) t1)) as [[vs'|e'] t2];
    simpl in Hr2, Hset2; try discriminate; simpl; by simplify_eq.
Qed.

(** X15. A measurement depends on the object only through its
    configuration and the state of the random generator: from two objects
    configured alike and with the generator in the same state,
    [getAmortizedLeakage] on the same inputs has the same outcome (the same
    statistics, or the same exception) and leaves the generator in the same
    state, whatever models, attacker attributes, vocabulary size and
    "vocab_size" parameter earlier calls have left on either object.  The
    same holds for a single [calcLeak] when the vocabulary sizes agree. *)
Theorem X15_measurement_ignores_earlier_calls
    (feat : list (list R)) (data pred : Captions B) (n : nat)
    (method : string) (normalized : bool) s t :
  same_config B s t -> rng s = rng t ->
  fst (getAmortizedLeakage B feat data pred n method normalized s)
  = fst (getAmortizedLeakage B feat data pred n method normalized t) /\
  rng (snd (getAmortizedLeakage B feat data pred n method normalized s))
  = rng (snd (getAmortizedLeakage B feat data pred n method normalized t)) /\
  (vocab_size s = vocab_size t ->
   forall feat' data' pred' normalized',
     fst (calcLeak B feat' data' pred' normalized' s)
     = fst (calcLeak B feat' data' pred' normalized' t) /\
     rng (snd (calcLeak B feat' data' pred' normalized' s))
     = rng (snd (calcLeak B feat' data' pred' normalized' t))).
Proof.
  intros Hc Hg.
  assert (Hpre : exists p d s1 t1,
            captionPreprocess B pred data s = (Ok (p, d), s1) /\
            captionPreprocess B pred data t = (Ok (p, d), t1) /\
            same_setup B s1 t1).
  { pose proof Hc as (? & ? & ? & ? & ? & ? & ? & ? & Hcp & ?).
    unfold captionPreprocess, py_bind, gets, emit, modify, py_ret.
    rewrite <- Hcp.
    destruct (equalize_vocab B _ _ _) as [hc mc]. simpl.
    eexists _, _, _, _. split; [reflexivity|]. split; [reflexivity|].
    done. }
  destruct Hpre as (p & d & s1 & t1 & Hs1 & Ht1 & Hsim).
  rewrite (getAmortizedLeakage_samples B _ _ _ _ _ _ _ _ _ _ Hs1),
    (getAmortizedLeakage_samples B _ _ _ _ _ _ _ _ _ _ Ht1).
  destruct (leak_samples_sim feat d p normalized n 0 s1 t1 Hsim) as [Hr Hset].
  split; [|split].
  - destruct (leak_samples B feat d p normalized n 0 s1) as [[vs|e] s2];
      destruct (leak_samples B feat d p normalized n 0 t1) as [[vs'|e'] t2];
      simpl in *; try discriminate; by simplify_eq.
  - destruct (leak_samples B feat d p normalized n 0 s1) as [[vs|e] s2];
      destruct (leak_samples B feat d p normalized n 0 t1) as [[vs'|e'] t2];
      simpl in *; try discriminate; by destruct Hset as (_ & _ & ?).
  - intros Hv feat' data' pred' normalized'.
    destruct (calcLeak_sim feat' data' pred' normalized' s t (conj Hc (conj Hv Hg)))
      as [Hr' (_ & _ & Hg')].
    done.
Qed.

End Independence.

(** ** The further properties on the concrete instance *)

Lemma X1_epoch_keeps_pairs_aligned_witness :
  (0 < batch_size toy_defined)%Z /\
  ceil_div (Z.of_nat (length toy_x3)) (batch_size toy_defined) = Ok 2%Z /\
  train_epoch toy_backend 1%positive BCELoss 2 1 toy_x3 toy_y3 tt toy_defined
    = (Ok ([[3]; [2]; [1]]%Z, [[fof_Z 1]; [fof_Z 0]; [fof_Z 1]], tt),
       toy_after_epoch) /\
  exists pl,
    optimizer_step_pairs (trace toy_after_epoch)
      = optimizer_step_pairs (trace toy_defined) ++ pl /\
    Permutation pl (zip toy_x3 (take (length toy_x3) toy_y3)) /\
    length pl = length toy_x3 /\
    length toy_x3 <= length toy_y3.
Proof.
  assert (Hbs : (0 < batch_size toy_defined)%Z) by (vm_compute; reflexivity).
  assert (Hceil : ceil_div (Z.of_nat (length toy_x3)) (batch_size toy_defined)
                  = Ok 2%Z) by (vm_compute; reflexivity).
  assert (Hrun : train_epoch toy_backend 1%positive BCELoss 2 1 toy_x3 toy_y3 tt
                   toy_defined
                 = (Ok ([[3]; [2]; [1]]%Z, [[fof_Z 1]; [fof_Z 0]; [fof_Z 1]], tt),
                    toy_after_epoch))
    by (unfold toy_after_epoch; apply run_eta; vm_compute; reflexivity).
  refine (conj Hbs (conj Hceil (conj Hrun _))).
  exact (X1_epoch_keeps_pairs_aligned toy_backend 1%positive BCELoss 2 1
           toy_x3 toy_y3 tt toy_defined _ _ _ toy_after_epoch
           toy_randperm_permutation Hbs Hceil Hrun).
Defined.

Lemma X2_train_steps_and_pairs_witness :
  vocab_size toy_s0 = Some 1 /\
  attacker_class toy_s0 (<["vocab_size" := Z.of_nat 1]> (attacker_params toy_s0))
    (rng toy_s0) = (Ok 0, 1) /\
  loss_functions !! loss_function toy_s0 = Some BCELoss /\
  (0 < batch_size toy_s0)%Z /\
  ceil_div (Z.of_nat (length toy_captions)) (batch_size toy_s0) = Ok 1%Z /\
  train toy_backend toy_captions toy_feat "D" toy_s0 = (Ok tt, toy_s1) /\
  exists pl,
    optimizer_step_pairs (trace toy_s1)
      = optimizer_step_pairs (trace toy_s0) ++ pl /\
    Permutation pl
      (concat (replicate (Z.to_nat (epochs toy_s0)) (zip toy_captions toy_feat))) /\
    length (optimizer_step_batches (trace toy_s1))
      = length (optimizer_step_batches (trace toy_s0))
        + Z.to_nat (epochs toy_s0) * Z.to_nat 1.
Proof.
  assert (Hv : vocab_size toy_s0 = Some 1) by (vm_compute; reflexivity).
  assert (Hc : attacker_class toy_s0
                 (<["vocab_size" := Z.of_nat 1]> (attacker_params toy_s0))
                 (rng toy_s0) = (Ok 0, 1)) by (vm_compute; reflexivity).
  assert (Hloss : loss_functions !! loss_function toy_s0 = Some BCELoss)
    by (vm_compute; reflexivity).
  assert (Hbs : (0 < batch_size toy_s0)%Z) by (vm_compute; reflexivity).
  assert (Hceil : ceil_div (Z.of_nat (length toy_captions)) (batch_size toy_s0)
                  = Ok 1%Z) by (vm_compute; reflexivity).
  assert (Hrun : train toy_backend toy_captions toy_feat "D" toy_s0 = (Ok tt, toy_s1))
    by (unfold toy_s1; apply run_eta; vm_compute; reflexivity).
  refine (conj Hv (conj Hc (conj Hloss (conj Hbs (conj Hceil (conj Hrun _)))))).
  destruct (X2_train_steps_and_pairs toy_backend toy_captions toy_feat "D"
              toy_s0 1 0 1 BCELoss 1 toy_s1 toy_randperm_permutation Hv Hc
              (or_introl eq_refl) Hloss Hbs Hceil Hrun)
    as (pl & Hpairs & Hperm & Hcount & _).
  exists pl. exact (conj Hpairs (conj Hperm Hcount)).
Defined.

Lemma X3_train_on_empty_dataset_witness :
  vocab_size toy_five = Some 1 /\
  attacker_class toy_five (<["vocab_size" := Z.of_nat 1]> (attacker_params toy_five))
    (rng toy_five) = (Ok 0, 1) /\
  loss_functions !! loss_function toy_five = Some BCELoss /\
  batch_size toy_five <> 0%Z /\
  (5 <= epochs toy_five)%Z /\
  fst (train toy_backend [] toy_feat "D" toy_five) = Err ZeroDivisionError /\
  optimizer_step_batches (trace (snd (train toy_backend [] toy_feat "D" toy_five)))
    = optimizer_step_batches (trace toy_five).
Proof.
  assert (Hv : vocab_size toy_five = Some 1) by reflexivity.
  assert (Hc : attacker_class toy_five
                 (<["vocab_size" := Z.of_nat 1]> (attacker_params toy_five))
                 (rng toy_five) = (Ok 0, 1)) by reflexivity.
  assert (Hloss : loss_functions !! loss_function toy_five = Some BCELoss)
    by (vm_compute; reflexivity).
  assert (Hbs : batch_size toy_five <> 0%Z) by discriminate.
  assert (Hep : (5 <= epochs toy_five)%Z) by (simpl; lia).
  refine (conj Hv (conj Hc (conj Hloss (conj Hbs (conj Hep _))))).
  destruct (X3_train_on_empty_dataset toy_backend toy_feat "D" toy_five 1 0 1
              BCELoss toy_randperm_permutation Hv Hc (or_introl eq_refl) Hloss Hbs)
    as (Hfail & _ & Hsteps).
  exact (conj (Hfail Hep) Hsteps).
Defined.

Lemma X4_zero_batch_size_witness :
  batch_size toy_zero = 0%Z /\
  vocab_size toy_zero = Some 1 /\
  attacker_class toy_zero (<["vocab_size" := Z.of_nat 1]> (attacker_params toy_zero))
    (rng toy_zero) = (Ok 1, 2) /\
  loss_functions !! loss_function toy_zero = Some BCELoss /\
  net <$> heap toy_zero !! 1%positive = Some (0 : Net toy_backend) /\
  (exists s' l,
     train toy_backend toy_captions toy_feat "D" toy_zero
       = (Err ZeroDivisionError, s') /\
     heap s' !! l = Some (Build_Module toy_backend 1 true) /\
     trace s' = trace toy_zero) /\
  (exists s',
     calcLambda toy_backend 1%positive toy_captions toy_feat toy_zero
       = (Err ZeroDivisionError, s') /\
     net <$> heap s' !! 1%positive = Some (0 : Net toy_backend) /\
     trace s' = trace toy_zero).
Proof.
  assert (Hbs : batch_size toy_zero = 0%Z) by (vm_compute; reflexivity).
  assert (Hv : vocab_size toy_zero = Some 1) by (vm_compute; reflexivity).
  assert (Hc : attacker_class toy_zero
                 (<["vocab_size" := Z.of_nat 1]> (attacker_params toy_zero))
                 (rng toy_zero) = (Ok 1, 2)) by (vm_compute; reflexivity).
  assert (Hloss : loss_functions !! loss_function toy_zero = Some BCELoss)
    by (vm_compute; reflexivity).
  assert (Hnet : net <$> heap toy_zero !! 1%positive = Some (0 : Net toy_backend))
    by (vm_compute; reflexivity).
  refine (conj Hbs (conj Hv (conj Hc (conj Hloss (conj Hnet _))))).
  destruct (X4_zero_batch_size toy_backend toy_captions toy_feat toy_zero Hbs)
    as [Htrain Hlambda].
  split.
  - destruct (Htrain "D" 1 1 2 BCELoss Hv Hc (or_introl eq_refl) Hloss)
      as (s' & l & Hrun & _ & Hl & Htr).
    exists s', l. exact (conj Hrun (conj Hl Htr)).
  - destruct (heap toy_zero !! 1%positive) as [ms|] eqn:Hms; [|discriminate Hnet].
    destruct (Hlambda 1%positive ms Hms) as (s' & Hrun & Hl & Htr).
    exists s'. refine (conj Hrun (conj _ Htr)).
    exact (eq_trans (f_equal (fmap net) Hl) Hnet).
Defined.

Lemma X5_negative_batch_size_witness :
  (batch_size toy_negative < 0)%Z /\
  vocab_size toy_negative = Some 1 /\
  attacker_class toy_negative
    (<["vocab_size" := Z.of_nat 1]> (attacker_params toy_negative))
    (rng toy_negative) = (Ok 1, 2) /\
  loss_functions !! loss_function toy_negative = Some BCELoss /\
  net <$> heap toy_negative !! 1%positive = Some (0 : Net toy_backend) /\
  (exists l,
     heap (snd (train toy_backend toy_captions toy_feat "D" toy_negative)) !! l
       = Some (Build_Module toy_backend 1 true) /\
     optimizer_step_batches
       (trace (snd (train toy_backend toy_captions toy_feat "D" toy_negative)))
       = optimizer_step_batches (trace toy_negative)) /\
  (exists s',
     calcLambda toy_backend 1%positive toy_captions toy_feat toy_negative
       = (Ok (eval_metric toy_negative
                (if threshold toy_negative
                 then threshold_tensor (zeros_like toy_feat)
                 else zeros_like toy_feat) toy_feat), s') /\
     trace s' = trace toy_negative).
Proof.
  assert (Hbs : (batch_size toy_negative < 0)%Z) by (vm_compute; reflexivity).
  assert (Hv : vocab_size toy_negative = Some 1) by (vm_compute; reflexivity).
  assert (Hc : attacker_class toy_negative
                 (<["vocab_size" := Z.of_nat 1]> (attacker_params toy_negative))
                 (rng toy_negative) = (Ok 1, 2)) by (vm_compute; reflexivity).
  assert (Hloss : loss_functions !! loss_function toy_negative = Some BCELoss)
    by (vm_compute; reflexivity).
  assert (Hnet : net <$> heap toy_negative !! 1%positive = Some (0 : Net toy_backend))
    by (vm_compute; reflexivity).
  refine (conj Hbs (conj Hv (conj Hc (conj Hloss (conj Hnet _))))).
  destruct (X5_negative_batch_size toy_backend toy_captions toy_feat toy_negative Hbs)
    as [Htrain Hlambda].
  split.
  - destruct (Htrain "D" 1 1 2 BCELoss _ _ Hv Hc (or_introl eq_refl) Hloss
                (surjective_pairing _))
      as (l & _ & Hl & Hsteps).
    exists l. exact (conj Hl Hsteps).
  - destruct (heap toy_negative !! 1%positive) as [ms|] eqn:Hms;
      [|discriminate Hnet].
    exact (Hlambda 1%positive ms Hms).
Defined.

Lemma X6_train_with_too_few_targets_witness :
  vocab_size toy_s0 = Some 1 /\
  attacker_class toy_s0 (<["vocab_size" := Z.of_nat 1]> (attacker_params toy_s0))
    (rng toy_s0) = (Ok 0, 1) /\
  loss_functions !! loss_function toy_s0 = Some BCELoss /\
  ceil_div (Z.of_nat (length toy_captions)) (batch_size toy_s0) = Ok 1%Z /\
  (1 <= epochs toy_s0)%Z /\
  length (@nil (list binary32)) < length toy_captions /\
  (exists msg,
     fst (train toy_backend toy_captions [] "D" toy_s0) = Err (IndexError msg)) /\
  optimizer_step_batches
    (trace (snd (train toy_backend toy_captions [] "D" toy_s0)))
    = optimizer_step_batches (trace toy_s0).
Proof.
  assert (Hv : vocab_size toy_s0 = Some 1) by (vm_compute; reflexivity).
  assert (Hc : attacker_class toy_s0
                 (<["vocab_size" := Z.of_nat 1]> (attacker_params toy_s0))
                 (rng toy_s0) = (Ok 0, 1)) by (vm_compute; reflexivity).
  assert (Hloss : loss_functions !! loss_function toy_s0 = Some BCELoss)
    by (vm_compute; reflexivity).
  assert (Hceil : ceil_div (Z.of_nat (length toy_captions)) (batch_size toy_s0)
                  = Ok 1%Z) by (vm_compute; reflexivity).
  assert (Hep : (1 <= epochs toy_s0)%Z) by (vm_compute; discriminate).
  assert (Hlen : length (@nil (list binary32)) < length toy_captions)
    by (simpl; lia).
  refine (conj Hv (conj Hc (conj Hloss (conj Hceil (conj Hep (conj Hlen _)))))).
  exact (X6_train_with_too_few_targets toy_backend toy_captions [] "D" toy_s0
           1 0 1 BCELoss 1 toy_randperm_permutation Hv Hc (or_introl eq_refl)
           Hloss Hceil Hep Hlen).
Defined.

Lemma X7_train_before_preprocessing_witness :
  vocab_size (toy_new "bce" 1024) = None /\
  train toy_backend toy_captions toy_feat "D" (toy_new "bce" 1024)
    = (Err (AttributeError "vocab_size"), toy_new "bce" 1024) /\
  calcLeak toy_backend toy_feat toy_captions toy_captions false (toy_new "bce" 1024)
    = (Err (AttributeError "vocab_size"), toy_new "bce" 1024).
Proof.
  assert (Hv : vocab_size (toy_new "bce" 1024) = None) by (vm_compute; reflexivity).
  refine (conj Hv _).
  destruct (X7_train_before_preprocessing toy_backend toy_captions toy_feat "D"
              (toy_new "bce" 1024) Hv) as [Htrain Hleak].
  exact (conj Htrain (Hleak toy_feat toy_captions toy_captions false)).
Defined.

Lemma X8_train_with_unknown_mode_witness :
  vocab_size toy_s0 = Some 1 /\
  attacker_class toy_s0 (<["vocab_size" := Z.of_nat 1]> (attacker_params toy_s0))
    (rng toy_s0) = (Ok 0, 1) /\
  "X" <> "D" /\ "X" <> "M" /\
  exists s' d m,
    train toy_backend toy_captions toy_feat "X" toy_s0
      = (Err (AttributeError ("attacker_" +:+ "X")), s') /\
    attacker_D s' = Some d /\ attacker_M s' = Some m /\
    trace s' = trace toy_s0.
Proof.
  assert (Hv : vocab_size toy_s0 = Some 1) by (vm_compute; reflexivity).
  assert (Hc : attacker_class toy_s0
                 (<["vocab_size" := Z.of_nat 1]> (attacker_params toy_s0))
                 (rng toy_s0) = (Ok 0, 1)) by (vm_compute; reflexivity).
  assert (HD : "X" <> "D") by discriminate.
  assert (HM : "X" <> "M") by discriminate.
  refine (conj Hv (conj Hc (conj HD (conj HM _)))).
  destruct (X8_train_with_unknown_mode toy_backend toy_captions toy_feat "X"
              toy_s0 1 0 1 Hv Hc HD HM)
    as (s' & d & m & Hrun & Hd & Hm & _ & _ & _ & _ & Htr).
  exists s', d, m. exact (conj Hrun (conj Hd (conj Hm Htr))).
Defined.


Lemma X10_failed_trial_aborts_measurement_witness :
  captionPreprocess toy_backend toy_captions toy_captions toy_limited
    = (Ok (toy_captions, toy_captions), toy_limited_s1) /\
  leak_samples toy_backend toy_feat toy_captions toy_captions false 1 0
      toy_limited_s1
    = (Ok [fof_Z 4], toy_limited_s2) /\
  calcLeak toy_backend toy_feat toy_captions toy_captions false
      (set_trace toy_backend (trace toy_limited_s2 ++ [PrintTrial 1]) toy_limited_s2)
    = (Err (RuntimeError "out of memory"), toy_limited_s3) /\
  1 < 3 /\
  getAmortizedLeakage toy_backend toy_feat toy_captions toy_captions 3 "mean" false
      toy_limited
    = (Err (RuntimeError "out of memory"), toy_limited_s3).
Proof.
  assert (H1 : captionPreprocess toy_backend toy_captions toy_captions toy_limited
               = (Ok (toy_captions, toy_captions), toy_limited_s1))
    by (unfold toy_limited_s1; apply run_eta; vm_compute; reflexivity).
  assert (H2 : leak_samples toy_backend toy_feat toy_captions toy_captions false 1 0
                 toy_limited_s1
               = (Ok [fof_Z 4], toy_limited_s2))
    by (unfold toy_limited_s2; apply run_eta; vm_compute; reflexivity).
  assert (H3 : calcLeak toy_backend toy_feat toy_captions toy_captions false
                 (set_trace toy_backend (trace toy_limited_s2 ++ [PrintTrial 1])
                    toy_limited_s2)
               = (Err (RuntimeError "out of memory"), toy_limited_s3))
    by (unfold toy_limited_s3; apply run_eta; vm_compute; reflexivity).
  assert (H4 : 1 < 3) by lia.
  refine (conj H1 (conj H2 (conj H3 (conj H4 _)))).
  exact (X10_failed_trial_aborts_measurement toy_backend toy_feat toy_captions
           toy_captions 1 3 "mean" false toy_limited toy_captions toy_captions
           toy_limited_s1 [fof_Z 4] toy_limited_s2 (RuntimeError "out of memory")
           toy_limited_s3 H1 H2 H3 H4).
Defined.

Lemma X15_measurement_ignores_earlier_calls_witness :
  same_config toy_backend (toy_new "bce" 1024) toy_reseeded /\
  rng (toy_new "bce" 1024) = rng toy_reseeded /\
  attacker_D (toy_new "bce" 1024) <> attacker_D toy_reseeded /\
  fst (getAmortizedLeakage toy_backend toy_feat toy_captions toy_captions 2 "mean"
         false (toy_new "bce" 1024))
  = fst (getAmortizedLeakage toy_backend toy_feat toy_captions toy_captions 2 "mean"
           false toy_reseeded) /\
  rng (snd (getAmortizedLeakage toy_backend toy_feat toy_captions toy_captions 2
              "mean" false (toy_new "bce" 1024)))
  = rng (snd (getAmortizedLeakage toy_backend toy_feat toy_captions toy_captions 2
                "mean" false toy_reseeded)).
Proof.
  assert (H1 : same_config toy_backend (toy_new "bce" 1024) toy_reseeded).
  { refine (conj _ (conj _ (conj _ (conj _ (conj _ (conj _ (conj _ (conj _
              (conj _ _)))))))));
      vm_compute; reflexivity. }
  assert (H2 : rng (toy_new "bce" 1024) = rng toy_reseeded)
    by (vm_compute; reflexivity).
  assert (H3 : attacker_D (toy_new "bce" 1024) <> attacker_D toy_reseeded)
    by (vm_compute; discriminate).
  refine (conj H1 (conj H2 (conj H3 _))).
  destruct (X15_measurement_ignores_earlier_calls toy_backend toy_feat toy_captions
              toy_captions 2 "mean" false (toy_new "bce" 1024) toy_reseeded H1 H2)
    as (Hres & Hrng & _).
  exact (conj Hres Hrng).
Defined.
